(** * FluidBackground: a shallow embedding of [src/assets/fluid-bg.ts]

    The engine renders soft "blobs" on a canvas and repairs only the
    rectangles that changed.  This development embeds the typed variant
    ([fluid-bg.ts]); the untyped sibling ([fluid-bg.js]) is embedded only where
    the two differ on a property of interest (module [Untyped]).  Of the view
    that creates the engine ([HomeView.vue]) the colour decoder is embedded
    (module [HomeView]).

    Numbers.  A JavaScript number is modelled as a real number, or one of the
    three special values [NaN], [+Infinity], [-Infinity].  Arithmetic on finite
    values is exact: rounding to binary64, overflow and the sign of zero are
    not represented.  Comparisons are the boolean tests of the language, so a
    comparison with [NaN] is [false].

    Objects.  Each record type of the source is a record in a module of its
    own, which keeps the field names of the source ([Rect.x], [Blob._static],
    [State.fpsCap]).  A blob is a mutable object shared between the registry
    and the code that updates it; here an operation computes the new blob and
    stores it back under its key.  The registry is a [Map]: keys in insertion
    order.

    Canvas.  A canvas is its current drawing state, the stack of saved states
    and the chronological list of the drawing calls it received; the pixels
    are not represented.

    Host.  [requestAnimationFrame] hands out increasing handles and keeps the
    pending ones; [performance.now()], the size of the viewport and the
    coordinates of a pointer event are arguments of the operations that read
    them.  The registration of the three listeners is not represented: a
    listener is the function the host calls with the event.

    The file has the embedding first, then the vocabulary of the statements,
    then the properties. *)

From Stdlib Require Import Reals Lra Lia String Ascii List ZArith Bool Arith.
From Stdlib Require Import DecimalString.
From Stdlib Require DecimalNat DecimalFacts.
From Equations Require Import Equations.
Import ListNotations.

Set Implicit Arguments.

(* ===================================================================== *)
(** ** JavaScript numbers *)
(* ===================================================================== *)

Module JS.

Inductive number : Type :=
| NaN
| PInf
| NInf
| Fin (r : R).

Definition Rltb (x y : R) : bool := if Rlt_dec x y then true else false.
Definition Rleb (x y : R) : bool := if Rle_dec x y then true else false.
Definition Reqb (x y : R) : bool := if Req_dec_T x y then true else false.

Definition inf_of (positive : bool) : number := if positive then PInf else NInf.

Definition neg (a : number) : number :=
  match a with
  | NaN => NaN
  | PInf => NInf
  | NInf => PInf
  | Fin x => Fin (- x)
  end.

Definition add (a b : number) : number :=
  match a, b with
  | NaN, _ | _, NaN => NaN
  | PInf, NInf | NInf, PInf => NaN
  | PInf, _ | _, PInf => PInf
  | NInf, _ | _, NInf => NInf
  | Fin x, Fin y => Fin (x + y)
  end.

Definition sub (a b : number) : number :=
  match a, b with
  | NaN, _ | _, NaN => NaN
  | PInf, PInf | NInf, NInf => NaN
  | PInf, _ | _, NInf => PInf
  | NInf, _ | _, PInf => NInf
  | Fin x, Fin y => Fin (x - y)
  end.

(** Product of an infinity (of the given sign) with [y]. *)
Definition mul_inf (positive : bool) (y : number) : number :=
  match y with
  | NaN => NaN
  | PInf => inf_of positive
  | NInf => inf_of (negb positive)
  | Fin r => if Reqb r 0 then NaN else inf_of (Bool.eqb positive (Rltb 0 r))
  end.

Definition mul (a b : number) : number :=
  match a, b with
  | Fin x, Fin y => Fin (x * y)
  | PInf, _ => mul_inf true b
  | NInf, _ => mul_inf false b
  | _, PInf => mul_inf true a
  | _, NInf => mul_inf false a
  | _, _ => NaN
  end.

(** Division.  A zero divisor counts as positive (the sign of zero is not
    represented). *)
Definition div (a b : number) : number :=
  match a, b with
  | NaN, _ | _, NaN => NaN
  | PInf, PInf | PInf, NInf | NInf, PInf | NInf, NInf => NaN
  | PInf, Fin y => inf_of (Rleb 0 y)
  | NInf, Fin y => inf_of (Rltb y 0)
  | Fin _, PInf | Fin _, NInf => Fin 0
  | Fin x, Fin y =>
      if Reqb y 0
      then (if Reqb x 0 then NaN else inf_of (Rltb 0 x))
      else Fin (x / y)
  end.

Definition lt (a b : number) : bool :=
  match a, b with
  | NaN, _ | _, NaN => false
  | _, NInf => false
  | PInf, _ => false
  | NInf, _ => true
  | _, PInf => true
  | Fin x, Fin y => Rltb x y
  end.

Definition le (a b : number) : bool :=
  match a, b with
  | NaN, _ | _, NaN => false
  | NInf, _ => true
  | _, PInf => true
  | _, NInf => false
  | PInf, _ => false
  | Fin x, Fin y => Rleb x y
  end.

Definition gt (a b : number) : bool := lt b a.
Definition ge (a b : number) : bool := le b a.

(** [a === b] on numbers. *)
Definition strictEq (a b : number) : bool :=
  match a, b with
  | PInf, PInf | NInf, NInf => true
  | Fin x, Fin y => Reqb x y
  | _, _ => false
  end.

(** Truthiness of a number: [0] and [NaN] are falsy. *)
Definition truthy (a : number) : bool :=
  match a with
  | NaN => false
  | Fin r => negb (Reqb r 0)
  | _ => true
  end.

Definition isNaN (a : number) : bool :=
  match a with NaN => true | _ => false end.


End JS.

Import JS.

Declare Scope js_scope.
Delimit Scope js_scope with js.
Bind Scope js_scope with number.
Infix "+" := add : js_scope.
Infix "-" := sub : js_scope.
Infix "*" := mul : js_scope.
Infix "/" := div : js_scope.
Infix "<?" := lt (at level 70, no associativity) : js_scope.
Infix "<=?" := le (at level 70, no associativity) : js_scope.
Infix ">?" := gt (at level 70, no associativity) : js_scope.
Infix ">=?" := ge (at level 70, no associativity) : js_scope.
Infix "===" := strictEq (at level 70, no associativity) : js_scope.

(** [!a] on a number. *)
Definition falsy (a : number) : bool := negb (truthy a).

(** The part of the [Math] object the engine calls. *)
Module Math.

Definition max (a b : number) : number :=
  match a, b with
  | NaN, _ | _, NaN => NaN
  | _, _ => if lt a b then b else a
  end.

Definition min (a b : number) : number :=
  match a, b with
  | NaN, _ | _, NaN => NaN
  | _, _ => if lt b a then b else a
  end.

Definition floor (a : number) : number :=
  match a with Fin r => Fin (IZR (Zfloor r)) | _ => a end.

Definition ceil (a : number) : number :=
  match a with Fin r => Fin (IZR (Zceil r)) | _ => a end.

(** [Math.round] rounds halves up: it is [floor (x + 1/2)]. *)
Definition round (a : number) : number :=
  match a with Fin r => Fin (IZR (Zfloor (r + 1 / 2))) | _ => a end.

Definition sin (a : number) : number :=
  match a with Fin r => Fin (Rtrigo_def.sin r) | _ => NaN end.

Definition cos (a : number) : number :=
  match a with Fin r => Fin (Rtrigo_def.cos r) | _ => NaN end.

(** [Math.pow(a, n)] for the natural exponents the engine uses. *)
Fixpoint pow (a : number) (n : nat) : number :=
  match n with
  | O => Fin 1
  | S k => mul a (pow a k)
  end.

Definition PI : number := Fin Rtrigo1.PI.

End Math.

(** [v | 0]: conversion to a signed 32-bit integer. *)
Definition toInt32 (a : number) : number :=
  match a with
  | Fin r =>
      let z := if Rle_dec 0 r then Zfloor r else Zceil r in
      Fin (IZR ((z + 2 ^ 31) mod 2 ^ 32 - 2 ^ 31))
  | _ => Fin 0
  end.

Open Scope js_scope.

Definition clamp (v a b : number) : number := Math.min b (Math.max a v).
Definition lerp (a b t : number) : number := a + (b - a) * t.
Definition TAU : number := Math.PI * Fin 2.

Definition EaseFn : Type := number -> number.

Definition easeInOutQuad : EaseFn :=
  fun t =>
    if t <? Fin 0.5
    then Fin 2 * t * t
    else Fin 1 - Math.pow (Fin (-2) * t + Fin 2) 2 / Fin 2.

(** [Easings]: the record of named easing functions. *)
Definition Easings : list (string * EaseFn) :=
  [("easeInOutQuad"%string, easeInOutQuad)].

Fixpoint lookup_easing (tbl : list (string * EaseFn)) (name : string)
  : option EaseFn :=
  match tbl with
  | [] => None
  | (k, f) :: rest => if String.eqb k name then Some f else lookup_easing rest name
  end.

(* ===================================================================== *)
(** ** Strings: [trim], [endsWith], [parseFloat] *)
(* ===================================================================== *)

Module Str.

(** Strings are byte strings; white space is the ASCII part of what [trim]
    and [parseFloat] skip. *)
Definition is_ws (c : ascii) : bool :=
  match nat_of_ascii c with
  | 9%nat | 10%nat | 11%nat | 12%nat | 13%nat | 32%nat => true
  | _ => false
  end.

Fixpoint dropWs (l : list ascii) : list ascii :=
  match l with
  | c :: l' => if is_ws c then dropWs l' else l
  | [] => []
  end.

Definition trimStart (s : string) : string :=
  string_of_list_ascii (dropWs (list_ascii_of_string s)).

Definition trim (s : string) : string :=
  string_of_list_ascii
    (List.rev (dropWs (List.rev (dropWs (list_ascii_of_string s))))).

Fixpoint starts (p l : list ascii) : bool :=
  match p, l with
  | [], _ => true
  | a :: p', b :: l' => Ascii.eqb a b && starts p' l'
  | _ :: _, [] => false
  end.

Definition endsWith (s suffix : string) : bool :=
  starts (List.rev (list_ascii_of_string suffix))
         (List.rev (list_ascii_of_string s)).

Definition digit_val (c : ascii) : option Z :=
  let n := nat_of_ascii c in
  if (48 <=? n)%nat && (n <=? 57)%nat then Some (Z.of_nat (n - 48)) else None.

(** Longest run of decimal digits at the head of [l]: its value (continuing
    the accumulator), how many there were, and the rest. *)
Fixpoint digits (acc : Z) (cnt : nat) (l : list ascii) : Z * nat * list ascii :=
  match l with
  | c :: l' =>
      match digit_val c with
      | Some d => digits (10 * acc + d) (S cnt) l'
      | None => (acc, cnt, l)
      end
  | [] => (acc, cnt, l)
  end.

Definition sign (l : list ascii) : bool * list ascii :=
  match l with
  | "-"%char :: t => (true, t)
  | "+"%char :: t => (false, t)
  | _ => (false, l)
  end.

(** What [parseFloat] reads: an infinity, or a decimal [mantissa * 10^exp10]. *)
Inductive literal : Type :=
| LitInfinity (negative : bool)
| LitDecimal (negative : bool) (mantissa : Z) (exp10 : Z).

(** The longest prefix of the trimmed input that is a decimal literal:
    sign, digits, fraction, exponent; or [Infinity]. *)
Definition readLiteral (s : string) : option literal :=
  let l := dropWs (list_ascii_of_string s) in
  let '(negative, l0) := sign l in
  if starts (list_ascii_of_string "Infinity") l0 then Some (LitInfinity negative)
  else
    let '(ip, n1, l1) := digits 0 0 l0 in
    let '(m, n2, l2) :=
      match l1 with
      | "."%char :: t =>
          let '(m, n12, l2) := digits ip n1 t in
          (m, (n12 - n1)%nat, l2)
      | _ => (ip, 0%nat, l1)
      end in
    if (n1 + n2 =? 0)%nat then None
    else
      let ex :=
        match l2 with
        | c :: t =>
            if Ascii.eqb c "e" || Ascii.eqb c "E"
            then
              let '(eneg, t') := sign t in
              let '(ev, n3, _) := digits 0 0 t' in
              if (n3 =? 0)%nat then 0%Z else if eneg then (- ev)%Z else ev
            else 0%Z
        | [] => 0%Z
        end in
      Some (LitDecimal negative m (ex - Z.of_nat n2)).

Definition scale10 (m e : Z) : R :=
  match e with
  | Z0 => IZR m
  | Zpos p => IZR (m * 10 ^ Zpos p)
  | Zneg p => (IZR m / IZR (10 ^ Zpos p))%R
  end.

Definition parseFloat (s : string) : number :=
  match readLiteral s with
  | None => NaN
  | Some (LitInfinity negative) => inf_of (negb negative)
  | Some (LitDecimal negative m e) =>
      Fin (scale10 (if negative then (- m)%Z else m) e)
  end.

End Str.

(* ===================================================================== *)
(** ** Unit resolver *)
(* ===================================================================== *)

(** A [number | string] scalar. *)
Inductive value : Type :=
| VNum (n : number)
| VStr (s : string).

Module Dims.
Record T : Type := mk { w : number; h : number; vMax : number }.
End Dims.
Abbreviation Dims := Dims.T.

Inductive Axis : Type := AxisX | AxisY | AxisVmax.

Definition unitToPx (v : value) (dims : Dims) (axis : Axis) : number :=
  match v with
  | VNum n => n
  | VStr v =>
      let s := Str.trim v in
      if Str.endsWith s "px" then Str.parseFloat s
      else if Str.endsWith s "%" then
        (match axis with AxisY => Dims.h dims | _ => Dims.w dims end)
        * (Str.parseFloat s / Fin 100)
      else if Str.endsWith s "vw" then Dims.w dims * (Str.parseFloat s / Fin 100)
      else if Str.endsWith s "vh" then Dims.h dims * (Str.parseFloat s / Fin 100)
      else if Str.endsWith s "vmax" then Dims.vMax dims * (Str.parseFloat s / Fin 100)
      else
        let n := Str.parseFloat s in
        if isNaN n then Fin 0 else n
  end.

(** [{ x: number; y: number }] *)
Module Point.
Record T : Type := mk { x : number; y : number }.
End Point.
Abbreviation Point := Point.T.

Module Center.
Record T : Type := mk { x : value; y : value }.
End Center.
Abbreviation Center := Center.T.

(** [BlobConfig["center"]]: a fixed point, or a function of the dimensions
    (whose result may be missing). *)
Inductive CenterSpec : Type :=
| CenterAt (c : Center)
| CenterFn (f : Dims -> option Point).

Definition resolveCenter (center : CenterSpec) (dims : Dims) : Point :=
  match center with
  | CenterFn f =>
      let p := match f dims with Some p => p | None => Point.mk (Fin 0) (Fin 0) end in
      Point.mk (Point.x p) (Point.y p)
  | CenterAt c =>
      Point.mk (unitToPx (Center.x c) dims AxisX) (unitToPx (Center.y c) dims AxisY)
  end.

(* ===================================================================== *)
(** ** Dirty-rect helpers *)
(* ===================================================================== *)

Module Rect.
Record T : Type := mk { x : number; y : number; w : number; h : number }.
End Rect.
Abbreviation Rect := Rect.T.

Definition inflateRect (r : Rect) (pad : number) : Rect :=
  Rect.mk (Rect.x r - pad) (Rect.y r - pad)
          (Rect.w r + pad * Fin 2) (Rect.h r + pad * Fin 2).

Definition intersect (a b : Rect) : bool :=
  negb ((Rect.x a + Rect.w a <=? Rect.x b) || (Rect.x b + Rect.w b <=? Rect.x a)
        || (Rect.y a + Rect.h a <=? Rect.y b) || (Rect.y b + Rect.h b <=? Rect.y a)).

Definition union (a b : Rect) : Rect :=
  let x := Math.min (Rect.x a) (Rect.x b) in
  let y := Math.min (Rect.y a) (Rect.y b) in
  let r := Math.max (Rect.x a + Rect.w a) (Rect.x b + Rect.w b) in
  let btm := Math.max (Rect.y a + Rect.h a) (Rect.y b + Rect.h b) in
  Rect.mk x y (r - x) (btm - y).

(** [work.pop()]: the last element and the array without it. *)
Definition pop (work : list Rect) : option (Rect * list Rect) :=
  match List.rev work with
  | [] => None
  | cur :: r => Some (cur, List.rev r)
  end.

(** One pass of the inner [for]: the first [work[i]] that intersects [cur],
    and [work] after [splice(i, 1)]. *)
Fixpoint firstHit (cur : Rect) (work : list Rect) : option (Rect * list Rect) :=
  match work with
  | [] => None
  | r :: rest =>
      if intersect cur r then Some (r, rest)
      else match firstHit cur rest with
           | Some (hit, rest') => Some (hit, r :: rest')
           | None => None
           end
  end.

Lemma firstHit_length cur work hit rest :
  firstHit cur work = Some (hit, rest) -> length work = S (length rest).
Proof.
  revert hit rest. induction work as [|r work IH]; simpl; intros hit rest H.
  - discriminate.
  - destruct (intersect cur r).
    + inversion H; subst. reflexivity.
    + destruct (firstHit cur work) as [[h' r']|] eqn:E; [|discriminate].
      inversion H; subst. simpl. f_equal. eapply IH. reflexivity.
Qed.

(** Case analysis on a computed value that remembers what was computed. *)
Definition inspect {A : Type} (a : A) : { b : A | a = b } := exist _ a eq_refl.

(** The inner [for] with its restarts ([i = -1]): [cur] swallows intersecting
    rectangles until none is left. *)
Equations? absorb (cur : Rect) (work : list Rect) : Rect * list Rect
  by wf (length work) Peano.lt :=
  absorb cur work with inspect (firstHit cur work) := {
    | exist _ (Some (hit, rest)) E => absorb (union cur hit) rest
    | exist _ None _ => (cur, work) }.
Proof.
  rewrite (firstHit_length _ _ E). lia.
Qed.

Lemma absorb_length cur work :
  (length (snd (absorb cur work)) <= length work)%nat.
Proof.
  funelim (absorb cur work).
  - rewrite (firstHit_length _ _ E). lia.
  - simpl. lia.
Qed.

Lemma pop_length work cur rest :
  pop work = Some (cur, rest) -> length work = S (length rest).
Proof.
  unfold pop. intros H.
  destruct (List.rev work) as [|c r] eqn:E; [discriminate|].
  inversion H; subst.
  rewrite <- (length_rev work), E. simpl. now rewrite length_rev.
Qed.

(** The outer [while (work.length)]. *)
Equations? mergeLoop (work out : list Rect) : list Rect
  by wf (length work) Peano.lt :=
  mergeLoop work out with inspect (pop work) := {
    | exist _ None _ => out
    | exist _ (Some (cur, rest)) E =>
        mergeLoop (snd (absorb cur rest)) (out ++ [fst (absorb cur rest)]) }.
Proof.
  rewrite (pop_length _ E). pose proof (absorb_length cur rest). lia.
Qed.

(** light merge: union touching/overlapping rects (with small tolerance) *)
Definition mergeRects (rects : list Rect) (tolerance : number) : list Rect :=
  if (length rects <=? 1)%nat then rects
  else
    let work := map (fun r => inflateRect r tolerance) rects in
    map (fun r => inflateRect r (neg tolerance)) (mergeLoop work []).

(* ===================================================================== *)
(** ** Blob configuration and internal state *)
(* ===================================================================== *)

Definition RGB : Type := (number * number * number)%type.

Module Layer.
Record T : Type := mk {
  color : RGB;
  centerAlpha : option number;
  midAlpha : option number;
  edgeAlpha : option number }.
End Layer.
Abbreviation Layer := Layer.T.

(** [Drift]: every field optional. *)
Module Drift.
Record T : Type := mk {
  ax : option number;
  ay : option number;
  sx : option number;
  sy : option number;
  speed : option number }.
Definition empty : T := mk None None None None None.
End Drift.
Abbreviation Drift := Drift.T.

(** [Required<Drift>] *)
Module RDrift.
Record T : Type := mk {
  ax : number;
  ay : number;
  sx : number;
  sy : number;
  speed : number }.
End RDrift.
Abbreviation RDrift := RDrift.T.

Module Breath.
Record T : Type := mk {
  scale : option (number * number);
  opacity : option (number * number);
  speed : option number;
  phase : option number }.
End Breath.
Abbreviation Breath := Breath.T.

(** [BlobConfig].  An optional field is [None] when it is [undefined];
    [breath] can also be [null], which is [Some None]. *)
Module BlobConfig.
Record T : Type := mk {
  id : option string;
  diameter : value;
  center : CenterSpec;
  layers : option (list Layer);
  opacity : option number;
  parallaxScale : option number;
  drift : option Drift;
  breath : option (option Breath) }.
End BlobConfig.
Abbreviation BlobConfig := BlobConfig.T.

(** [Partial<BlobConfig>] *)
Module BlobPatch.
Record T : Type := mk {
  id : option string;
  diameter : option value;
  center : option CenterSpec;
  layers : option (list Layer);
  opacity : option number;
  parallaxScale : option number;
  drift : option Drift;
  breath : option (option Breath) }.
End BlobPatch.
Abbreviation BlobPatch := BlobPatch.T.

(** [InternalEase] *)
Module Ease.
Record T : Type := mk {
  from : Point;
  to : Point;
  t : number;
  durMs : number;
  ease : EaseFn }.
Definition set_t (v : number) (e : T) : T :=
  mk (from e) (to e) v (durMs e) (ease e).
End Ease.
Abbreviation InternalEase := Ease.T.

(** What [_rebuildSprite] paints into the offscreen canvas of a sprite: the
    canvas size, the blur filter, and one radial-gradient disc per layer. *)
Module ColorStop.
Record T : Type := mk { offset : number; rgb : RGB; a : number }.
End ColorStop.

Module Disc.
Record T : Type := mk {
  cx : number; cy : number;      (* centre of the gradient and of the arc *)
  r1 : number;                   (* outer radius of the gradient *)
  stops : list ColorStop.T;
  radius : number }.             (* radius of the filled arc *)
End Disc.

Module Sprite.
Record T : Type := mk {
  width : number;
  height : number;
  blur : number;
  discs : list Disc.T }.
End Sprite.
Abbreviation Sprite := Sprite.T.

(** [BlobInternal] *)
Module Blob.
Record T : Type := mk {
  id : string;
  diameter : value;
  center : CenterSpec;
  layers : list Layer;
  opacity : number;
  parallaxScale : number;
  drift : RDrift;
  breath : option Breath;
  _sprite : option Sprite;
  _diamPx : number;
  _ease : option InternalEase;
  _lastRect : option Rect;
  _nextRect : option Rect;
  _static : bool }.

Definition set_diameter v b :=
  mk (id b) v (center b) (layers b) (opacity b) (parallaxScale b) (drift b)
     (breath b) (_sprite b) (_diamPx b) (_ease b) (_lastRect b) (_nextRect b) (_static b).
Definition set_center v b :=
  mk (id b) (diameter b) v (layers b) (opacity b) (parallaxScale b) (drift b)
     (breath b) (_sprite b) (_diamPx b) (_ease b) (_lastRect b) (_nextRect b) (_static b).
Definition set_layers v b :=
  mk (id b) (diameter b) (center b) v (opacity b) (parallaxScale b) (drift b)
     (breath b) (_sprite b) (_diamPx b) (_ease b) (_lastRect b) (_nextRect b) (_static b).
Definition set_opacity v b :=
  mk (id b) (diameter b) (center b) (layers b) v (parallaxScale b) (drift b)
     (breath b) (_sprite b) (_diamPx b) (_ease b) (_lastRect b) (_nextRect b) (_static b).
Definition set_parallaxScale v b :=
  mk (id b) (diameter b) (center b) (layers b) (opacity b) v (drift b)
     (breath b) (_sprite b) (_diamPx b) (_ease b) (_lastRect b) (_nextRect b) (_static b).
Definition set_drift v b :=
  mk (id b) (diameter b) (center b) (layers b) (opacity b) (parallaxScale b) v
     (breath b) (_sprite b) (_diamPx b) (_ease b) (_lastRect b) (_nextRect b) (_static b).
Definition set_breath v b :=
  mk (id b) (diameter b) (center b) (layers b) (opacity b) (parallaxScale b) (drift b)
     v (_sprite b) (_diamPx b) (_ease b) (_lastRect b) (_nextRect b) (_static b).
Definition set_sprite sp dpx b :=
  mk (id b) (diameter b) (center b) (layers b) (opacity b) (parallaxScale b) (drift b)
     (breath b) sp dpx (_ease b) (_lastRect b) (_nextRect b) (_static b).
Definition set_ease v b :=
  mk (id b) (diameter b) (center b) (layers b) (opacity b) (parallaxScale b) (drift b)
     (breath b) (_sprite b) (_diamPx b) v (_lastRect b) (_nextRect b) (_static b).
Definition set_lastRect v b :=
  mk (id b) (diameter b) (center b) (layers b) (opacity b) (parallaxScale b) (drift b)
     (breath b) (_sprite b) (_diamPx b) (_ease b) v (_nextRect b) (_static b).
Definition set_nextRect v b :=
  mk (id b) (diameter b) (center b) (layers b) (opacity b) (parallaxScale b) (drift b)
     (breath b) (_sprite b) (_diamPx b) (_ease b) (_lastRect b) v (_static b).
Definition set_static v b :=
  mk (id b) (diameter b) (center b) (layers b) (opacity b) (parallaxScale b) (drift b)
     (breath b) (_sprite b) (_diamPx b) (_ease b) (_lastRect b) (_nextRect b) v.
End Blob.
Abbreviation BlobInternal := Blob.T.

(** [Map<string, BlobInternal>]: keys in insertion order; [set] on a present
    key replaces the value where it is, on a new key appends. *)
Module JSMap.
Section WithValue.
Variable V : Type.
Definition T : Type := list (string * V).

Fixpoint get (m : T) (k : string) : option V :=
  match m with
  | [] => None
  | (k', v) :: rest => if String.eqb k' k then Some v else get rest k
  end.

Fixpoint set (m : T) (k : string) (v : V) : T :=
  match m with
  | [] => [(k, v)]
  | (k', v') :: rest =>
      if String.eqb k' k then (k', v) :: rest else (k', v') :: set rest k v
  end.

Fixpoint delete (m : T) (k : string) : T :=
  match m with
  | [] => []
  | (k', v') :: rest =>
      if String.eqb k' k then rest else (k', v') :: delete rest k
  end.

Definition clear (m : T) : T := [].
Definition keys (m : T) : list string := map fst m.
Definition values (m : T) : list V := map snd m.
Definition size (m : T) : nat := length m.
End WithValue.
End JSMap.

(* ===================================================================== *)
(** ** Canvases *)
(* ===================================================================== *)

(** A valid [globalAlpha] is a finite number in [0, 1]; the setter ignores
    anything else. *)
Definition validAlpha (a : number) : bool :=
  match a with Fin _ => (Fin 0 <=? a) && (a <=? Fin 1) | _ => false end.

(** Calls received by the 2D context of the offscreen static layer. *)
Inductive LayerCall : Type :=
| LClearRect (x y w h : number)
| LDrawImage (alpha : number) (sprite : Sprite) (dx dy dw dh : number).

(** The offscreen canvas [_staticLayer] with the state of its context. *)
Module StaticLayer.
Record T : Type := mk {
  width : number;
  height : number;
  globalAlpha : number;
  calls : list LayerCall }.
Definition clearRect (x y w h : number) (l : T) : T :=
  mk (width l) (height l) (globalAlpha l) (calls l ++ [LClearRect x y w h]).
Definition setGlobalAlpha (a : number) (l : T) : T :=
  mk (width l) (height l) (if validAlpha a then a else globalAlpha l) (calls l).
Definition drawImage (sp : Sprite) (dx dy dw dh : number) (l : T) : T :=
  mk (width l) (height l) (globalAlpha l)
     (calls l ++ [LDrawImage (globalAlpha l) sp dx dy dw dh]).
(** [document.createElement("canvas")]: 300 x 150, nothing drawn. *)
Definition create : T := mk (Fin 300) (Fin 150) (Fin 1) [].
(** [l.width = w; l.height = h].  Assigning a dimension resets the context
    state; it also clears the bitmap, which the list of calls does not show. *)
Definition setSize (w h : number) (l : T) : T := mk w h (Fin 1) (calls l).
End StaticLayer.
Abbreviation StaticLayer := StaticLayer.T.

(** Drawing state of the main context: what [save]/[restore] keep.  The
    transform is only ever the identity or a scaling. *)
Module CtxState.
Record T : Type := mk {
  globalAlpha : number;
  globalCompositeOperation : string;
  scaleX : number;
  scaleY : number }.
(** The state of a context that has just been created or reset. *)
Definition initial : T := mk (Fin 1) "source-over" (Fin 1) (Fin 1).
End CtxState.
Abbreviation CtxState := CtxState.T.

(** Calls received by the main context, each with the drawing state in force. *)
Inductive Call : Type :=
| ClearRect (st : CtxState) (x y w h : number)
| DrawLayer (st : CtxState) (layer : list LayerCall) (dx dy : number)
| BlitLayer (st : CtxState) (layer : list LayerCall)
            (sx sy sw sh : number) (dx dy dw dh : number)
| DrawSprite (st : CtxState) (sprite : Sprite) (dx dy dw dh : number).

(** The visible canvas with its context. *)
Module Canvas.
Record T : Type := mk {
  width : number;
  height : number;
  cur : CtxState;
  saved : list CtxState;
  calls : list Call }.
Definition set_cur (st : CtxState) (c : T) : T :=
  mk (width c) (height c) st (saved c) (calls c).
Definition emit (k : Call) (c : T) : T :=
  mk (width c) (height c) (cur c) (saved c) (calls c ++ [k]).
Definition save (c : T) : T :=
  mk (width c) (height c) (cur c) (cur c :: saved c) (calls c).
Definition restore (c : T) : T :=
  match saved c with
  | [] => c
  | st :: rest => mk (width c) (height c) st rest (calls c)
  end.
(** [setTransform(1, 0, 0, 1, 0, 0)] *)
Definition resetTransform (c : T) : T :=
  set_cur (CtxState.mk (CtxState.globalAlpha (cur c))
                       (CtxState.globalCompositeOperation (cur c))
                       (Fin 1) (Fin 1)) c.
Definition scale (kx ky : number) (c : T) : T :=
  set_cur (CtxState.mk (CtxState.globalAlpha (cur c))
                       (CtxState.globalCompositeOperation (cur c))
                       (CtxState.scaleX (cur c) * kx)
                       (CtxState.scaleY (cur c) * ky)) c.
Definition setGlobalAlpha (a : number) (c : T) : T :=
  set_cur (CtxState.mk (if validAlpha a then a else CtxState.globalAlpha (cur c))
                       (CtxState.globalCompositeOperation (cur c))
                       (CtxState.scaleX (cur c)) (CtxState.scaleY (cur c))) c.
(** The argument has type [GlobalCompositeOperation]: always a valid name. *)
Definition setComposite (op : string) (c : T) : T :=
  set_cur (CtxState.mk (CtxState.globalAlpha (cur c)) op
                       (CtxState.scaleX (cur c)) (CtxState.scaleY (cur c))) c.
Definition clearRect (x y w h : number) (c : T) : T :=
  emit (ClearRect (cur c) x y w h) c.
Definition drawLayer (l : StaticLayer) (dx dy : number) (c : T) : T :=
  emit (DrawLayer (cur c) (StaticLayer.calls l) dx dy) c.
Definition blitLayer (l : StaticLayer) (sx sy sw sh dx dy dw dh : number) (c : T) : T :=
  emit (BlitLayer (cur c) (StaticLayer.calls l) sx sy sw sh dx dy dw dh) c.
Definition drawSprite (sp : Sprite) (dx dy dw dh : number) (c : T) : T :=
  emit (DrawSprite (cur c) sp dx dy dw dh) c.
(** [canvas.width = w; canvas.height = h].  Assigning a dimension resets the
    context: the drawing state returns to its defaults and the stack of saved
    states is emptied.  It also clears the bitmap, which the list of calls
    does not show. *)
Definition setSize (w h : number) (c : T) : T :=
  mk w h CtxState.initial [] (calls c).
End Canvas.
Abbreviation Canvas := Canvas.T.

(** The host's animation-frame queue. *)
Module Host.
Record T : Type := mk { nextHandle : nat; pending : list nat }.
Definition requestAnimationFrame (h : T) : nat * T :=
  (nextHandle h, mk (S (nextHandle h)) (pending h ++ [nextHandle h])).
Definition cancelAnimationFrame (id : nat) (h : T) : T :=
  mk (nextHandle h) (filter (fun k => negb (Nat.eqb k id)) (pending h)).
End Host.
Abbreviation Host := Host.T.

(* ===================================================================== *)
(** ** Engine state *)
(* ===================================================================== *)

Module State.
Record T : Type := mk {
  w : number;
  h : number;
  vMax : number;
  dpr : number;
  alpha : number;
  blurPx : number;
  composite : string;
  parallaxVmax : number;
  fpsCap : number;
  px : number; py : number;
  tx : number; ty : number;
  running : bool;
  prefersReduce : bool;
  damagePaddingPx : number;
  fullRedrawThreshold : number;
  maxDirtyRects : number }.

Definition set_pointer (x y : number) (s : T) : T :=
  mk (w s) (h s) (vMax s) (dpr s) (alpha s) (blurPx s) (composite s)
     (parallaxVmax s) (fpsCap s) x y (tx s) (ty s) (running s)
     (prefersReduce s) (damagePaddingPx s) (fullRedrawThreshold s) (maxDirtyRects s).
Definition set_running (v : bool) (s : T) : T :=
  mk (w s) (h s) (vMax s) (dpr s) (alpha s) (blurPx s) (composite s)
     (parallaxVmax s) (fpsCap s) (px s) (py s) (tx s) (ty s) v
     (prefersReduce s) (damagePaddingPx s) (fullRedrawThreshold s) (maxDirtyRects s).
Definition set_fpsCap (v : number) (s : T) : T :=
  mk (w s) (h s) (vMax s) (dpr s) (alpha s) (blurPx s) (composite s)
     (parallaxVmax s) v (px s) (py s) (tx s) (ty s) (running s)
     (prefersReduce s) (damagePaddingPx s) (fullRedrawThreshold s) (maxDirtyRects s).
Definition set_blurPx (v : number) (s : T) : T :=
  mk (w s) (h s) (vMax s) (dpr s) (alpha s) v (composite s)
     (parallaxVmax s) (fpsCap s) (px s) (py s) (tx s) (ty s) (running s)
     (prefersReduce s) (damagePaddingPx s) (fullRedrawThreshold s) (maxDirtyRects s).
Definition set_alpha (v : number) (s : T) : T :=
  mk (w s) (h s) (vMax s) (dpr s) v (blurPx s) (composite s)
     (parallaxVmax s) (fpsCap s) (px s) (py s) (tx s) (ty s) (running s)
     (prefersReduce s) (damagePaddingPx s) (fullRedrawThreshold s) (maxDirtyRects s).
Definition set_composite (v : string) (s : T) : T :=
  mk (w s) (h s) (vMax s) (dpr s) (alpha s) (blurPx s) v
     (parallaxVmax s) (fpsCap s) (px s) (py s) (tx s) (ty s) (running s)
     (prefersReduce s) (damagePaddingPx s) (fullRedrawThreshold s) (maxDirtyRects s).
Definition set_parallaxVmax (v : number) (s : T) : T :=
  mk (w s) (h s) (vMax s) (dpr s) (alpha s) (blurPx s) (composite s)
     v (fpsCap s) (px s) (py s) (tx s) (ty s) (running s)
     (prefersReduce s) (damagePaddingPx s) (fullRedrawThreshold s) (maxDirtyRects s).
Definition set_target (x y : number) (s : T) : T :=
  mk (w s) (h s) (vMax s) (dpr s) (alpha s) (blurPx s) (composite s)
     (parallaxVmax s) (fpsCap s) (px s) (py s) x y (running s)
     (prefersReduce s) (damagePaddingPx s) (fullRedrawThreshold s) (maxDirtyRects s).
Definition set_size (w' h' vMax' : number) (s : T) : T :=
  mk w' h' vMax' (dpr s) (alpha s) (blurPx s) (composite s)
     (parallaxVmax s) (fpsCap s) (px s) (py s) (tx s) (ty s) (running s)
     (prefersReduce s) (damagePaddingPx s) (fullRedrawThreshold s) (maxDirtyRects s).
End State.
Abbreviation State := State.T.

Module FluidOptions.
Record T : Type := mk {
  alpha : option number;
  blurPx : option number;
  composite : option string;
  parallaxVmax : option number;
  fpsCap : option number;
  maxDpr : option number;
  autoStart : option bool;
  damagePaddingPx : option number;
  fullRedrawThreshold : option number;
  maxDirtyRects : option number;
  pointerTracking : option bool }.
Definition none : T :=
  mk None None None None None None None None None None None.
End FluidOptions.
Abbreviation FluidOptions := FluidOptions.T.

(** [a ?? b] *)
Definition orElse {A : Type} (a : option A) (b : A) : A :=
  match a with Some v => v | None => b end.
Infix "??" := orElse (at level 45, left associativity).

(** [a || b] on numbers. *)
Definition orNum (a b : number) : number := if truthy a then a else b.

(** The [this.state = { ... }] literal of the constructor; the media queries
    and [window.devicePixelRatio] are read from the host. *)
Definition initialState (opts : FluidOptions) (isMobile prefersReduce : bool)
    (devicePixelRatio : number) : State :=
  State.mk
    (Fin 0) (Fin 0) (Fin 0)
    (clamp (orNum devicePixelRatio (Fin 1)) (Fin 1) (FluidOptions.maxDpr opts ?? Fin 2))
    (FluidOptions.alpha opts ?? (if isMobile then Fin 0.44 else Fin 0.5))
    (FluidOptions.blurPx opts ?? (if isMobile then Fin 32 else Fin 36))
    (FluidOptions.composite opts ?? "source-over"%string)
    (FluidOptions.parallaxVmax opts ?? (if isMobile then Fin 0.6 else Fin 0.9))
    (FluidOptions.fpsCap opts ?? Fin 0)
    (Fin 0) (Fin 0) (Fin 0) (Fin 0)
    false
    prefersReduce
    (FluidOptions.damagePaddingPx opts ?? Fin 12)
    (clamp (FluidOptions.fullRedrawThreshold opts ?? Fin 0.55) (Fin 0.1) (Fin 1.0))
    (FluidOptions.maxDirtyRects opts ?? Fin 16).

(** The fields of [class FluidBackground].  [ctx] and [_staticCtx] say whether
    the field still refers to the context ([false] is [null]); the contexts
    themselves live with their canvases.  The three listener closures are not
    represented. *)
Module Engine.
Record T : Type := mk {
  canvas : Canvas;
  ctx : bool;
  state : State;
  _blobs : JSMap.T BlobInternal;
  _idSeq : nat;
  _staticLayer : StaticLayer;
  _staticCtx : bool;
  _needRebuildStatic : bool;
  _raf : nat;
  _lastFrameTs : number;
  _pointerEnabled : bool;
  host : Host }.

Definition set_canvas v e :=
  mk v (ctx e) (state e) (_blobs e) (_idSeq e) (_staticLayer e) (_staticCtx e)
     (_needRebuildStatic e) (_raf e) (_lastFrameTs e) (_pointerEnabled e) (host e).
Definition set_state v e :=
  mk (canvas e) (ctx e) v (_blobs e) (_idSeq e) (_staticLayer e) (_staticCtx e)
     (_needRebuildStatic e) (_raf e) (_lastFrameTs e) (_pointerEnabled e) (host e).
Definition set_blobs v e :=
  mk (canvas e) (ctx e) (state e) v (_idSeq e) (_staticLayer e) (_staticCtx e)
     (_needRebuildStatic e) (_raf e) (_lastFrameTs e) (_pointerEnabled e) (host e).
Definition set_idSeq v e :=
  mk (canvas e) (ctx e) (state e) (_blobs e) v (_staticLayer e) (_staticCtx e)
     (_needRebuildStatic e) (_raf e) (_lastFrameTs e) (_pointerEnabled e) (host e).
Definition set_staticLayer v e :=
  mk (canvas e) (ctx e) (state e) (_blobs e) (_idSeq e) v (_staticCtx e)
     (_needRebuildStatic e) (_raf e) (_lastFrameTs e) (_pointerEnabled e) (host e).
Definition set_needRebuildStatic v e :=
  mk (canvas e) (ctx e) (state e) (_blobs e) (_idSeq e) (_staticLayer e) (_staticCtx e)
     v (_raf e) (_lastFrameTs e) (_pointerEnabled e) (host e).
Definition set_raf v hst e :=
  mk (canvas e) (ctx e) (state e) (_blobs e) (_idSeq e) (_staticLayer e) (_staticCtx e)
     (_needRebuildStatic e) v (_lastFrameTs e) (_pointerEnabled e) hst.
Definition set_host hst e :=
  mk (canvas e) (ctx e) (state e) (_blobs e) (_idSeq e) (_staticLayer e) (_staticCtx e)
     (_needRebuildStatic e) (_raf e) (_lastFrameTs e) (_pointerEnabled e) hst.
Definition set_lastFrameTs v e :=
  mk (canvas e) (ctx e) (state e) (_blobs e) (_idSeq e) (_staticLayer e) (_staticCtx e)
     (_needRebuildStatic e) (_raf e) v (_pointerEnabled e) (host e).
Definition set_pointerEnabled v e :=
  mk (canvas e) (ctx e) (state e) (_blobs e) (_idSeq e) (_staticLayer e) (_staticCtx e)
     (_needRebuildStatic e) (_raf e) (_lastFrameTs e) v (host e).
End Engine.
Abbreviation Engine := Engine.T.

(* ===================================================================== *)
(** ** Engine operations *)
(* ===================================================================== *)

Definition dimsOf (s : State) : Dims :=
  Dims.mk (State.w s) (State.h s) (State.vMax s).

Definition string_of_nat (n : nat) : string :=
  NilEmpty.string_of_uint (Nat.to_uint n).

(** The gradient disc painted for one layer. *)
Definition layerDisc (cx cy r : number) (layer : Layer) : Disc.T :=
  let c := Layer.color layer in
  let ca := Layer.centerAlpha layer ?? Fin 0.6 in
  let ma := Layer.midAlpha layer ?? (ca * Fin 0.44) in
  let ea := Layer.edgeAlpha layer ?? Fin 0.0 in
  Disc.mk cx cy (r * Fin 0.95)
    [ ColorStop.mk (Fin 0.00) c ca;
      ColorStop.mk (Fin 0.38) c ma;
      ColorStop.mk (Fin 0.74) c ea;
      ColorStop.mk (Fin 1.00) c (Fin 0) ]
    r.

Definition _rebuildSprite (s : State) (b : BlobInternal) : BlobInternal :=
  let dims := dimsOf s in
  let dpx := unitToPx (Blob.diameter b) dims AxisVmax in
  let diamPx := Math.max (Fin 32) (Math.round dpx) in
  let pad := Math.ceil (State.blurPx s * State.dpr s) * Fin 2 in
  let size := Math.round (diamPx * State.dpr s) + pad in
  let cx := size / Fin 2 in
  let cy := size / Fin 2 in
  let r := (diamPx * State.dpr s) / Fin 2 in
  let off :=
    Sprite.mk size size (State.blurPx s * State.dpr s)
              (map (layerDisc cx cy r) (Blob.layers b)) in
  Blob.set_sprite (Some off) diamPx b.

Definition is_one (a : number) : bool := a === Fin 1.

(** The local [staticCandidate] of [_classifyBlobStatic]. *)
Definition staticCandidate (b : BlobInternal) : bool :=
  let noParallax :=
    falsy (Blob.parallaxScale b) || (Blob.parallaxScale b === Fin 0) in
  let noBreath :=
    match Blob.breath b with
    | None => true
    | Some br =>
        (match Breath.scale br with
         | None => true
         | Some (s0, s1) => is_one s0 && is_one s1
         end)
        && (match Breath.opacity br with
            | None => true
            | Some (o0, o1) => is_one o0 && is_one o1
            end)
    end in
  let d := Blob.drift b in
  let noDrift :=
    (falsy (RDrift.speed d) || (RDrift.speed d === Fin 0))
    && (falsy (RDrift.ax d) && falsy (RDrift.ay d)
        && falsy (RDrift.sx d) && falsy (RDrift.sy d)) in
  noParallax && noBreath && noDrift
  && (match Blob._ease b with None => true | Some _ => false end).

Definition _classifyBlobStatic (b : BlobInternal) : BlobInternal :=
  Blob.set_static (staticCandidate b) b.

(** [cfg.breath ? { ... } : null] *)
Definition normBreath (br : option (option Breath)) : option Breath :=
  match br with
  | Some (Some b) =>
      Some (Breath.mk (Some (Breath.scale b ?? (Fin 1, Fin 1)))
                      (Some (Breath.opacity b ?? (Fin 1, Fin 1)))
                      (Some (Breath.speed b ?? (Fin 1 / Fin 40)))
                      (Some (Breath.phase b ?? Fin 0)))
  | _ => None
  end.

(** add a blob and return its id *)
Definition addBlob (e : Engine) (cfg : BlobConfig) : string * Engine :=
  let given :=
    match BlobConfig.id cfg with
    | Some s => if String.eqb s "" then None else Some s
    | None => None
    end in
  let idSeq := match given with Some _ => Engine._idSeq e | None => S (Engine._idSeq e) end in
  let id := match given with Some s => s | None => ("b" ++ string_of_nat idSeq)%string end in
  let dr := BlobConfig.drift cfg ?? Drift.empty in
  let blob :=
    Blob.mk id
      (BlobConfig.diameter cfg)
      (BlobConfig.center cfg)
      (BlobConfig.layers cfg ?? [])
      (BlobConfig.opacity cfg ?? Fin 1)
      (BlobConfig.parallaxScale cfg ?? Fin 1)
      (RDrift.mk (Drift.ax dr ?? Fin 2) (Drift.ay dr ?? Fin 1)
                 (Drift.sx dr ?? Fin 1) (Drift.sy dr ?? Fin 1)
                 (Drift.speed dr ?? (Fin 1 / Fin 40)))
      (normBreath (BlobConfig.breath cfg))
      None (Fin 0) None None None false in
  let blob := _classifyBlobStatic (_rebuildSprite (Engine.state e) blob) in
  (id,
   Engine.set_needRebuildStatic true
     (Engine.set_blobs (JSMap.set (Engine._blobs e) id blob)
        (Engine.set_idSeq idSeq e))).

Definition isSome {A : Type} (o : option A) : bool :=
  match o with Some _ => true | None => false end.

(** update properties; layers/diameter/blur changes trigger sprite rebuild
    automatically *)
Definition updateBlob (e : Engine) (id : string) (patch : BlobPatch) : Engine :=
  match JSMap.get (Engine._blobs e) id with
  | None => e
  | Some b =>
      let needSprite :=
        isSome (BlobPatch.diameter patch) || isSome (BlobPatch.layers patch) in
      let affectsStatic :=
        isSome (BlobPatch.center patch) || isSome (BlobPatch.opacity patch)
        || isSome (BlobPatch.parallaxScale patch) || isSome (BlobPatch.drift patch)
        || isSome (BlobPatch.breath patch) in
      let b := match BlobPatch.diameter patch with
               | Some v => Blob.set_diameter v b | None => b end in
      let b := match BlobPatch.layers patch with
               | Some v => Blob.set_layers v b | None => b end in
      let b := match BlobPatch.center patch with
               | Some v => Blob.set_center v b | None => b end in
      let b := match BlobPatch.opacity patch with
               | Some v => Blob.set_opacity v b | None => b end in
      let b := match BlobPatch.parallaxScale patch with
               | Some v => Blob.set_parallaxScale v b | None => b end in
      let b := match BlobPatch.drift patch with
               | Some d =>
                   let old := Blob.drift b in
                   Blob.set_drift
                     (RDrift.mk (Drift.ax d ?? RDrift.ax old) (Drift.ay d ?? RDrift.ay old)
                                (Drift.sx d ?? RDrift.sx old) (Drift.sy d ?? RDrift.sy old)
                                (Drift.speed d ?? RDrift.speed old)) b
               | None => b end in
      let b := match BlobPatch.breath patch with
               | Some br => Blob.set_breath (normBreath (Some br)) b
               | None => b end in
      let b := if needSprite then _rebuildSprite (Engine.state e) b else b in
      let b := if affectsStatic then _classifyBlobStatic b else b in
      let e := Engine.set_blobs (JSMap.set (Engine._blobs e) id b) e in
      if needSprite || affectsStatic then Engine.set_needRebuildStatic true e else e
  end.

Definition removeBlob (e : Engine) (id : string) : Engine :=
  match JSMap.get (Engine._blobs e) id with
  | None => e
  | Some _ =>
      Engine.set_needRebuildStatic true
        (Engine.set_blobs (JSMap.delete (Engine._blobs e) id) e)
  end.

Definition clearBlobs (e : Engine) : Engine :=
  Engine.set_needRebuildStatic true
    (Engine.set_blobs (JSMap.clear (Engine._blobs e)) e).

(** smooth move a blob to a target CSS-pixel center.  The two optional
    arguments default to [800] and ["easeInOutQuad"]. *)
Definition easeTo (e : Engine) (id : string) (toCenter : Center)
    (durationMs : option number) (easing : option string) : Engine :=
  match JSMap.get (Engine._blobs e) id with
  | None => e
  | Some b =>
      let durationMs := durationMs ?? Fin 800 in
      let easing := easing ?? "easeInOutQuad"%string in
      let dims := dimsOf (Engine.state e) in
      let from := resolveCenter (Blob.center b) dims in
      let to := Point.mk (unitToPx (Center.x toCenter) dims AxisX)
                         (unitToPx (Center.y toCenter) dims AxisY) in
      let b := Blob.set_ease
                 (Some (Ease.mk from to (Fin 0) (Math.max (Fin 1) durationMs)
                                (lookup_easing Easings easing ?? easeInOutQuad))) b in
      if Blob._static b
      then Engine.set_needRebuildStatic true
             (Engine.set_blobs (JSMap.set (Engine._blobs e) id (Blob.set_static false b)) e)
      else Engine.set_blobs (JSMap.set (Engine._blobs e) id b) e
  end.

Definition mapValues {V : Type} (f : V -> V) (m : JSMap.T V) : JSMap.T V :=
  map (fun kv => (fst kv, f (snd kv))) m.

(** rebuild all blob sprites (call after blurPx / DPR changes) *)
Definition rebuildAll (e : Engine) : Engine :=
  Engine.set_needRebuildStatic true
    (Engine.set_blobs (mapValues (_rebuildSprite (Engine.state e)) (Engine._blobs e)) e).

Definition setFpsCap (e : Engine) (v : number) : Engine :=
  Engine.set_state
    (State.set_fpsCap (Math.max (Fin 0) (toInt32 v)) (Engine.state e)) e.

Definition setBlurPx (e : Engine) (px : number) : Engine :=
  rebuildAll
    (Engine.set_state (State.set_blurPx (Math.max (Fin 0) px) (Engine.state e)) e).

(** [Number(v)] of a number is the number. *)
Definition setParallax (e : Engine) (v : number) : Engine :=
  Engine.set_state
    (State.set_parallaxVmax (Math.max (Fin 0) (orNum v (Fin 0))) (Engine.state e)) e.

Definition setPointerTracking (e : Engine) (enabled : bool) : Engine :=
  if Bool.eqb enabled (Engine._pointerEnabled e) then e
  else Engine.set_pointerEnabled enabled e.

Definition setAlpha (e : Engine) (a : number) : Engine :=
  Engine.set_state (State.set_alpha (clamp a (Fin 0) (Fin 1)) (Engine.state e)) e.

Definition setComposite (e : Engine) (op : string) : Engine :=
  Engine.set_state (State.set_composite op (Engine.state e)) e.

(* ===================================================================== *)
(** ** Motion model *)
(* ===================================================================== *)

Module BlobState.
Record T : Type := mk { cx : number; cy : number; scaleMul : number; alphaMul : number }.
End BlobState.
Abbreviation BlobState := BlobState.T.

Definition driftX (d : RDrift) (tSec : number) : number :=
  Math.sin (tSec * TAU * RDrift.speed d + Fin 1.3) * orNum (RDrift.ax d) (Fin 0)
  + Math.sin (tSec * TAU * (RDrift.speed d * Fin 0.5) + Fin 0.7) * orNum (RDrift.sx d) (Fin 0).

Definition driftY (d : RDrift) (tSec : number) : number :=
  Math.cos (tSec * TAU * RDrift.speed d + Fin 0.9) * orNum (RDrift.ay d) (Fin 0)
  + Math.cos (tSec * TAU * (RDrift.speed d * Fin 0.6) + Fin 0.4) * orNum (RDrift.sy d) (Fin 0).

Definition _blobStateNow (s : State) (b : BlobInternal) (tSec parallaxPx : number)
  : BlobState :=
  let base := resolveCenter (Blob.center b) (dimsOf s) in
  (* easing *)
  let c :=
    match Blob._ease b with
    | Some ez =>
        let e := Ease.ease ez (Ease.t ez) in
        Point.mk (lerp (Point.x (Ease.from ez)) (Point.x (Ease.to ez)) e)
                 (lerp (Point.y (Ease.from ez)) (Point.y (Ease.to ez)) e)
    | None => base
    end in
  (* parallax + drift *)
  let dx := State.px s * parallaxPx * Blob.parallaxScale b in
  let dy := State.py s * parallaxPx * Blob.parallaxScale b in
  let d := Blob.drift b in
  (* breath (scale/alpha) *)
  let p :=
    match Blob.breath b with
    | Some br =>
        Math.sin (TAU * ((Breath.speed br ?? Fin 0) * tSec + (Breath.phase br ?? Fin 0)))
    | None => Fin 0
    end in
  let scaleMul :=
    match Blob.breath b with
    | Some br =>
        match Breath.scale br with
        | Some (s0, s1) => lerp s0 s1 ((p + Fin 1) / Fin 2)
        | None => Fin 1
        end
    | None => Fin 1
    end in
  let alphaMul :=
    match Blob.breath b with
    | Some br =>
        match Breath.opacity br with
        | Some (o0, o1) => lerp o0 o1 ((p + Fin 1) / Fin 2)
        | None => Fin 1
        end
    | None => Fin 1
    end in
  BlobState.mk (Point.x c + dx + driftX d tSec) (Point.y c + dy + driftY d tSec)
               scaleMul alphaMul.

(** [_blobRect]; [sprite] is the [b._sprite!] its callers have tested. *)
Definition _blobRect (s : State) (b : BlobInternal) (sprite : Sprite)
    (tSec parallaxPx : number) : Rect :=
  let st := _blobStateNow s b tSec parallaxPx in
  let sw := (Sprite.width sprite / State.dpr s) * BlobState.scaleMul st in
  let sh := (Sprite.height sprite / State.dpr s) * BlobState.scaleMul st in
  Rect.mk (BlobState.cx st - sw / Fin 2) (BlobState.cy st - sh / Fin 2) sw sh.

(* ===================================================================== *)
(** ** Rendering *)
(* ===================================================================== *)

Definition buildStaticOne (s : State) (sl : StaticLayer) (b : BlobInternal)
  : StaticLayer :=
  match Blob._sprite b with
  | Some sprite =>
      if negb (Blob._static b) then sl
      else
        let base := resolveCenter (Blob.center b) (dimsOf s) in
        let sw := Sprite.width sprite / State.dpr s in
        let sh := Sprite.height sprite / State.dpr s in
        let x := Point.x base - sw / Fin 2 in
        let y := Point.y base - sh / Fin 2 in
        let sl := StaticLayer.setGlobalAlpha (State.alpha s * Blob.opacity b) sl in
        StaticLayer.drawImage sprite
          (Math.round (x * State.dpr s)) (Math.round (y * State.dpr s))
          (Math.round (sw * State.dpr s)) (Math.round (sh * State.dpr s)) sl
  | None => sl
  end.

Definition _buildStaticLayer (e : Engine) : Engine :=
  if negb (Engine._staticCtx e) then e
  else
    let s := Engine.state e in
    let sl := Engine._staticLayer e in
    let sl := StaticLayer.clearRect (Fin 0) (Fin 0)
                (StaticLayer.width sl) (StaticLayer.height sl) sl in
    let sl := fold_left (buildStaticOne s) (JSMap.values (Engine._blobs e)) sl in
    Engine.set_needRebuildStatic false (Engine.set_staticLayer sl e).

(** The body of the loop of [_drawDynamics] for one blob. *)
Definition drawDynamicOne (s : State) (tSec parallaxPx : number)
    (limitRects : option (list Rect)) (c : Canvas) (b : BlobInternal) : Canvas :=
  match Blob._sprite b with
  | Some sprite =>
      if Blob._static b then c
      else
        let st := _blobStateNow s b tSec parallaxPx in
        let sw := (Sprite.width sprite / State.dpr s) * BlobState.scaleMul st in
        let sh := (Sprite.height sprite / State.dpr s) * BlobState.scaleMul st in
        let x := BlobState.cx st - sw / Fin 2 in
        let y := BlobState.cy st - sh / Fin 2 in
        let rect := Rect.mk x y sw sh in
        let skip :=
          match limitRects with
          | Some rects => negb (existsb (fun r => intersect r rect) rects)
          | None => false
          end in
        if skip then c
        else
          let c := Canvas.setGlobalAlpha
                     (State.alpha s * Blob.opacity b * BlobState.alphaMul st) c in
          Canvas.drawSprite sprite x y sw sh c
  | None => c
  end.

(** [_drawDynamics], on the canvas ([this.ctx!] is there: callers test it). *)
Definition _drawDynamics (e : Engine) (ts : number) (limitRects : option (list Rect))
    (c : Canvas) : Canvas :=
  let s := Engine.state e in
  let tSec := ts / Fin 1000 in
  let parallaxPx := State.parallaxVmax s * (State.vMax s / Fin 100) in
  fold_left (drawDynamicOne s tSec parallaxPx limitRects)
            (JSMap.values (Engine._blobs e)) c.

Definition _fullRedraw (e : Engine) (ts : number) : Engine :=
  let e := if Engine._needRebuildStatic e then _buildStaticLayer e else e in
  if negb (Engine.ctx e) then e
  else
    let s := Engine.state e in
    let c := Engine.canvas e in
    (* draw static base in device pixels *)
    let c := Canvas.save c in
    let c := Canvas.resetTransform c in
    let c := Canvas.clearRect (Fin 0) (Fin 0) (Canvas.width c) (Canvas.height c) c in
    let c := Canvas.drawLayer (Engine._staticLayer e) (Fin 0) (Fin 0) c in
    let c := Canvas.restore c in
    (* dynamic *)
    let c := Canvas.save c in
    let c := Canvas.scale (State.dpr s) (State.dpr s) c in
    let c := Canvas.setComposite (State.composite s) c in
    let c := _drawDynamics e ts None c in
    let c := Canvas.restore c in
    Engine.set_canvas c e.

(** The blit that repairs one dirty rectangle from the static layer. *)
Definition repairRect (s : State) (layer : StaticLayer) (c : Canvas) (r : Rect)
  : Canvas :=
  let sx := Math.max (Fin 0) (Math.floor (Rect.x r * State.dpr s)) in
  let sy := Math.max (Fin 0) (Math.floor (Rect.y r * State.dpr s)) in
  let sw := Math.ceil (Rect.w r * State.dpr s) in
  let sh := Math.ceil (Rect.h r * State.dpr s) in
  Canvas.blitLayer layer sx sy sw sh (Rect.x r) (Rect.y r) (Rect.w r) (Rect.h r) c.

Definition _redrawDirty (e : Engine) (ts : number) (rects : list Rect) : Engine :=
  if negb (Engine.ctx e) then e
  else
    let s := Engine.state e in
    let c := Engine.canvas e in
    (* 1) repair dirty regions from static layer (CSS px space) *)
    let c := Canvas.save c in
    let c := Canvas.scale (State.dpr s) (State.dpr s) c in
    let prevAlpha := CtxState.globalAlpha (Canvas.cur c) in
    let prevComp := CtxState.globalCompositeOperation (Canvas.cur c) in
    let c := Canvas.setGlobalAlpha (Fin 1) c in
    let c := Canvas.setComposite "source-over" c in
    let c := fold_left (repairRect s (Engine._staticLayer e)) rects c in
    let c := Canvas.setGlobalAlpha prevAlpha c in
    let c := Canvas.setComposite prevComp c in
    let c := Canvas.restore c in
    (* 2) draw dynamics only if intersecting any dirty rect *)
    let c := Canvas.save c in
    let c := Canvas.scale (State.dpr s) (State.dpr s) c in
    let c := Canvas.setComposite (State.composite s) c in
    let c := _drawDynamics e ts (Some rects) c in
    let c := Canvas.restore c in
    Engine.set_canvas c e.

(* ===================================================================== *)
(** ** Frame loop *)
(* ===================================================================== *)

(** Advance the easing of a blob using real delta-time; [need] is
    [_needRebuildStatic]. *)
Definition advanceEase (dtMs : number) (b : BlobInternal) (need : bool)
  : BlobInternal * bool :=
  match Blob._ease b with
  | Some ez =>
      let inc := clamp (dtMs / Ease.durMs ez) (Fin 0) (Fin 1) in
      let ez := Ease.set_t (clamp (Ease.t ez + inc) (Fin 0) (Fin 1)) ez in
      if Ease.t ez >=? Fin 1
      then
        let b := _classifyBlobStatic (Blob.set_ease None b) in
        (b, need || Blob._static b)
      else (Blob.set_ease (Some ez) b, need)
  | None => (b, need)
  end.

(** The body of the first loop of [_step] for one blob: the blob after it, the
    rectangles it pushes on [dirty], and [_needRebuildStatic]. *)
Definition damageOne (s : State) (tSec parallaxPx pad dtMs : number)
    (b : BlobInternal) (need : bool) : BlobInternal * list Rect * bool :=
  match Blob._sprite b with
  | Some sprite =>
      if Blob._static b then (b, [], need)
      else
        let '(b, need) := advanceEase dtMs b need in
        let nowRect := _blobRect s b sprite tSec parallaxPx in
        let infNow := inflateRect nowRect pad in
        let dirty :=
          match Blob._lastRect b with
          | Some last => [inflateRect last pad; infNow]
          | None => [infNow]
          end in
        (Blob.set_nextRect (Some nowRect) b, dirty, need)
  | None => (b, [], need)
  end.

Fixpoint damageScan (s : State) (tSec parallaxPx pad dtMs : number)
    (blobs : JSMap.T BlobInternal) (need : bool)
  : JSMap.T BlobInternal * list Rect * bool :=
  match blobs with
  | [] => ([], [], need)
  | (k, b) :: rest =>
      let '(b', d, need) := damageOne s tSec parallaxPx pad dtMs b need in
      let '(rest', ds, need) := damageScan s tSec parallaxPx pad dtMs rest need in
      ((k, b') :: rest', d ++ ds, need)
  end.

(** The last loop of [_step]: remember this frame's rectangles. *)
Definition commitRect (b : BlobInternal) : BlobInternal :=
  match Blob._sprite b with
  | Some _ =>
      if Blob._static b then b
      else Blob.set_nextRect None (Blob.set_lastRect (Blob._nextRect b) b)
  | None => b
  end.

Definition coverOf (merged : list Rect) (totalArea : number) : number :=
  fold_left (fun a r => a + Rect.w r * Rect.h r) merged (Fin 0) / totalArea.

(** The test that sends a frame to the full redraw. *)
Definition tooMuchDamage (s : State) (merged : list Rect) : bool :=
  let totalArea := State.w s * State.h s in
  let cover := coverOf merged totalArea in
  (Fin (INR (length merged)) >? State.maxDirtyRects s)
  || (cover >? State.fullRedrawThreshold s).

Definition padOf (s : State) : number :=
  Math.max (State.damagePaddingPx s) (State.blurPx s * Fin 1.5).

Definition parallaxPxOf (s : State) : number :=
  State.parallaxVmax s * (State.vMax s / Fin 100).

(** smooth pointer *)
Definition smoothPointer (s : State) : State :=
  State.set_pointer (lerp (State.px s) (State.tx s) (Fin 0.1))
                    (lerp (State.py s) (State.ty s) (Fin 0.1)) s.

(** First part of [_step]: pointer smoothing, the static layer when it is
    stale, and the scan of the blobs that collects [dirty]. *)
Definition stepDamage (e : Engine) (ts dtMs : number) : Engine * list Rect :=
  let tSec := ts / Fin 1000 in
  let e := Engine.set_state (smoothPointer (Engine.state e)) e in
  let s := Engine.state e in
  let e := if Engine._needRebuildStatic e then _buildStaticLayer e else e in
  let pad := padOf s in
  let parallaxPx := parallaxPxOf s in
  let '(blobs, dirty, need) :=
    damageScan s tSec parallaxPx pad dtMs
               (Engine._blobs e) (Engine._needRebuildStatic e) in
  (Engine.set_needRebuildStatic need (Engine.set_blobs blobs e), dirty).

Definition _step (e : Engine) (ts dtMs : number) : Engine :=
  if negb (Engine.ctx e) then e
  else
    let '(e, dirty) := stepDamage e ts dtMs in
    match dirty with
    | [] => if Engine._needRebuildStatic e then _fullRedraw e ts else e
    | _ :: _ =>
        let merged := mergeRects dirty (Fin 2) in
        let e :=
          if tooMuchDamage (Engine.state e) merged
          then _fullRedraw e ts
          else _redrawDirty e ts merged in
        Engine.set_blobs (mapValues commitRect (Engine._blobs e)) e
    end.

Definition reschedule (e : Engine) : Engine :=
  let '(handle, hst) := Host.requestAnimationFrame (Engine.host e) in
  Engine.set_raf handle hst e.

Definition _loop (e : Engine) (ts : number) : Engine :=
  if negb (State.running (Engine.state e)) then e
  else
    (* FPS cap *)
    if (State.fpsCap (Engine.state e) >? Fin 0)
       && (ts - Engine._lastFrameTs e <? Fin 1000 / State.fpsCap (Engine.state e))
    then reschedule e
    else
      let dt := Math.max (Fin 0) (ts - Engine._lastFrameTs e) in
      let e := Engine.set_lastFrameTs ts e in
      let e := _step e ts dt in
      reschedule e.

(** [start]; [now] is [performance.now()]. *)
Definition start (e : Engine) (now : number) : Engine :=
  if State.running (Engine.state e) || negb (Engine.ctx e) then e
  else
    let e := Engine.set_state (State.set_running true (Engine.state e)) e in
    let e := Engine.set_lastFrameTs now e in
    reschedule e.

Definition stop (e : Engine) : Engine :=
  let e := Engine.set_state (State.set_running false (Engine.state e)) e in
  Engine.set_host (Host.cancelAnimationFrame (Engine._raf e) (Engine.host e)) e.

(** cleanup all listeners and resources (the listeners are not represented) *)
Definition destroy (e : Engine) : Engine :=
  let e := stop e in
  let e := Engine.set_blobs (JSMap.clear (Engine._blobs e)) e in
  Engine.mk (Engine.canvas e) false (Engine.state e) (Engine._blobs e) (Engine._idSeq e)
            (Engine._staticLayer e) false (Engine._needRebuildStatic e) (Engine._raf e)
            (Engine._lastFrameTs e) (Engine._pointerEnabled e) (Engine.host e).

(* --------------------------------------------------------------------- *)
(** *** Resize, listeners, constructor *)
(* --------------------------------------------------------------------- *)

(** [_resize]; [innerWidth] and [innerHeight] are read from [window], [now] is
    [performance.now()].  The CSS size of the canvas is not represented. *)
Definition _resize (e : Engine) (innerWidth innerHeight now : number) : Engine :=
  let w := innerWidth in
  let h := innerHeight in
  let e := Engine.set_state (State.set_size w h (Math.max w h) (Engine.state e)) e in
  let state := Engine.state e in
  let canvas :=
    Canvas.setSize (Math.round (w * State.dpr state)) (Math.round (h * State.dpr state))
                   (Engine.canvas e) in
  let e := Engine.set_canvas canvas e in
  let e := Engine.set_staticLayer
             (StaticLayer.setSize (Canvas.width canvas) (Canvas.height canvas)
                                  (Engine._staticLayer e)) e in
  let e := Engine.set_blobs
             (mapValues (_rebuildSprite (Engine.state e)) (Engine._blobs e)) e in
  let e := Engine.set_needRebuildStatic true e in
  _fullRedraw e now.

(** The listener [_onPointerMove], called with [e.clientX], [e.clientY]; the
    size of the viewport is read from [window]. *)
Definition _onPointerMove (e : Engine) (clientX clientY innerWidth innerHeight : number)
  : Engine :=
  if negb (Engine._pointerEnabled e) then e
  else
    let vw := orNum innerWidth (Fin 1) in
    let vh := orNum innerHeight (Fin 1) in
    Engine.set_state
      (State.set_target (clientX / vw * Fin 2 - Fin 1) (clientY / vh * Fin 2 - Fin 1)
                        (Engine.state e)) e.

(** The listener [_onVisibility]; [hidden] is [document.hidden], [now] is the
    [performance.now()] that [start] reads. *)
Definition _onVisibility (e : Engine) (hidden : bool) (now : number) : Engine :=
  if hidden then stop e
  else if negb (State.prefersReduce (Engine.state e)) then start e now
  else e.

(** What the constructor reads from the host. *)
Module Window.
Record T : Type := mk {
  innerWidth : number;
  innerHeight : number;
  devicePixelRatio : number;
  isMobile : bool;           (* matchMedia("(max-width: 900px)").matches *)
  prefersReduce : bool;      (* matchMedia("(prefers-reduced-motion: reduce)").matches *)
  host : Host }.
End Window.
Abbreviation Window := Window.T.

(** [new FluidBackground(canvas, opts)] in a browser.  [canvas] is [None] when
    the argument is missing; [ctx] and [staticCtx] say whether the two calls of
    [getContext] returned a context; [now1] and [now2] are the two readings of
    [performance.now()].  The result is the thrown message or the engine. *)
Definition construct (canvas : option Canvas) (ctx staticCtx : bool)
    (opts : FluidOptions) (win : Window) (now1 now2 : number) : string + Engine :=
  match canvas with
  | None => inl "FluidBackground: canvas is required"%string
  | Some canvas =>
      let isMobile := Window.isMobile win in
      let prefersReduce := Window.prefersReduce win in
      let state := initialState opts isMobile prefersReduce (Window.devicePixelRatio win) in
      let pointerEnabled :=
        match FluidOptions.pointerTracking opts with
        | Some false => false
        | _ => true
        end in
      let e := Engine.mk canvas ctx state [] 0 StaticLayer.create staticCtx true 0 (Fin 0)
                         pointerEnabled (Window.host win) in
      let e := _resize e (Window.innerWidth win) (Window.innerHeight win) now1 in
      inr (if FluidOptions.autoStart opts ?? negb prefersReduce
           then start e now2
           else _fullRedraw e now2)   (* paint a still frame *)
  end.

(* --------------------------------------------------------------------- *)
(** *** The untyped sibling ([fluid-bg.js]) where it differs *)
(* --------------------------------------------------------------------- *)

(** In [fluid-bg.js] the easing is advanced inside [_blobStateNow], by a fixed
    [16 / dur] per call, and it is cleared only after the eased centre of the
    call has been computed. *)
Module Untyped.

Definition _blobStateNow (s : State) (b : BlobInternal) (tSec parallaxPx : number)
    (need : bool) : BlobState * BlobInternal * bool :=
  let base := resolveCenter (Blob.center b) (dimsOf s) in
  let '(c, b', need') :=
    match Blob._ease b with
    | Some ez =>
        let ez := Ease.set_t (clamp (Ease.t ez + Fin 16 / Ease.durMs ez) (Fin 0) (Fin 1)) ez in
        let e := Ease.ease ez (Ease.t ez) in
        let c := Point.mk (lerp (Point.x (Ease.from ez)) (Point.x (Ease.to ez)) e)
                          (lerp (Point.y (Ease.from ez)) (Point.y (Ease.to ez)) e) in
        if Ease.t ez >=? Fin 1
        then
          let b1 := _classifyBlobStatic (Blob.set_ease None b) in
          (c, b1, need || Blob._static b1)
        else (c, Blob.set_ease (Some ez) b, need)
    | None => (base, b, need)
    end in
  let dx := State.px s * parallaxPx * Blob.parallaxScale b in
  let dy := State.py s * parallaxPx * Blob.parallaxScale b in
  let d := Blob.drift b in
  let driftX :=
    Math.sin (tSec * TAU * RDrift.speed d + Fin 1.3) * RDrift.ax d
    + Math.sin (tSec * TAU * RDrift.speed d * Fin 0.5 + Fin 0.7) * RDrift.sx d in
  let driftY :=
    Math.cos (tSec * TAU * RDrift.speed d + Fin 0.9) * RDrift.ay d
    + Math.cos (tSec * TAU * RDrift.speed d * Fin 0.6 + Fin 0.4) * RDrift.sy d in
  let p :=
    match Blob.breath b with
    | Some br =>
        Math.sin (TAU * ((Breath.speed br ?? NaN) * tSec + orNum (Breath.phase br ?? NaN) (Fin 0)))
    | None => Fin 0
    end in
  let scaleMul :=
    match Blob.breath b with
    | Some br =>
        match Breath.scale br with
        | Some (s0, s1) => lerp s0 s1 ((p + Fin 1) / Fin 2)
        | None => Fin 1
        end
    | None => Fin 1
    end in
  let alphaMul :=
    match Blob.breath b with
    | Some br =>
        match Breath.opacity br with
        | Some (o0, o1) => lerp o0 o1 ((p + Fin 1) / Fin 2)
        | None => Fin 1
        end
    | None => Fin 1
    end in
  (BlobState.mk (Point.x c + dx + driftX) (Point.y c + dy + driftY) scaleMul alphaMul,
   b', need').

End Untyped.

(* --------------------------------------------------------------------- *)
(** *** The view that creates the engine ([HomeView.vue]) *)
(* --------------------------------------------------------------------- *)

Module HomeView.

(** Value of a hexadecimal digit. *)
Definition hexVal (c : ascii) : option Z :=
  let n := nat_of_ascii c in
  if (48 <=? n)%nat && (n <=? 57)%nat then Some (Z.of_nat (n - 48))
  else if (97 <=? n)%nat && (n <=? 102)%nat then Some (Z.of_nat (n - 87))
  else if (65 <=? n)%nat && (n <=? 70)%nat then Some (Z.of_nat (n - 55))
  else None.

(** Longest run of hexadecimal digits at the head of [l]: its value and how
    many there were. *)
Fixpoint hexRun (acc : Z) (cnt : nat) (l : list ascii) : Z * nat :=
  match l with
  | c :: l' =>
      match hexVal c with
      | Some d => hexRun (16 * acc + d) (S cnt) l'
      | None => (acc, cnt)
      end
  | [] => (acc, cnt)
  end.

(** [parseInt(s, 16)]: leading white space, a sign, an optional [0x] or [0X],
    then the longest run of hexadecimal digits; [NaN] when there is none. *)
Definition parseInt16 (s : string) : number :=
  let l := Str.dropWs (list_ascii_of_string s) in
  let '(negative, l0) := Str.sign l in
  let l1 :=
    match l0 with
    | "0"%char :: c :: t =>
        if Ascii.eqb c "x" || Ascii.eqb c "X" then t else l0
    | _ => l0
    end in
  let '(v, n) := hexRun 0 0 l1 in
  if (n =? 0)%nat then NaN else Fin (IZR (if negative then (- v)%Z else v)).

(** [s.replace('#', '')]: the first ['#'] is removed. *)
Fixpoint removeHash (s : string) : string :=
  match s with
  | EmptyString => EmptyString
  | String c s' => if Ascii.eqb c "#" then s' else String c (removeHash s')
  end.

(** [s.slice(a, b)] for [0 <= a <= b]. *)
Definition slice (a b : nat) (s : string) : string := substring a (b - a) s.

Definition hex2rgb (hex : string) : RGB :=
  let h := removeHash hex in
  (parseInt16 (slice 0 2 h), parseInt16 (slice 2 4 h), parseInt16 (slice 4 6 h)).

End HomeView.

(* ===================================================================== *)
(** ** Vocabulary of the statements *)
(* ===================================================================== *)


(** [contains m a]: the rectangle [a] lies inside [m] (edge by edge). *)
Definition contains (m a : Rect) : bool :=
  (Rect.x m <=? Rect.x a) && (Rect.y m <=? Rect.y a)
  && (Rect.x a + Rect.w a <=? Rect.x m + Rect.w m)
  && (Rect.y a + Rect.h a <=? Rect.y m + Rect.h m).

(** The unit suffixes [unitToPx] recognises. *)
Definition hasUnitSuffix (s : string) : bool :=
  Str.endsWith s "px" || Str.endsWith s "%" || Str.endsWith s "vw"
  || Str.endsWith s "vh" || Str.endsWith s "vmax".

(** The blob after the scan of [_step]; it does not depend on
    [_needRebuildStatic]. *)
Definition scanBlob (s : State) (tSec parallaxPx pad dtMs : number)
    (b : BlobInternal) : BlobInternal :=
  fst (fst (damageOne s tSec parallaxPx pad dtMs b false)).

(** The rectangles one blob adds to [dirty]. *)
Definition blobDamage (s : State) (tSec parallaxPx pad dtMs : number)
    (b : BlobInternal) : list Rect :=
  snd (fst (damageOne s tSec parallaxPx pad dtMs b false)).

(** The state a frame works with: the engine state after pointer smoothing. *)
Definition frameState (e : Engine) : State := smoothPointer (Engine.state e).

(** A dynamic blob after a whole frame: scanned, then its rectangle recorded. *)
Definition frameBlob (s : State) (ts dtMs : number) (b : BlobInternal) : BlobInternal :=
  commitRect (scanBlob s (ts / Fin 1000) (parallaxPxOf s) (padOf s) dtMs b).

(** The blit of [_redrawDirty] for the dirty rectangle [r], issued in drawing
    state [st]. *)
Definition blitOf (s : State) (layer : StaticLayer) (st : CtxState) (r : Rect) : Call :=
  BlitLayer st (StaticLayer.calls layer)
    (Math.max (Fin 0) (Math.floor (Rect.x r * State.dpr s)))
    (Math.max (Fin 0) (Math.floor (Rect.y r * State.dpr s)))
    (Math.ceil (Rect.w r * State.dpr s))
    (Math.ceil (Rect.h r * State.dpr s))
    (Rect.x r) (Rect.y r) (Rect.w r) (Rect.h r).

(** The draw of [sprite] on the rectangle [r], issued in drawing state [st]. *)
Definition spriteCallOf (st : CtxState) (sprite : Sprite) (r : Rect) : Call :=
  DrawSprite st sprite (Rect.x r) (Rect.y r) (Rect.w r) (Rect.h r).

(** [b] is a dynamic blob with sprite [sprite] whose current rectangle meets
    one of the rectangles of [limitRects] (no condition when there is no
    limit). *)
Definition drawnBlob (s : State) (tSec parallaxPx : number)
    (limitRects : option (list Rect)) (b : BlobInternal) (sprite : Sprite) : Prop :=
  Blob._static b = false
  /\ Blob._sprite b = Some sprite
  /\ match limitRects with
     | Some rects =>
         exists r, In r rects /\ intersect r (_blobRect s b sprite tSec parallaxPx) = true
     | None => True
     end.

(** [calls] are sprite draws, of exactly the blobs of [bs] selected by
    [drawnBlob], each at its current rectangle. *)
Definition spriteCalls (s : State) (tSec parallaxPx : number)
    (limitRects : option (list Rect)) (bs : list BlobInternal) (calls : list Call) : Prop :=
  (forall call, In call calls ->
     exists b sprite st,
       In b bs /\ drawnBlob s tSec parallaxPx limitRects b sprite
       /\ call = spriteCallOf st sprite (_blobRect s b sprite tSec parallaxPx))
  /\ (forall b sprite,
        In b bs -> drawnBlob s tSec parallaxPx limitRects b sprite ->
        exists st, In (spriteCallOf st sprite (_blobRect s b sprite tSec parallaxPx)) calls).

(** The flag of a blob agrees with the classifier. *)
Definition classified (b : BlobInternal) : Prop :=
  Blob._static b = staticCandidate b.

Definition allClassified (e : Engine) : Prop :=
  forall k b, In (k, b) (Engine._blobs e) -> classified b.

(** The parameters of [b] are numbers proper (not [NaN]), and its breathing,
    when present, carries both ranges, as [addBlob] and [updateBlob] store it. *)
Definition properBlob (b : BlobInternal) : Prop :=
  Blob.parallaxScale b <> NaN
  /\ RDrift.ax (Blob.drift b) <> NaN /\ RDrift.ay (Blob.drift b) <> NaN
  /\ RDrift.sx (Blob.drift b) <> NaN /\ RDrift.sy (Blob.drift b) <> NaN
  /\ RDrift.speed (Blob.drift b) <> NaN
  /\ forall br, Blob.breath b = Some br ->
       Breath.scale br <> None /\ Breath.opacity br <> None.

(** The condition of the specification for a static blob. *)
Definition staticSpec (b : BlobInternal) : Prop :=
  Blob.parallaxScale b = Fin 0
  /\ (Blob.breath b = None
      \/ exists br, Blob.breath b = Some br
                    /\ Breath.scale br = Some (Fin 1, Fin 1)
                    /\ Breath.opacity br = Some (Fin 1, Fin 1))
  /\ (RDrift.ax (Blob.drift b) = Fin 0 /\ RDrift.ay (Blob.drift b) = Fin 0
      /\ RDrift.sx (Blob.drift b) = Fin 0 /\ RDrift.sy (Blob.drift b) = Fin 0
      /\ RDrift.speed (Blob.drift b) = Fin 0)
  /\ Blob._ease b = None.

(** The y drift as the specification words it: the cosine analogue of the x
    formula with the same two frequencies, [speed] and [speed * 0.5], and two
    fixed phases of its own. *)
Definition driftY_claimed (phase1 phase2 : R) (d : RDrift) (tSec : number) : number :=
  Math.cos (Fin 2 * Math.PI * RDrift.speed d * tSec + Fin phase1) * RDrift.ay d
  + Math.cos (Fin 2 * Math.PI * (RDrift.speed d * Fin 0.5) * tSec + Fin phase2)
    * RDrift.sy d.

(** The centre the motion model gives blob [id] at time [ts]. *)
Definition centreOf (e : Engine) (id : string) (ts : number) : option Point :=
  match JSMap.get (Engine._blobs e) id with
  | Some b =>
      let st := _blobStateNow (Engine.state e) b (ts / Fin 1000)
                              (parallaxPxOf (Engine.state e)) in
      Some (Point.mk (BlobState.cx st) (BlobState.cy st))
  | None => None
  end.

(** [a] is a finite number between [lo] and [hi]. *)
Definition within (lo hi : R) (a : number) : Prop :=
  exists r, a = Fin r /\ (lo <= r <= hi)%R.



(** The identifiers of the registry, in insertion order. *)
Definition keysOf (e : Engine) : list string := JSMap.keys (Engine._blobs e).

(** No blob of the registry is dynamic with a sprite. *)
Definition allStill (e : Engine) : Prop :=
  forall k b, In (k, b) (Engine._blobs e) ->
    Blob._static b = true \/ Blob._sprite b = None.

(** What a redraw must leave as it found it on the visible canvas: its size,
    the current drawing state and the stack of saved states. *)
Definition surfaceOf (c : Canvas) : number * number * CtxState * list CtxState :=
  (Canvas.width c, Canvas.height c, Canvas.cur c, Canvas.saved c).

(** The draw of the static blob [b] with sprite [sprite] on the static layer,
    issued with global alpha [alpha]. *)
Definition staticCallOf (s : State) (alpha : number) (b : BlobInternal) (sprite : Sprite)
  : LayerCall :=
  let base := resolveCenter (Blob.center b) (dimsOf s) in
  let sw := Sprite.width sprite / State.dpr s in
  let sh := Sprite.height sprite / State.dpr s in
  LDrawImage alpha sprite
    (Math.round ((Point.x base - sw / Fin 2) * State.dpr s))
    (Math.round ((Point.y base - sh / Fin 2) * State.dpr s))
    (Math.round (sw * State.dpr s)) (Math.round (sh * State.dpr s)).

(** [b] is static and has the sprite [sprite]. *)
Definition staticSprite (b : BlobInternal) (sprite : Sprite) : Prop :=
  Blob._static b = true /\ Blob._sprite b = Some sprite.






(** The string made of six characters. *)
Definition hex6 (c1 c2 c3 c4 c5 c6 : ascii) : string :=
  String c1 (String c2 (String c3 (String c4 (String c5 (String c6 EmptyString))))).

(** *** Sample engines used to instantiate the statements *)

Module Sample.

Definition ctxState0 : CtxState :=
  CtxState.mk (Fin 1) "source-over" (Fin 1) (Fin 1).

Definition canvas0 : Canvas :=
  Canvas.mk (Fin 1000) (Fin 500) ctxState0 [] [].

Definition layer0 : StaticLayer :=
  StaticLayer.mk (Fin 1000) (Fin 500) (Fin 1) [].

(** A 1000 x 500 surface at pixel density 1, default tuning, no blur. *)
Definition state0 : State :=
  State.mk (Fin 1000) (Fin 500) (Fin 1000) (Fin 1)
           (Fin 0.5) (Fin 0) "source-over" (Fin 0.9) (Fin 0)
           (Fin 0) (Fin 0) (Fin 0) (Fin 0)
           false false
           (Fin 12) (Fin 0.55) (Fin 16).

(** An engine with no blob yet. *)
Definition engine0 : Engine :=
  Engine.mk canvas0 true state0 [] 0 layer0 true true 0 (Fin 0) true (Host.mk 1 []).

Definition origin : Center := Center.mk (VNum (Fin 0)) (VNum (Fin 0)).

(** A configuration that gives only the required fields. *)
Definition minimalCfg : BlobConfig :=
  BlobConfig.mk None (VNum (Fin 100)) (CenterAt origin) None None None None None.

Definition namedCfg (id : string) : BlobConfig :=
  BlobConfig.mk (Some id) (VNum (Fin 100)) (CenterAt origin) None None None None None.

(** The square of side [w] with its corner at [(x, y)]. *)
Definition square (x y w : R) : Rect := Rect.mk (Fin x) (Fin y) (Fin w) (Fin w).

Definition sprite32 : Sprite := Sprite.mk (Fin 32) (Fin 32) (Fin 0) [].

(** A blob that follows the pointer (parallax scale 1) and does not drift. *)
Definition follower : BlobInternal :=
  Blob.mk "d" (VNum (Fin 10))
    (CenterAt (Center.mk (VNum (Fin 500)) (VNum (Fin 250))))
    [] (Fin 1) (Fin 1) (RDrift.mk (Fin 0) (Fin 0) (Fin 0) (Fin 0) (Fin 0)) None
    (Some sprite32) (Fin 32) None None None false.

(** The engine with that one blob. *)
Definition engine1 : Engine :=
  Engine.mk canvas0 true state0 [("d"%string, follower)] 0 layer0 true true 0
            (Fin 0) true (Host.mk 1 []).

(** A blob at rest at (500, 250): no parallax, no drift, no breathing. *)
Definition zeroDrift : RDrift := RDrift.mk (Fin 0) (Fin 0) (Fin 0) (Fin 0) (Fin 0).
Definition home : CenterSpec := CenterAt (Center.mk (VNum (Fin 500)) (VNum (Fin 250))).
Definition still : BlobInternal :=
  Blob.mk "s" (VNum (Fin 10)) home [] (Fin 1) (Fin 0) zeroDrift None
    (Some sprite32) (Fin 32) None None None true.
(** [state0] of a running engine. *)
Definition stateR : State := State.set_running true state0.
Definition engine2 : Engine :=
  Engine.mk canvas0 true stateR [("s"%string, still)] 0 layer0 true true 0 (Fin 0) true (Host.mk 1 []).
Definition target : Center := Center.mk (VStr "10%") (VStr "10%").


(** A viewport of 1000 x 500 at pixel density 1, desktop, motion allowed. *)
Definition window0 : Window :=
  Window.mk (Fin 1000) (Fin 500) (Fin 1) false false (Host.mk 1 []).

End Sample.

(** The sample blob while its transition to (100, 50) is at fraction [t]. *)
Definition easingBlob (t : R) (b : BlobInternal) : Prop :=
  exists lr nr,
    b = Blob.mk "s" (VNum (Fin 10)) Sample.home [] (Fin 1) (Fin 0) Sample.zeroDrift None
             (Some Sample.sprite32) (Fin 32)
             (Some (Ease.mk (Point.mk (Fin 500) (Fin 250)) (Point.mk (Fin 100) (Fin 50))
                            (Fin t) (Fin 500) easeInOutQuad))
             lr nr false.

(* ===================================================================== *)
(** * Properties *)
(* ===================================================================== *)

(** ** Numbers *)

Section NumberFacts.

Open Scope R_scope.

Lemma Rltb_spec (x y : R) : reflect (x < y) (Rltb x y).
Proof. unfold Rltb. destruct (Rlt_dec x y); constructor; assumption. Qed.

Lemma Rleb_spec (x y : R) : reflect (x <= y) (Rleb x y).
Proof. unfold Rleb. destruct (Rle_dec x y); constructor; assumption. Qed.

Lemma Reqb_spec (x y : R) : reflect (x = y) (Reqb x y).
Proof. unfold Reqb. destruct (Req_dec_T x y); constructor; assumption. Qed.

Lemma Rltb_true x y : x < y -> Rltb x y = true.
Proof. intros H. destruct (Rltb_spec x y); [reflexivity | contradiction]. Qed.

Lemma Rltb_false x y : y <= x -> Rltb x y = false.
Proof. intros H. destruct (Rltb_spec x y); [lra | reflexivity]. Qed.

Lemma Rleb_true x y : x <= y -> Rleb x y = true.
Proof. intros H. destruct (Rleb_spec x y); [reflexivity | contradiction]. Qed.

Lemma Rleb_false x y : y < x -> Rleb x y = false.
Proof. intros H. destruct (Rleb_spec x y); [lra | reflexivity]. Qed.

Lemma Reqb_true x y : x = y -> Reqb x y = true.
Proof. intros H. destruct (Reqb_spec x y); [reflexivity | contradiction]. Qed.

Lemma Reqb_false x y : x <> y -> Reqb x y = false.
Proof. intros H. destruct (Reqb_spec x y); [contradiction | reflexivity]. Qed.

Lemma min_fin (a b : R) : Math.min (Fin a) (Fin b) = Fin (Rmin a b).
Proof.
  unfold Math.min, Rmin. simpl.
  destruct (Rltb_spec b a), (Rle_dec a b); try reflexivity; f_equal; lra.
Qed.

Lemma max_fin (a b : R) : Math.max (Fin a) (Fin b) = Fin (Rmax a b).
Proof.
  unfold Math.max, Rmax. simpl.
  destruct (Rltb_spec a b), (Rle_dec a b); try reflexivity; f_equal; lra.
Qed.

Lemma div_fin (a b : R) : b <> 0 -> (Fin a / Fin b)%js = Fin (a / b).
Proof. intros H. simpl. now rewrite (Reqb_false H). Qed.

(** The special values behave as in the language. *)
Lemma special_values :
  (PInf - PInf)%js = NaN /\ (NInf - NInf)%js = NaN /\ (PInf + NInf)%js = NaN
  /\ (Fin 1 - NInf)%js = PInf /\ (NInf - Fin 1)%js = NInf
  /\ (PInf * Fin 0)%js = NaN /\ (NInf * Fin (-2))%js = PInf
  /\ (Fin 1 / Fin 0)%js = PInf /\ (Fin (-1) / Fin 0)%js = NInf
  /\ (Fin 0 / Fin 0)%js = NaN /\ (Fin 1 / PInf)%js = Fin 0
  /\ (NaN <? Fin 1)%js = false /\ (Fin 1 <? NaN)%js = false
  /\ (NInf <? PInf)%js = true /\ (PInf <=? PInf)%js = true
  /\ (NaN === NaN)%js = false
  /\ Math.max (Fin 1) NaN = NaN /\ Math.min NInf (Fin 3) = NInf
  /\ truthy NaN = false /\ truthy (Fin 0) = false /\ truthy PInf = true.
Proof.
  cbn [sub add mul div lt le strictEq Math.max Math.min truthy mul_inf].
  rewrite (@Reqb_true 0 0) by reflexivity.
  rewrite (@Reqb_false (-2) 0), (@Reqb_false 1 0), (@Reqb_false (-1) 0) by lra.
  rewrite (@Rltb_true 0 1), (@Rltb_false 0 (-2)), (@Rltb_false 0 (-1)) by lra.
  repeat split.
Qed.


End NumberFacts.

(** Decide the comparisons of real constants left in a goal. *)
Ltac decide_reals :=
  repeat match goal with
  | |- context [Rltb ?a ?b] =>
      first [ rewrite (@Rltb_true a b) by lra | rewrite (@Rltb_false a b) by lra ]
  | |- context [Rleb ?a ?b] =>
      first [ rewrite (@Rleb_true a b) by lra | rewrite (@Rleb_false a b) by lra ]
  | |- context [Reqb ?a ?b] =>
      first [ rewrite (@Reqb_true a b) by lra | rewrite (@Reqb_false a b) by lra ]
  end.

(** ** Rectangles *)

Section RectFacts.


Lemma contains_fin (mx my mw mh ax ay aw ah : R) :
  contains (Rect.mk (Fin mx) (Fin my) (Fin mw) (Fin mh))
           (Rect.mk (Fin ax) (Fin ay) (Fin aw) (Fin ah)) = true
  <-> (mx <= ax /\ my <= ay /\ ax + aw <= mx + mw /\ ay + ah <= my + mh)%R.
Proof.
  unfold contains. simpl.
  destruct (Rleb_spec mx ax), (Rleb_spec my ay),
           (Rleb_spec (ax + aw) (mx + mw)), (Rleb_spec (ay + ah) (my + mh));
    simpl; split; intros H; try discriminate; try reflexivity;
    try (repeat split; assumption); destruct H as (? & ? & ? & ?); contradiction.
Qed.



Lemma inflateRect_fin (x y w h p : R) :
  inflateRect (Rect.mk (Fin x) (Fin y) (Fin w) (Fin h)) (Fin p)
  = Rect.mk (Fin (x - p)) (Fin (y - p)) (Fin (w + p * 2)) (Fin (h + p * 2)).
Proof. reflexivity. Qed.







End RectFacts.

(** ** The merge of dirty rectangles *)

Section MergeFacts.





Lemma pop_None work : pop work = None -> work = [].
Proof.
  unfold pop. intros H. destruct (List.rev work) eqn:E; [|discriminate].
  rewrite <- (rev_involutive work), E. reflexivity.
Qed.




End MergeFacts.

(** Run the merge on rectangles with concrete coordinates. *)
Ltac merge_eval :=
  repeat progress
    (simp mergeLoop absorb;
     cbn -[Rplus Rmult Rminus Rdiv IZR Rlt_dec Rle_dec Req_dec_T Rinv Ropp Rmin Rmax
           mergeLoop absorb];
     unfold intersect, union;
     cbn -[Rplus Rmult Rminus Rdiv IZR Rlt_dec Rle_dec Req_dec_T Rinv Ropp Rmin Rmax
           mergeLoop absorb Math.min Math.max];
     rewrite ?min_fin, ?max_fin;
     decide_reals).

(** Two overlapping squares merge into their bounding box. *)
Lemma merge_overlapping :
  exists x y w h,
    mergeRects [Sample.square 0 0 10; Sample.square 5 5 10] (Fin 2)
    = [Rect.mk (Fin x) (Fin y) (Fin w) (Fin h)]
    /\ (x = 0 /\ y = 0 /\ w = 15 /\ h = 15)%R.
Proof.
  unfold mergeRects. cbn [length Nat.leb map]. unfold Sample.square.
  rewrite !inflateRect_fin. merge_eval.
  do 4 eexists. split; [reflexivity|].
  unfold Rmin, Rmax. repeat destruct (Rle_dec _ _); lra.
Qed.

(** Two squares far apart stay two rectangles (the last one comes first). *)
Lemma merge_far_apart :
  exists a b,
    mergeRects [Sample.square 0 0 10; Sample.square 100 100 10] (Fin 2) = [a; b]
    /\ contains a (Sample.square 100 100 10) = true
    /\ contains b (Sample.square 0 0 10) = true.
Proof.
  unfold mergeRects. cbn [length Nat.leb map]. unfold Sample.square.
  rewrite !inflateRect_fin. merge_eval.
  do 2 eexists. split; [reflexivity|].
  split; apply contains_fin; lra.
Qed.

(** ** The blob registry *)

Section MapFacts.

Variable V : Type.
Implicit Types (m : JSMap.T V) (k : string) (v : V).

Lemma get_None_iff m k : JSMap.get m k = None <-> ~ In k (JSMap.keys m).
Proof.
  induction m as [|[k' v'] m IH]; simpl.
  - intuition.
  - destruct (String.eqb_spec k' k) as [->|Hne].
    + split; [discriminate | intros H; exfalso; apply H; now left].
    + rewrite IH. intuition.
Qed.

Lemma get_Some_In m k v : JSMap.get m k = Some v -> In (k, v) m.
Proof.
  induction m as [|[k' v'] m IH]; simpl; [discriminate|].
  destruct (String.eqb_spec k' k) as [->|Hne].
  - intros H. inversion H; subst. now left.
  - intros H. right. auto.
Qed.

Lemma get_set_same m k v : JSMap.get (JSMap.set m k v) k = Some v.
Proof.
  induction m as [|[k' v'] m IH]; simpl.
  - now rewrite String.eqb_refl.
  - destruct (String.eqb_spec k' k) as [->|Hne]; simpl.
    + now rewrite String.eqb_refl.
    + destruct (String.eqb_spec k' k); [contradiction | assumption].
Qed.

Lemma keys_set_present m k v :
  In k (JSMap.keys m) -> JSMap.keys (JSMap.set m k v) = JSMap.keys m.
Proof.
  induction m as [|[k' v'] m IH]; simpl; [contradiction|].
  destruct (String.eqb_spec k' k) as [->|Hne]; simpl.
  - reflexivity.
  - intros [H|H]; [contradiction|]. f_equal. auto.
Qed.

Lemma keys_set_absent m k v :
  ~ In k (JSMap.keys m) -> JSMap.keys (JSMap.set m k v) = JSMap.keys m ++ [k].
Proof.
  induction m as [|[k' v'] m IH]; simpl; [reflexivity|].
  destruct (String.eqb_spec k' k) as [->|Hne]; simpl.
  - intros H. exfalso. apply H. now left.
  - intros H. f_equal. apply IH. intuition.
Qed.

Lemma keys_set_NoDup m k v :
  NoDup (JSMap.keys m) -> NoDup (JSMap.keys (JSMap.set m k v)).
Proof.
  intros Hnd. destruct (in_dec string_dec k (JSMap.keys m)) as [Hin|Hout].
  - now rewrite keys_set_present.
  - rewrite keys_set_absent by assumption.
    apply NoDup_app; [assumption | repeat constructor; intros [] | ].
    intros x Hx [<-|[]]. contradiction.
Qed.

Lemma size_keys m : JSMap.size m = length (JSMap.keys m).
Proof. unfold JSMap.size, JSMap.keys. now rewrite length_map. Qed.

(** What [set] leaves in the map: the old entries, or the new one. *)
Lemma In_set m k v k0 v0 :
  In (k0, v0) (JSMap.set m k v) -> In (k0, v0) m \/ (k0 = k /\ v0 = v).
Proof.
  induction m as [|[k' v'] m IH]; simpl.
  - intros [H|[]]. inversion H; subst. now right.
  - destruct (String.eqb_spec k' k) as [->|Hne]; simpl.
    + intros [H|H]; [inversion H; subst; now right | left; now right].
    + intros [H|H]; [left; now left|].
      destruct (IH H) as [H'|H']; [left; now right | now right].
Qed.

Lemma In_delete m k k0 v0 :
  In (k0, v0) (JSMap.delete m k) -> In (k0, v0) m.
Proof.
  induction m as [|[k' v'] m IH]; simpl; [auto|].
  destruct (String.eqb_spec k' k) as [->|Hne]; simpl.
  - intros H. now right.
  - intros [H|H]; [now left | right; auto].
Qed.

End MapFacts.

(** ** Operations on the registry *)

(** C8.  For an identifier that is not in the blob registry, [updateBlob],
    [removeBlob] and [easeTo] return the engine as it was: registry, surface
    state, static-layer-dirty flag and everything else are unchanged.  (The
    operations are total functions: there is no failing path.) *)
Theorem unknown_id_is_noop (e : Engine) (id : string) :
  ~ In id (JSMap.keys (Engine._blobs e)) ->
  (forall patch, updateBlob e id patch = e)
  /\ removeBlob e id = e
  /\ (forall toCenter durationMs easing, easeTo e id toCenter durationMs easing = e).
Proof.
  intros H. apply get_None_iff in H.
  unfold updateBlob, removeBlob, easeTo. rewrite H. auto.
Qed.

Lemma unknown_id_is_noop_witness :
  ~ In "ghost"%string (JSMap.keys (Engine._blobs Sample.engine0))
  /\ removeBlob Sample.engine0 "ghost" = Sample.engine0.
Proof.
  assert (H : ~ In "ghost"%string (JSMap.keys (Engine._blobs Sample.engine0)))
    by (simpl; tauto).
  split; [exact H | exact (proj1 (proj2 (unknown_id_is_noop Sample.engine0 "ghost" H)))].
Defined.

Lemma string_of_nat_1 : string_of_nat 1 = "1"%string.
Proof. reflexivity. Qed.

(** C10.  [addBlob] with the id of a registered blob replaces that blob in
    place: it returns the id, and the registry keeps the same keys in the same
    order, hence the same size; keys stay pairwise distinct under any
    [addBlob]; and when the configuration has no id (or an empty one) the id
    is ["b"] followed by the incremented counter, which grows by one. *)
Theorem addBlob_ids (e : Engine) (cfg : BlobConfig) :
  (NoDup (JSMap.keys (Engine._blobs e)) ->
   NoDup (JSMap.keys (Engine._blobs (snd (addBlob e cfg)))))
  /\ (forall id, BlobConfig.id cfg = Some id -> id <> ""%string ->
        In id (JSMap.keys (Engine._blobs e)) ->
        fst (addBlob e cfg) = id
        /\ JSMap.keys (Engine._blobs (snd (addBlob e cfg))) = JSMap.keys (Engine._blobs e)
        /\ JSMap.size (Engine._blobs (snd (addBlob e cfg))) = JSMap.size (Engine._blobs e)
        /\ (exists b, JSMap.get (Engine._blobs (snd (addBlob e cfg))) id = Some b
                      /\ Blob.diameter b = BlobConfig.diameter cfg
                      /\ Blob.center b = BlobConfig.center cfg)
        /\ Engine._idSeq (snd (addBlob e cfg)) = Engine._idSeq e)
  /\ (BlobConfig.id cfg = None \/ BlobConfig.id cfg = Some ""%string ->
        fst (addBlob e cfg) = ("b" ++ string_of_nat (S (Engine._idSeq e)))%string
        /\ Engine._idSeq (snd (addBlob e cfg)) = S (Engine._idSeq e)
        /\ (Engine._idSeq e < Engine._idSeq (snd (addBlob e cfg)))%nat).
Proof.
  split; [|split].
  - intros Hnd. unfold addBlob. simpl. now apply keys_set_NoDup.
  - intros id Hid Hne Hin. unfold addBlob. rewrite Hid.
    destruct (String.eqb_spec id "") as [->|_]; [contradiction|]. simpl.
    split; [reflexivity|]. split; [now apply keys_set_present|].
    split; [rewrite !size_keys; f_equal; now apply keys_set_present|].
    split; [|reflexivity].
    eexists. split; [apply get_set_same|]. split; reflexivity.
  - intros [Hid|Hid]; unfold addBlob; rewrite Hid; simpl; repeat split; lia.
Qed.

Lemma addBlob_ids_witness :
  let e1 := snd (addBlob Sample.engine0 (Sample.namedCfg "hero")) in
  fst (addBlob e1 (Sample.namedCfg "hero")) = "hero"%string
  /\ JSMap.size (Engine._blobs (snd (addBlob e1 (Sample.namedCfg "hero")))) = 1%nat
  /\ fst (addBlob e1 Sample.minimalCfg) = "b1"%string.
Proof.
  intros e1.
  assert (Hin : In "hero"%string (JSMap.keys (Engine._blobs e1))) by (simpl; auto).
  assert (Hne : "hero"%string <> ""%string) by discriminate.
  destruct (addBlob_ids e1 (Sample.namedCfg "hero")) as (_ & Hrep & _).
  destruct (Hrep "hero"%string eq_refl Hne Hin) as (Hid & _ & Hsize & _).
  destruct (addBlob_ids e1 Sample.minimalCfg) as (_ & _ & Hgen).
  destruct (Hgen (or_introl eq_refl)) as (Hb1 & _).
  split; [exact Hid|]. split; [rewrite Hsize; reflexivity | exact Hb1].
Defined.

(** C6 as stated fails: a blob created from a configuration without [drift]
    has horizontal drift amplitude 2, not 0. *)
Lemma addBlob_default_drift_counterexample :
  exists b,
    JSMap.get (Engine._blobs (snd (addBlob Sample.engine0 Sample.minimalCfg)))
              (fst (addBlob Sample.engine0 Sample.minimalCfg)) = Some b
    /\ RDrift.ax (Blob.drift b) = Fin 2
    /\ RDrift.ax (Blob.drift b) <> Fin 0.
Proof.
  eexists. split; [apply get_set_same|]. split; [reflexivity|].
  simpl. intros H. inversion H. lra.
Qed.

(** C6, amended.  The blob that [addBlob] registers under the returned id
    takes, for each optional parameter the configuration omits: opacity 1,
    parallax scale 1, drift amplitudes [ax = 2], [ay = 1], [sx = 1], [sy = 1]
    and drift speed 1/40, and no breathing (also when [breath] is [null]). *)
Theorem addBlob_defaults (e : Engine) (cfg : BlobConfig) :
  exists b,
    JSMap.get (Engine._blobs (snd (addBlob e cfg))) (fst (addBlob e cfg)) = Some b
    /\ (BlobConfig.opacity cfg = None -> Blob.opacity b = Fin 1)
    /\ (BlobConfig.parallaxScale cfg = None -> Blob.parallaxScale b = Fin 1)
    /\ (BlobConfig.drift cfg = None ->
          Blob.drift b = RDrift.mk (Fin 2) (Fin 1) (Fin 1) (Fin 1) (Fin (1 / 40)))
    /\ (forall d, BlobConfig.drift cfg = Some d ->
          (Drift.ax d = None -> RDrift.ax (Blob.drift b) = Fin 2)
          /\ (Drift.ay d = None -> RDrift.ay (Blob.drift b) = Fin 1)
          /\ (Drift.sx d = None -> RDrift.sx (Blob.drift b) = Fin 1)
          /\ (Drift.sy d = None -> RDrift.sy (Blob.drift b) = Fin 1)
          /\ (Drift.speed d = None -> RDrift.speed (Blob.drift b) = Fin (1 / 40)))
    /\ (BlobConfig.breath cfg = None \/ BlobConfig.breath cfg = Some None ->
          Blob.breath b = None).
Proof.
  assert (H40 : (Fin 1 / Fin 40)%js = Fin (1 / 40)) by (apply div_fin; lra).
  eexists. split; [apply get_set_same|].
  cbn [_classifyBlobStatic _rebuildSprite Blob.set_static Blob.set_sprite
       Blob.opacity Blob.parallaxScale Blob.drift Blob.breath].
  split; [intros ->; reflexivity|].
  split; [intros ->; reflexivity|].
  split; [intros ->; cbn [orElse Drift.empty Drift.ax Drift.ay Drift.sx Drift.sy Drift.speed];
          now rewrite H40|].
  split.
  - intros d ->. cbn [orElse RDrift.ax RDrift.ay RDrift.sx RDrift.sy RDrift.speed].
    repeat split; intros ->; cbn [orElse]; auto.
  - intros [->| ->]; reflexivity.
Qed.

Lemma addBlob_defaults_witness :
  exists b,
    JSMap.get (Engine._blobs (snd (addBlob Sample.engine0 Sample.minimalCfg))) "b1" = Some b
    /\ Blob.opacity b = Fin 1 /\ Blob.breath b = None.
Proof.
  destruct (addBlob_defaults Sample.engine0 Sample.minimalCfg)
    as (b & Hget & Hop & _ & _ & _ & Hbr).
  exists b. split; [exact Hget|].
  split; [exact (Hop eq_refl) | exact (Hbr (or_introl eq_refl))].
Defined.

(** ** Unit resolver *)

Lemma mul_NaN_r (a : number) : (a * NaN)%js = NaN.
Proof. destruct a; reflexivity. Qed.

(** A number resolves to itself; ["50%"] is half the width on the x axis and
    half the height on the y axis. *)
Lemma unitToPx_examples :
  (forall n dims axis, unitToPx (VNum n) dims axis = n)
  /\ unitToPx (VStr "50%") (Dims.mk (Fin 200) (Fin 100) (Fin 200)) AxisX = Fin 100
  /\ unitToPx (VStr "50%") (Dims.mk (Fin 200) (Fin 100) (Fin 200)) AxisY = Fin 50
  /\ unitToPx (VStr " 12.5px ") (Dims.mk (Fin 200) (Fin 100) (Fin 200)) AxisX = Fin 12.5.
Proof.
  split; [reflexivity|]. unfold unitToPx.
  change (Str.trim "50%") with "50%"%string.
  change (Str.trim " 12.5px ") with "12.5px"%string.
  change (Str.endsWith "50%" "px") with false.
  change (Str.endsWith "50%" "%") with true.
  change (Str.endsWith "12.5px" "px") with true.
  unfold Str.parseFloat.
  change (Str.readLiteral "50%") with (Some (Str.LitDecimal false 50 0)).
  change (Str.readLiteral "12.5px") with (Some (Str.LitDecimal false 125 (-1))).
  cbn [Str.scale10 Dims.w Dims.h]. rewrite div_fin by lra. cbn [mul].
  repeat split; f_equal; simpl; lra.
Qed.

(** C7 on the code.  When no number can be read from the (trimmed) string, the
    resolver returns 0 only if the string carries no recognised unit suffix;
    with a suffix ([px], [%], [vw], [vh], [vmax]) it returns [NaN], whatever
    the dimensions and the axis.  The guard [Number.isNaN(n) ? 0 : n] is on the
    last branch only. *)
Theorem unitToPx_unparsable (v : string) (dims : Dims) (axis : Axis) :
  Str.parseFloat (Str.trim v) = NaN ->
  unitToPx (VStr v) dims axis
  = if hasUnitSuffix (Str.trim v) then NaN else Fin 0.
Proof.
  intros H. unfold unitToPx, hasUnitSuffix. rewrite H.
  destruct (Str.endsWith (Str.trim v) "px"); [reflexivity|].
  destruct (Str.endsWith (Str.trim v) "%"); [simpl; apply mul_NaN_r|].
  destruct (Str.endsWith (Str.trim v) "vw"); [simpl; apply mul_NaN_r|].
  destruct (Str.endsWith (Str.trim v) "vh"); [simpl; apply mul_NaN_r|].
  destruct (Str.endsWith (Str.trim v) "vmax"); [simpl; apply mul_NaN_r|].
  reflexivity.
Qed.

Lemma unitToPx_unparsable_witness :
  unitToPx (VStr "garbage") (Dims.mk (Fin 200) (Fin 100) (Fin 200)) AxisX = Fin 0
  /\ unitToPx (VStr "garbagepx") (Dims.mk (Fin 200) (Fin 100) (Fin 200)) AxisX = NaN
  /\ unitToPx (VStr "garbage%") (Dims.mk (Fin 200) (Fin 100) (Fin 200)) AxisY = NaN.
Proof.
  split; [|split].
  - exact (unitToPx_unparsable "garbage" (Dims.mk (Fin 200) (Fin 100) (Fin 200)) AxisX eq_refl).
  - exact (unitToPx_unparsable "garbagepx" (Dims.mk (Fin 200) (Fin 100) (Fin 200)) AxisX eq_refl).
  - exact (unitToPx_unparsable "garbage%" (Dims.mk (Fin 200) (Fin 100) (Fin 200)) AxisY eq_refl).
Defined.

(** ** Frame-rate cap *)

Lemma reschedule_keeps (e : Engine) :
  Engine.canvas (reschedule e) = Engine.canvas e
  /\ Engine.ctx (reschedule e) = Engine.ctx e
  /\ Engine.state (reschedule e) = Engine.state e
  /\ Engine._blobs (reschedule e) = Engine._blobs e
  /\ Engine._idSeq (reschedule e) = Engine._idSeq e
  /\ Engine._staticLayer (reschedule e) = Engine._staticLayer e
  /\ Engine._staticCtx (reschedule e) = Engine._staticCtx e
  /\ Engine._needRebuildStatic (reschedule e) = Engine._needRebuildStatic e
  /\ Engine._lastFrameTs (reschedule e) = Engine._lastFrameTs e
  /\ Engine._pointerEnabled (reschedule e) = Engine._pointerEnabled e.
Proof. repeat split. Qed.

(** [setFpsCap] with a whole number of frames per second (below 2^31) stores
    it as the cap. *)
Lemma setFpsCap_whole (e : Engine) (z : Z) :
  (0 <= z < 2 ^ 31)%Z ->
  State.fpsCap (Engine.state (setFpsCap e (Fin (IZR z)))) = Fin (IZR z).
Proof.
  intros Hz. unfold setFpsCap, toInt32.
  cbn [Engine.state Engine.set_state State.fpsCap State.set_fpsCap].
  assert (H0 : (0 <= IZR z)%R) by (apply IZR_le; lia).
  destruct (Rle_dec 0 (IZR z)) as [_|Hn]; [|contradiction].
  rewrite ZfloorZ.
  replace ((z + 2 ^ 31) mod 2 ^ 32 - 2 ^ 31)%Z with z
    by (rewrite Z.mod_small; lia).
  rewrite max_fin. now rewrite Rmax_right.
Qed.



(** ** Structure of a frame *)

Section StepFacts.

Lemma buildStaticLayer_frame (e : Engine) :
  Engine._blobs (_buildStaticLayer e) = Engine._blobs e
  /\ Engine.state (_buildStaticLayer e) = Engine.state e
  /\ Engine.canvas (_buildStaticLayer e) = Engine.canvas e
  /\ Engine.ctx (_buildStaticLayer e) = Engine.ctx e.
Proof. unfold _buildStaticLayer. destruct (Engine._staticCtx e); repeat split. Qed.

Lemma fullRedraw_frame (e : Engine) (ts : number) :
  Engine._blobs (_fullRedraw e ts) = Engine._blobs e
  /\ Engine.state (_fullRedraw e ts) = Engine.state e
  /\ Engine.ctx (_fullRedraw e ts) = Engine.ctx e.
Proof.
  unfold _fullRedraw.
  destruct (buildStaticLayer_frame e) as (Hb & Hs & _ & Hc).
  set (e1 := if Engine._needRebuildStatic e then _buildStaticLayer e else e).
  assert (H1 : Engine._blobs e1 = Engine._blobs e /\ Engine.state e1 = Engine.state e
               /\ Engine.ctx e1 = Engine.ctx e).
  { unfold e1. destruct (Engine._needRebuildStatic e); auto. }
  destruct H1 as (Hb1 & Hs1 & Hc1).
  destruct (Engine.ctx e1) eqn:Hx; cbn [negb]; rewrite <- Hb1, <- Hs1, <- Hc1;
    repeat split; auto.
Qed.

Lemma redrawDirty_frame (e : Engine) (ts : number) (rects : list Rect) :
  Engine._blobs (_redrawDirty e ts rects) = Engine._blobs e
  /\ Engine.state (_redrawDirty e ts rects) = Engine.state e
  /\ Engine.ctx (_redrawDirty e ts rects) = Engine.ctx e.
Proof.
  unfold _redrawDirty. destruct (Engine.ctx e) eqn:Hx; cbn [negb]; repeat split; auto.
Qed.

Lemma advanceEase_need (dtMs : number) (b : BlobInternal) (need : bool) :
  fst (advanceEase dtMs b need) = fst (advanceEase dtMs b false).
Proof.
  unfold advanceEase. destruct (Blob._ease b); [|reflexivity].
  match goal with |- context [if ?c then _ else _] => destruct c end; reflexivity.
Qed.

Lemma damageOne_need (s : State) (tSec parallaxPx pad dtMs : number)
    (b : BlobInternal) (need : bool) :
  fst (damageOne s tSec parallaxPx pad dtMs b need)
  = (scanBlob s tSec parallaxPx pad dtMs b, blobDamage s tSec parallaxPx pad dtMs b).
Proof.
  unfold scanBlob, blobDamage, damageOne.
  destruct (Blob._sprite b); [|reflexivity].
  destruct (Blob._static b); [reflexivity|].
  pose proof (advanceEase_need dtMs b need) as H.
  destruct (advanceEase dtMs b need) as [b1 n1], (advanceEase dtMs b false) as [b2 n2].
  simpl in H. subst b2. reflexivity.
Qed.

Lemma damageScan_fst (s : State) (tSec parallaxPx pad dtMs : number)
    (blobs : JSMap.T BlobInternal) (need : bool) :
  fst (damageScan s tSec parallaxPx pad dtMs blobs need)
  = (mapValues (scanBlob s tSec parallaxPx pad dtMs) blobs,
     flat_map (fun kv => blobDamage s tSec parallaxPx pad dtMs (snd kv)) blobs).
Proof.
  revert need. induction blobs as [|[k b] rest IH]; intros need; [reflexivity|].
  simpl.
  pose proof (damageOne_need s tSec parallaxPx pad dtMs b need) as H1.
  destruct (damageOne s tSec parallaxPx pad dtMs b need) as [[b' d] n1].
  specialize (IH n1).
  destruct (damageScan s tSec parallaxPx pad dtMs rest n1) as [[rest' ds] n2].
  simpl in *. inversion H1; inversion IH; subst. reflexivity.
Qed.

(** What the first part of a frame leaves behind. *)
Lemma stepDamage_frame (e : Engine) (ts dtMs : number) :
  let s := frameState e in
  snd (stepDamage e ts dtMs)
  = flat_map (fun kv => blobDamage s (ts / Fin 1000) (parallaxPxOf s) (padOf s) dtMs (snd kv))
             (Engine._blobs e)
  /\ Engine._blobs (fst (stepDamage e ts dtMs))
     = mapValues (scanBlob s (ts / Fin 1000) (parallaxPxOf s) (padOf s) dtMs) (Engine._blobs e)
  /\ Engine.state (fst (stepDamage e ts dtMs)) = s
  /\ Engine.canvas (fst (stepDamage e ts dtMs)) = Engine.canvas e
  /\ Engine.ctx (fst (stepDamage e ts dtMs)) = Engine.ctx e.
Proof.
  intros s. unfold stepDamage.
  set (e0 := Engine.set_state (smoothPointer (Engine.state e)) e).
  set (e1 := if Engine._needRebuildStatic e0 then _buildStaticLayer e0 else e0).
  assert (H1 : Engine._blobs e1 = Engine._blobs e /\ Engine.state e1 = s
               /\ Engine.canvas e1 = Engine.canvas e /\ Engine.ctx e1 = Engine.ctx e).
  { unfold e1. destruct (buildStaticLayer_frame e0) as (Hb & Hs & Hc & Hx).
    destruct (Engine._needRebuildStatic e0); [rewrite Hb, Hs, Hc, Hx|]; repeat split. }
  destruct H1 as (Hb & Hs & Hc & Hx).
  cbn [Engine.state Engine.set_state e0].
  pose proof (damageScan_fst (smoothPointer (Engine.state e)) (ts / Fin 1000)
                (parallaxPxOf (smoothPointer (Engine.state e)))
                (padOf (smoothPointer (Engine.state e))) dtMs
                (Engine._blobs e1) (Engine._needRebuildStatic e1)) as Hscan.
  destruct (damageScan (smoothPointer (Engine.state e)) (ts / Fin 1000)
              (parallaxPxOf (smoothPointer (Engine.state e)))
              (padOf (smoothPointer (Engine.state e))) dtMs
              (Engine._blobs e1) (Engine._needRebuildStatic e1)) as [[bs ds] nd].
  simpl in Hscan. inversion Hscan; subst bs ds. rewrite Hb.
  cbn [fst snd Engine._blobs Engine.state Engine.canvas Engine.ctx
       Engine.set_needRebuildStatic Engine.set_blobs].
  repeat split; assumption.
Qed.

Lemma step_unfold (e : Engine) (ts dtMs : number) :
  Engine.ctx e = true ->
  _step e ts dtMs
  = let e1 := fst (stepDamage e ts dtMs) in
    match snd (stepDamage e ts dtMs) with
    | [] => if Engine._needRebuildStatic e1 then _fullRedraw e1 ts else e1
    | _ :: _ =>
        let merged := mergeRects (snd (stepDamage e ts dtMs)) (Fin 2) in
        let e2 := if tooMuchDamage (Engine.state e1) merged
                  then _fullRedraw e1 ts else _redrawDirty e1 ts merged in
        Engine.set_blobs (mapValues commitRect (Engine._blobs e2)) e2
    end.
Proof.
  intros H. unfold _step. rewrite H. cbn [negb].
  destruct (stepDamage e ts dtMs) as [e1 dirty]. reflexivity.
Qed.

(** The registry after a frame. *)
Lemma step_blobs (e : Engine) (ts dtMs : number) :
  Engine.ctx e = true ->
  let s := frameState e in
  let scanned :=
    mapValues (scanBlob s (ts / Fin 1000) (parallaxPxOf s) (padOf s) dtMs)
              (Engine._blobs e) in
  Engine._blobs (_step e ts dtMs)
  = match snd (stepDamage e ts dtMs) with
    | [] => scanned
    | _ :: _ => mapValues commitRect scanned
    end.
Proof.
  intros Hctx s scanned. rewrite (step_unfold _ _ _ Hctx).
  destruct (stepDamage_frame e ts dtMs) as (_ & Hb & _).
  fold s in Hb. fold scanned in Hb.
  destruct (snd (stepDamage e ts dtMs)) as [|r dirty]; cbv zeta.
  - destruct (Engine._needRebuildStatic (fst (stepDamage e ts dtMs)));
      [rewrite (proj1 (fullRedraw_frame _ _))|]; exact Hb.
  - cbn [Engine._blobs Engine.set_blobs].
    destruct (tooMuchDamage _ _);
      [rewrite (proj1 (fullRedraw_frame _ _)) | rewrite (proj1 (redrawDirty_frame _ _ _))];
      now rewrite Hb.
Qed.

End StepFacts.

(** ** What a redraw sends to the canvas *)

Section CanvasFacts.


Lemma restore_calls (c : Canvas) : Canvas.calls (Canvas.restore c) = Canvas.calls c.
Proof. unfold Canvas.restore. destruct (Canvas.saved c); reflexivity. Qed.

Lemma repair_fold (s : State) (layer : StaticLayer) (rects : list Rect) (c : Canvas) :
  fold_left (repairRect s layer) rects c
  = Canvas.mk (Canvas.width c) (Canvas.height c) (Canvas.cur c) (Canvas.saved c)
              (Canvas.calls c ++ map (blitOf s layer (Canvas.cur c)) rects).
Proof.
  revert c. induction rects as [|r rects IH]; intros c; simpl.
  - rewrite app_nil_r. now destruct c.
  - rewrite IH. cbn. now rewrite <- app_assoc.
Qed.

Lemma drawDynamicOne_cases (s : State) (tSec parallaxPx : number)
    (limitRects : option (list Rect)) (c : Canvas) (b : BlobInternal) :
  (drawDynamicOne s tSec parallaxPx limitRects c b = c
   /\ forall sprite, ~ drawnBlob s tSec parallaxPx limitRects b sprite)
  \/ (exists sprite st,
        drawnBlob s tSec parallaxPx limitRects b sprite
        /\ drawDynamicOne s tSec parallaxPx limitRects c b
           = Canvas.mk (Canvas.width c) (Canvas.height c) st (Canvas.saved c)
               (Canvas.calls c
                ++ [spriteCallOf st sprite (_blobRect s b sprite tSec parallaxPx)])).
Proof.
  unfold drawDynamicOne, drawnBlob.
  destruct (Blob._sprite b) as [sprite|] eqn:Hsp.
  2:{ left. split; [reflexivity|]. intros sp (_ & H & _). discriminate. }
  destruct (Blob._static b) eqn:Hst.
  { left. split; [reflexivity|]. intros sp (H & _). discriminate. }
  fold (_blobRect s b sprite tSec parallaxPx).
  destruct limitRects as [rects|].
  - destruct (existsb (fun r => intersect r (_blobRect s b sprite tSec parallaxPx)) rects)
      eqn:Hex; cbn [negb].
    + right. exists sprite. eexists. split; [|reflexivity].
      repeat split. apply existsb_exists in Hex. exact Hex.
    + left. split; [reflexivity|]. intros sp (_ & Hs & r & Hin & Hr).
      inversion Hs; subst sp.
      assert (Htrue : existsb (fun r => intersect r (_blobRect s b sprite tSec parallaxPx))
                              rects = true)
        by (apply existsb_exists; now exists r).
      congruence.
  - right. exists sprite. eexists. split; [|reflexivity]. repeat split.
Qed.

Lemma drawDynamics_fold (s : State) (tSec parallaxPx : number)
    (limitRects : option (list Rect)) (bs : list BlobInternal) (c : Canvas) :
  exists news,
    Canvas.calls (fold_left (drawDynamicOne s tSec parallaxPx limitRects) bs c)
    = Canvas.calls c ++ news
    /\ spriteCalls s tSec parallaxPx limitRects bs news.
Proof.
  revert c. induction bs as [|b bs IH]; intros c; simpl.
  - exists []. rewrite app_nil_r. split; [reflexivity|].
    split; [intros call [] | intros b sp []].
  - destruct (drawDynamicOne_cases s tSec parallaxPx limitRects c b)
      as [[Heq Hno] | (sprite & st & Hd & Heq)]; rewrite Heq.
    + destruct (IH c) as (news & Hcalls & Honly & Hall).
      exists news. split; [exact Hcalls|]. split.
      * intros call Hin. destruct (Honly _ Hin) as (b' & sp & st & Hb & Hd & ->).
        exists b', sp, st. split; [now right|]. split; [exact Hd | reflexivity].
      * intros b' sp [<-|Hb] Hd; [exfalso; eapply Hno; eauto | eauto].
    + match goal with
      | |- context [fold_left _ bs ?c1] =>
          destruct (IH c1) as (news & Hcalls & Honly & Hall)
      end.
      exists (spriteCallOf st sprite (_blobRect s b sprite tSec parallaxPx) :: news).
      split; [rewrite Hcalls; cbn; now rewrite <- app_assoc|]. split.
      * intros call [<-|Hin].
        -- exists b, sprite, st. split; [now left|]. split; [exact Hd | reflexivity].
        -- destruct (Honly _ Hin) as (b' & sp & st' & Hb & Hd' & ->).
           exists b', sp, st'. split; [now right|]. split; [exact Hd' | reflexivity].
      * intros b' sp [<-|Hb] Hd'.
        -- exists st. left. destruct Hd as (_ & Hs1 & _), Hd' as (_ & Hs2 & _).
           congruence.
        -- destruct (Hall _ _ Hb Hd') as [st' Hin]. exists st'. now right.
Qed.


(** The full redraw: clear, the whole static layer, then every dynamic
    sprite. *)
Lemma fullRedraw_calls (e : Engine) (ts : number) :
  Engine.ctx e = true ->
  let s := Engine.state e in
  let c := Engine.canvas e in
  let e' := if Engine._needRebuildStatic e then _buildStaticLayer e else e in
  let st := CtxState.mk (CtxState.globalAlpha (Canvas.cur c))
              (CtxState.globalCompositeOperation (Canvas.cur c)) (Fin 1) (Fin 1) in
  exists sprites,
    Canvas.calls (Engine.canvas (_fullRedraw e ts))
    = Canvas.calls c
      ++ ClearRect st (Fin 0) (Fin 0) (Canvas.width c) (Canvas.height c)
         :: DrawLayer st (StaticLayer.calls (Engine._staticLayer e')) (Fin 0) (Fin 0)
         :: sprites
    /\ spriteCalls s (ts / Fin 1000) (parallaxPxOf s) None
                   (JSMap.values (Engine._blobs e)) sprites.
Proof.
  intros Hctx s c e' st. unfold _fullRedraw. fold e'.
  assert (H1 : Engine._blobs e' = Engine._blobs e /\ Engine.state e' = s
               /\ Engine.canvas e' = c /\ Engine.ctx e' = true).
  { unfold e'. destruct (buildStaticLayer_frame e) as (Hb & Hs & Hc & Hx).
    destruct (Engine._needRebuildStatic e); [rewrite Hb, Hs, Hc, Hx|]; auto. }
  destruct H1 as (Hb & Hs & Hc & Hx). rewrite Hx. cbn [negb].
  unfold _drawDynamics. rewrite Hs, Hb, Hc. fold (parallaxPxOf s).
  cbn [Engine.canvas Engine.set_canvas]. rewrite restore_calls.
  match goal with
  | |- context [fold_left (drawDynamicOne ?a ?b ?p ?l) ?bs ?c1] =>
      destruct (drawDynamics_fold a b p l bs c1) as (sprites & Hcalls & Hspec)
  end.
  exists sprites. split; [|exact Hspec].
  rewrite Hcalls.
  cbn [Canvas.calls Canvas.setComposite Canvas.set_cur Canvas.scale Canvas.save
       Canvas.restore Canvas.saved Canvas.cur Canvas.width Canvas.height
       Canvas.resetTransform Canvas.clearRect Canvas.drawLayer Canvas.emit
       CtxState.globalAlpha CtxState.globalCompositeOperation].
  unfold st. rewrite <- !app_assoc. reflexivity.
Qed.

End CanvasFacts.

(** Evaluate the engine on concrete numbers: unfold the numeric helpers,
    compute, and decide the comparisons of constants. *)
Ltac js_unfold :=
  unfold blobDamage, scanBlob, damageOne, advanceEase, _blobRect, _blobStateNow,
    driftX, driftY, TAU, Math.PI, padOf, parallaxPxOf, frameState, smoothPointer,
    lerp, clamp, orNum, truthy, falsy, inflateRect, tooMuchDamage, coverOf, gt, ge,
    easeInOutQuad in *.

Ltac js_eval :=
  js_unfold;
  repeat progress
    (cbn -[Rplus Rmult Rminus Rdiv IZR Rlt_dec Rle_dec Req_dec_T sin cos Rtrigo1.PI
           Rinv Ropp Zfloor Zceil Rmin Rmax];
     decide_reals).

(** ** Damage tracking *)

Lemma clamp_fin_mid (v a b : R) :
  (a <= v)%R -> (v <= b)%R -> clamp (Fin v) (Fin a) (Fin b) = Fin v.
Proof.
  intros H1 H2. unfold clamp. rewrite max_fin, min_fin.
  rewrite Rmax_right by assumption. now rewrite Rmin_right by assumption.
Qed.


Lemma blobDamage_dynamic (s : State) (tSec parallaxPx pad dtMs : number)
    (b : BlobInternal) (sprite : Sprite) :
  Blob._static b = false -> Blob._sprite b = Some sprite ->
  let nowRect := _blobRect s (fst (advanceEase dtMs b false)) sprite tSec parallaxPx in
  In (inflateRect nowRect pad) (blobDamage s tSec parallaxPx pad dtMs b)
  /\ forall last, Blob._lastRect b = Some last ->
       In (inflateRect last pad) (blobDamage s tSec parallaxPx pad dtMs b).
Proof.
  intros Hst Hsp nowRect. unfold blobDamage, damageOne. rewrite Hsp, Hst.
  assert (Hlast : Blob._lastRect (fst (advanceEase dtMs b false)) = Blob._lastRect b).
  { unfold advanceEase. destruct (Blob._ease b); [|reflexivity].
    match goal with |- context [if ?c then _ else _] => destruct c end; reflexivity. }
  subst nowRect. destruct (advanceEase dtMs b false) as [b1 n1]. simpl in *.
  rewrite Hlast. destruct (Blob._lastRect b) as [last|]; simpl.
  - split; [auto|]. intros l H. inversion H; subst. auto.
  - split; [auto|]. discriminate.
Qed.








(** ** Static / dynamic classification *)

Section ClassifierFacts.

Lemma falsy_iff (a : number) : a <> NaN -> (falsy a = true <-> a = Fin 0).
Proof.
  intros Hn. destruct a as [| | |r]; unfold falsy; simpl;
    try contradiction; try (split; discriminate).
  destruct (Reqb_spec r 0) as [->|Hne]; simpl; split; intros H;
    try reflexivity; try discriminate.
  inversion H. contradiction.
Qed.

Lemma falsy_or_zero (a : number) :
  a <> NaN -> ((falsy a || (a === Fin 0)) = true <-> a = Fin 0).
Proof.
  intros Hn. rewrite orb_true_iff, (falsy_iff Hn). split.
  - intros [H|H]; [exact H|]. destruct a as [| | |r]; simpl in H; try discriminate.
    destruct (Reqb_spec r 0) as [->|]; [reflexivity | discriminate].
  - intros H. now left.
Qed.

Lemma is_one_iff (a : number) : is_one a = true <-> a = Fin 1.
Proof.
  unfold is_one. destruct a as [| | |r]; simpl; try (split; discriminate).
  destruct (Reqb_spec r 1) as [->|Hne]; split; intros H;
    try reflexivity; try discriminate.
  inversion H. contradiction.
Qed.

Lemma range_identity_iff (r : option (number * number)) :
  r <> None ->
  ((match r with None => true | Some (a, b) => is_one a && is_one b end) = true
   <-> r = Some (Fin 1, Fin 1)).
Proof.
  intros Hr. destruct r as [[a b]|]; [|contradiction].
  rewrite andb_true_iff, !is_one_iff. split.
  - intros [-> ->]. reflexivity.
  - intros H. inversion H. auto.
Qed.

Lemma staticCandidate_spec (b : BlobInternal) :
  properBlob b -> (staticCandidate b = true <-> staticSpec b).
Proof.
  intros (Hp & Hax & Hay & Hsx & Hsy & Hsp & Hbr).
  unfold staticCandidate, staticSpec.
  rewrite !andb_true_iff, (falsy_or_zero Hp), (falsy_or_zero Hsp),
    (falsy_iff Hax), (falsy_iff Hay), (falsy_iff Hsx), (falsy_iff Hsy).
  assert (Hb : (match Blob.breath b with
                | None => true
                | Some br =>
                    (match Breath.scale br with
                     | None => true | Some (s0, s1) => is_one s0 && is_one s1 end)
                    && (match Breath.opacity br with
                        | None => true | Some (o0, o1) => is_one o0 && is_one o1 end)
                end) = true
               <-> (Blob.breath b = None
                    \/ exists br, Blob.breath b = Some br
                                  /\ Breath.scale br = Some (Fin 1, Fin 1)
                                  /\ Breath.opacity br = Some (Fin 1, Fin 1))).
  { destruct (Blob.breath b) as [br|].
    - destruct (Hbr br eq_refl) as [Hs Ho].
      rewrite andb_true_iff, (range_identity_iff Hs), (range_identity_iff Ho). split.
      + intros [H1 H2]. right. exists br. auto.
      + intros [H|(br' & H & H1 & H2)]; [discriminate|]. inversion H; subst. auto.
    - split; auto. }
  rewrite Hb.
  assert (He : (match Blob._ease b with None => true | Some _ => false end) = true
               <-> Blob._ease b = None)
    by (destruct (Blob._ease b); split; intros; try discriminate; reflexivity).
  rewrite He. tauto.
Qed.

Lemma classify_classified (b : BlobInternal) : classified (_classifyBlobStatic b).
Proof. reflexivity. Qed.

Lemma easing_not_candidate (b : BlobInternal) (ez : InternalEase) :
  Blob._ease b = Some ez -> staticCandidate b = false.
Proof. intros H. unfold staticCandidate. rewrite H. apply andb_false_r. Qed.

Lemma advanceEase_classified (dtMs : number) (b : BlobInternal) (need : bool) :
  Blob._static b = false -> classified b ->
  classified (fst (advanceEase dtMs b need)).
Proof.
  intros Hst Hc. unfold advanceEase. destruct (Blob._ease b) as [ez|]; [|exact Hc].
  match goal with |- context [if ?c then _ else _] => destruct c end.
  - apply classify_classified.
  - unfold classified. cbn [fst Blob._static Blob.set_ease]. rewrite Hst.
    symmetry. eapply easing_not_candidate. reflexivity.
Qed.

Lemma scanBlob_classified (s : State) (tSec parallaxPx pad dtMs : number)
    (b : BlobInternal) :
  classified b -> classified (scanBlob s tSec parallaxPx pad dtMs b).
Proof.
  intros Hc. unfold scanBlob, damageOne.
  destruct (Blob._sprite b); [|exact Hc].
  destruct (Blob._static b) eqn:Hst; [exact Hc|].
  pose proof (advanceEase_classified dtMs false Hst Hc) as H.
  destruct (advanceEase dtMs b false) as [b1 n1]. exact H.
Qed.

Lemma commitRect_classified (b : BlobInternal) :
  classified b -> classified (commitRect b).
Proof.
  intros Hc. unfold commitRect.
  destruct (Blob._sprite b); [|exact Hc].
  destruct (Blob._static b) eqn:Hst; exact Hc.
Qed.

Lemma In_mapValues (V : Type) (f : V -> V) (m : JSMap.T V) k v :
  In (k, v) (mapValues f m) -> exists v0, In (k, v0) m /\ v = f v0.
Proof.
  unfold mapValues. intros H. apply in_map_iff in H.
  destruct H as ([k0 v0] & Heq & Hin). inversion Heq; subst. eauto.
Qed.

Lemma step_allClassified (e : Engine) (ts dtMs : number) :
  allClassified e -> allClassified (_step e ts dtMs).
Proof.
  intros Hall. destruct (Engine.ctx e) eqn:Hctx.
  2:{ unfold _step. rewrite Hctx. exact Hall. }
  intros k b. rewrite (step_blobs _ _ _ Hctx).
  destruct (snd (stepDamage e ts dtMs)); intros Hin.
  - apply In_mapValues in Hin. destruct Hin as (b0 & Hin & ->).
    apply scanBlob_classified. eapply Hall; eauto.
  - apply In_mapValues in Hin. destruct Hin as (b1 & Hin & ->).
    apply In_mapValues in Hin. destruct Hin as (b0 & Hin & ->).
    apply commitRect_classified, scanBlob_classified. eapply Hall; eauto.
Qed.

Lemma addBlob_allClassified (e : Engine) (cfg : BlobConfig) :
  allClassified e -> allClassified (snd (addBlob e cfg)).
Proof.
  intros Hall k b Hin. unfold addBlob in Hin.
  cbn [snd Engine._blobs Engine.set_needRebuildStatic Engine.set_blobs] in Hin.
  apply In_set in Hin. destruct Hin as [Hin|[_ ->]].
  - eapply Hall; eauto.
  - apply classify_classified.
Qed.

(** The blob [updateBlob] stores, from the blob it found. *)
Lemma updateBlob_classified (e : Engine) (id : string) (patch : BlobPatch) :
  allClassified e -> allClassified (updateBlob e id patch).
Proof.
  intros Hall. unfold updateBlob.
  destruct (JSMap.get (Engine._blobs e) id) as [b|] eqn:Hget; [|exact Hall].
  assert (Hb : classified b) by (eapply Hall, get_Some_In; eauto).
  match goal with
  | |- allClassified (if _ then Engine.set_needRebuildStatic true ?x else _) =>
      assert (Hx : allClassified x)
  end.
  { intros k b' Hin. cbn [Engine._blobs Engine.set_blobs] in Hin.
    apply In_set in Hin. destruct Hin as [Hin|[_ ->]]; [eapply Hall; eauto|].
    destruct (isSome (BlobPatch.center patch) || isSome (BlobPatch.opacity patch)
              || isSome (BlobPatch.parallaxScale patch) || isSome (BlobPatch.drift patch)
              || isSome (BlobPatch.breath patch)) eqn:Haff.
    - apply classify_classified.
    - repeat (apply orb_false_iff in Haff; destruct Haff as [Haff ?]).
      destruct (BlobPatch.center patch); [discriminate|].
      destruct (BlobPatch.opacity patch); [discriminate|].
      destruct (BlobPatch.parallaxScale patch); [discriminate|].
      destruct (BlobPatch.drift patch); [discriminate|].
      destruct (BlobPatch.breath patch); [discriminate|].
      destruct (BlobPatch.diameter patch), (BlobPatch.layers patch); exact Hb. }
  match goal with |- allClassified (if ?c then _ else _) => destruct c end; exact Hx.
Qed.

Lemma easeTo_classified (e : Engine) (id : string) (toCenter : Center)
    (durationMs : option number) (easing : option string) :
  allClassified e -> allClassified (easeTo e id toCenter durationMs easing).
Proof.
  intros Hall. unfold easeTo.
  destruct (JSMap.get (Engine._blobs e) id) as [b|] eqn:Hget; [|exact Hall].
  cbn [Blob._static Blob.set_ease].
  destruct (Blob._static b) eqn:Hst; intros k b' Hin;
    cbn [Engine._blobs Engine.set_blobs Engine.set_needRebuildStatic] in Hin;
    apply In_set in Hin; destruct Hin as [Hin|[_ ->]]; try (eapply Hall; eauto; fail);
    unfold classified; cbn [Blob._static Blob.set_static Blob.set_ease];
    try rewrite Hst; symmetry; eapply easing_not_candidate; reflexivity.
Qed.

End ClassifierFacts.

(** C4.  For a blob whose parameters are numbers, the classifier answers
    static exactly when the parallax scale is zero, breathing is absent or has
    both ranges equal to [1, 1], the drift amplitudes and speed are all zero,
    and no easing transition is active.  The flag of every registered blob
    agrees with the classifier after [addBlob], [updateBlob], [easeTo] and
    after a frame, whenever it did before; [updateBlob] with a parallax, drift
    or breath patch stores a freshly classified blob; [easeTo] leaves its blob
    dynamic with an active transition; and a frame that brings the elapsed
    fraction of a transition to 1 clears the transition and classifies the
    blob again, while a frame that does not keeps it dynamic. *)
Theorem classification_up_to_date :
  (forall b, properBlob b ->
     (Blob._static (_classifyBlobStatic b) = true <-> staticSpec b))
  /\ (forall e cfg, allClassified e -> allClassified (snd (addBlob e cfg)))
  /\ (forall e id patch, allClassified e -> allClassified (updateBlob e id patch))
  /\ (forall e id c d z, allClassified e -> allClassified (easeTo e id c d z))
  /\ (forall e ts dtMs, allClassified e -> allClassified (_step e ts dtMs))
  /\ (forall e id patch b',
        In id (JSMap.keys (Engine._blobs e)) ->
        BlobPatch.parallaxScale patch <> None \/ BlobPatch.drift patch <> None
        \/ BlobPatch.breath patch <> None ->
        JSMap.get (Engine._blobs (updateBlob e id patch)) id = Some b' ->
        Blob._static b' = staticCandidate b')
  /\ (forall e id c d z,
        In id (JSMap.keys (Engine._blobs e)) ->
        exists b',
          JSMap.get (Engine._blobs (easeTo e id c d z)) id = Some b'
          /\ Blob._static b' = false /\ Blob._ease b' <> None)
  /\ (forall dtMs b ez need,
        Blob._ease b = Some ez ->
        let t' := clamp (Ease.t ez + clamp (dtMs / Ease.durMs ez) (Fin 0) (Fin 1))
                        (Fin 0) (Fin 1) in
        let b' := fst (advanceEase dtMs b need) in
        ((t' >=? Fin 1) = true ->
           Blob._ease b' = None /\ Blob._static b' = staticCandidate b')
        /\ ((t' >=? Fin 1) = false ->
              Blob._ease b' = Some (Ease.set_t t' ez)
              /\ Blob._static b' = Blob._static b)).
Proof.
  split; [|split; [|split; [|split; [|split; [|split; [|split]]]]]].
  - intros b Hp. cbn [_classifyBlobStatic Blob._static Blob.set_static].
    now apply staticCandidate_spec.
  - apply addBlob_allClassified.
  - apply updateBlob_classified.
  - apply easeTo_classified.
  - apply step_allClassified.
  - intros e id patch b' Hin Htouch Hget. unfold updateBlob in Hget.
    destruct (JSMap.get (Engine._blobs e) id) as [b|] eqn:Hb.
    2:{ apply get_None_iff in Hb. contradiction. }
    assert (Haff : isSome (BlobPatch.center patch) || isSome (BlobPatch.opacity patch)
                   || isSome (BlobPatch.parallaxScale patch)
                   || isSome (BlobPatch.drift patch)
                   || isSome (BlobPatch.breath patch) = true).
    { destruct Htouch as [H|[H|H]];
        [destruct (BlobPatch.parallaxScale patch) | destruct (BlobPatch.drift patch)
         | destruct (BlobPatch.breath patch)]; try contradiction;
        cbn [isSome]; rewrite ?orb_true_r; reflexivity. }
    rewrite Haff, orb_true_r in Hget.
    cbn [Engine._blobs Engine.set_blobs Engine.set_needRebuildStatic] in Hget.
    rewrite get_set_same in Hget. inversion Hget; subst b'. reflexivity.
  - intros e id c d z Hin. unfold easeTo.
    destruct (JSMap.get (Engine._blobs e) id) as [b|] eqn:Hb.
    2:{ apply get_None_iff in Hb. contradiction. }
    cbn [Blob._static Blob.set_ease].
    destruct (Blob._static b) eqn:Hst;
      cbn [Engine._blobs Engine.set_blobs Engine.set_needRebuildStatic];
      rewrite get_set_same; eexists; (split; [reflexivity|]);
      cbn [Blob._static Blob._ease Blob.set_static Blob.set_ease];
      (split; [auto | discriminate]).
  - intros dtMs b ez need Hez t' b'. unfold b', advanceEase. rewrite Hez.
    cbn [Ease.t Ease.set_t]. fold t'. split; intros Ht; rewrite Ht; cbn [fst].
    + split; reflexivity.
    + split; reflexivity.
Qed.

Lemma classification_up_to_date_witness :
  staticSpec
    (Blob.mk "s" (VNum (Fin 10)) (CenterAt Sample.origin) [] (Fin 1) (Fin 0)
             (RDrift.mk (Fin 0) (Fin 0) (Fin 0) (Fin 0) (Fin 0)) None
             None (Fin 0) None None None false)
  /\ allClassified (snd (addBlob Sample.engine0 Sample.minimalCfg)).
Proof.
  destruct classification_up_to_date as (Hiff & Hadd & _).
  split.
  - apply Hiff.
    + repeat split; try discriminate.
    + cbn [_classifyBlobStatic Blob._static Blob.set_static].
      unfold staticCandidate. js_eval. reflexivity.
  - apply Hadd. intros k b [].
Defined.

(** ** Drift *)

Section DriftFacts.

Open Scope R_scope.

Lemma mul_fin (a b : R) : (Fin a * Fin b)%js = Fin (a * b).
Proof. reflexivity. Qed.

Lemma add_fin (a b : R) : (Fin a + Fin b)%js = Fin (a + b).
Proof. reflexivity. Qed.

Lemma orNum_zero (a : R) (k : R) : (Fin k * orNum (Fin a) (Fin 0))%js = Fin (k * a).
Proof.
  unfold orNum, truthy. destruct (Reqb_spec a 0) as [->|Hne]; reflexivity.
Qed.

Lemma driftX_fin (ax ay sx sy speed t : R) :
  driftX (RDrift.mk (Fin ax) (Fin ay) (Fin sx) (Fin sy) (Fin speed)) (Fin t)
  = Fin (sin (2 * PI * speed * t + 1.3) * ax
         + sin (2 * PI * (speed * 0.5) * t + 0.7) * sx).
Proof.
  unfold driftX, TAU, Math.PI. cbn [RDrift.ax RDrift.sx RDrift.speed].
  rewrite ?mul_fin, ?add_fin. cbn [Math.sin].
  rewrite !orNum_zero, add_fin. f_equal. f_equal; f_equal; f_equal; ring.
Qed.

Lemma driftY_fin (ax ay sx sy speed t : R) :
  driftY (RDrift.mk (Fin ax) (Fin ay) (Fin sx) (Fin sy) (Fin speed)) (Fin t)
  = Fin (cos (2 * PI * speed * t + 0.9) * ay
         + cos (2 * PI * (speed * 0.6) * t + 0.4) * sy).
Proof.
  unfold driftY, TAU, Math.PI. cbn [RDrift.ay RDrift.sy RDrift.speed].
  rewrite ?mul_fin, ?add_fin. cbn [Math.cos].
  rewrite !orNum_zero, add_fin. f_equal. f_equal; f_equal; f_equal; ring.
Qed.

Lemma cos_04_pos : 0 < cos 0.4.
Proof. apply cos_gt_0; pose proof PI2_1; lra. Qed.

End DriftFacts.

(** C5 as stated fails on the y axis: whatever the two fixed phases, the code
    and the claimed formula (frequencies [speed] and [speed * 0.5]) differ, at
    speed 1 and amplitudes [ay = 0], [sy = 1], either at [t = 0] or at
    [t = 5]. *)
Lemma driftY_frequency_counterexample :
  ~ exists phase1 phase2 : R,
      forall d t, driftY d (Fin t) = driftY_claimed phase1 phase2 d (Fin t).
Proof.
  intros (p1 & p2 & H).
  set (d := RDrift.mk (Fin 0) (Fin 0) (Fin 0) (Fin 1) (Fin 1)).
  pose proof (H d 0%R) as H0. pose proof (H d 5%R) as H5.
  unfold d in H0, H5. rewrite driftY_fin in H0, H5.
  unfold driftY_claimed, Math.PI in H0, H5.
  cbn [RDrift.ay RDrift.sy RDrift.speed Math.cos mul add] in H0, H5.
  inversion H0 as [E0]. inversion H5 as [E5]. clear H0 H5 H.
  replace (2 * PI * (1 * 0.6) * 0 + 0.4)%R with 0.4%R in E0 by ring.
  replace (2 * PI * (1 * 0.5) * 0 + p2)%R with p2 in E0 by ring.
  replace (2 * PI * (1 * 0.6) * 5 + 0.4)%R with (0.4 + 2 * INR 3 * PI)%R in E5
    by (cbn [INR]; lra).
  replace (2 * PI * (1 * 0.5) * 5 + p2)%R with ((p2 + PI) + 2 * INR 2 * PI)%R in E5
    by (cbn [INR]; lra).
  rewrite !cos_period, neg_cos in E5.
  pose proof cos_04_pos. lra.
Qed.

(** C5, amended.  For finite parameters the drift offset is, on the x axis,
    [sin(2 pi speed t + 1.3) ax + sin(2 pi (speed 0.5) t + 0.7) sx] and, on the
    y axis, [cos(2 pi speed t + 0.9) ay + cos(2 pi (speed 0.6) t + 0.4) sy]:
    the second y frequency is [speed * 0.6].  The centre of a blob is its
    (eased) centre plus the parallax offset plus this drift. *)
Theorem drift_offset_formula (ax ay sx sy speed t : R) :
  let d := RDrift.mk (Fin ax) (Fin ay) (Fin sx) (Fin sy) (Fin speed) in
  driftX d (Fin t)
  = Fin (sin (2 * PI * speed * t + 1.3) * ax
         + sin (2 * PI * (speed * 0.5) * t + 0.7) * sx)
  /\ driftY d (Fin t)
     = Fin (cos (2 * PI * speed * t + 0.9) * ay
            + cos (2 * PI * (speed * 0.6) * t + 0.4) * sy)
  /\ forall s b parallaxPx,
       Blob.drift b = d -> Blob._ease b = None ->
       let base := resolveCenter (Blob.center b) (dimsOf s) in
       let st := _blobStateNow s b (Fin t) parallaxPx in
       BlobState.cx st
       = Point.x base + State.px s * parallaxPx * Blob.parallaxScale b + driftX d (Fin t)
       /\ BlobState.cy st
          = Point.y base + State.py s * parallaxPx * Blob.parallaxScale b + driftY d (Fin t).
Proof.
  intros d. split; [apply driftX_fin|]. split; [apply driftY_fin|].
  intros s b parallaxPx Hd He base st. unfold st, _blobStateNow.
  rewrite Hd, He. split; reflexivity.
Qed.

Lemma drift_offset_formula_witness :
  driftY (RDrift.mk (Fin 2) (Fin 1) (Fin 1) (Fin 1) (Fin (1 / 40))) (Fin 10)
  = Fin (cos (2 * PI * (1 / 40) * 10 + 0.9) * 1
         + cos (2 * PI * (1 / 40 * 0.6) * 10 + 0.4) * 1).
Proof.
  exact (proj1 (proj2 (drift_offset_formula 2 1 1 1 (1 / 40) 10))).
Defined.

(** ** Easing transitions *)

Section EaseFacts.

Lemma clamp_fin_high (v a b : R) :
  (a <= b)%R -> (b <= v)%R -> clamp (Fin v) (Fin a) (Fin b) = Fin b.
Proof.
  intros H1 H2. unfold clamp. rewrite max_fin, min_fin.
  rewrite Rmax_right by lra. now rewrite Rmin_left by lra.
Qed.

Lemma clamp_fin_unit (v : R) :
  (0 <= v)%R -> clamp (Fin v) (Fin 0) (Fin 1) = Fin (Rmin 1 v).
Proof.
  intros H. unfold clamp. rewrite max_fin, min_fin. now rewrite Rmax_right by lra.
Qed.

(** A frame that does not bring the elapsed fraction to 1 stores the new
    fraction and leaves the transition active. *)
Lemma advanceEase_running (dt t dur : R) (b : BlobInternal) (ez : InternalEase) (need : bool) :
  Blob._ease b = Some ez -> Ease.t ez = Fin t -> Ease.durMs ez = Fin dur ->
  (0 <= dt)%R -> (0 < dur)%R -> (0 <= t)%R -> (t + dt / dur < 1)%R ->
  advanceEase (Fin dt) b need
  = (Blob.set_ease (Some (Ease.set_t (Fin (t + dt / dur)) ez)) b, need).
Proof.
  intros He Ht Hd H0 Hdur Ht0 Hlt. unfold advanceEase. rewrite He, Ht, Hd.
  assert (Hq : (0 <= dt / dur)%R) by (unfold Rdiv; apply Rmult_le_pos; [lra | left; now apply Rinv_0_lt_compat]).
  rewrite div_fin by lra. rewrite (clamp_fin_mid (v := dt / dur)) by lra.
  cbn [add]. rewrite clamp_fin_mid by lra.
  cbn [Ease.t Ease.set_t]. unfold ge. cbn [le]. rewrite Rleb_false by lra. reflexivity.
Qed.

(** A frame that brings the elapsed fraction to 1 clears the transition and
    classifies the blob again. *)
Lemma advanceEase_done (dt t dur : R) (b : BlobInternal) (ez : InternalEase) (need : bool) :
  Blob._ease b = Some ez -> Ease.t ez = Fin t -> Ease.durMs ez = Fin dur ->
  (0 <= dt)%R -> (0 < dur)%R -> (0 <= t <= 1)%R -> (1 <= t + dt / dur)%R ->
  fst (advanceEase (Fin dt) b need) = _classifyBlobStatic (Blob.set_ease None b).
Proof.
  intros He Ht Hd H0 Hdur Ht0 Hge. unfold advanceEase. rewrite He, Ht, Hd.
  assert (Hq : (0 <= dt / dur)%R) by (unfold Rdiv; apply Rmult_le_pos; [lra | left; now apply Rinv_0_lt_compat]).
  rewrite div_fin by lra. rewrite (clamp_fin_unit Hq). cbn [add].
  assert (Hm : (1 <= t + Rmin 1 (dt / dur))%R).
  { unfold Rmin. destruct (Rle_dec 1 (dt / dur)); lra. }
  rewrite clamp_fin_high by lra.
  cbn [Ease.t Ease.set_t]. unfold ge. cbn [le]. rewrite Rleb_true by lra. reflexivity.
Qed.

(** On the frame that completes a transition the motion model no longer sees
    it: the centre is the configured centre plus parallax and drift, whatever
    the destination was. *)
Lemma completed_centre_is_configured (s : State) (dt t dur : R) (b : BlobInternal)
    (ez : InternalEase) (need : bool) (tSec parallaxPx : number) :
  Blob._ease b = Some ez -> Ease.t ez = Fin t -> Ease.durMs ez = Fin dur ->
  (0 <= dt)%R -> (0 < dur)%R -> (0 <= t <= 1)%R -> (1 <= t + dt / dur)%R ->
  let b' := fst (advanceEase (Fin dt) b need) in
  let base := resolveCenter (Blob.center b) (dimsOf s) in
  let st := _blobStateNow s b' tSec parallaxPx in
  BlobState.cx st
  = Point.x base + State.px s * parallaxPx * Blob.parallaxScale b
    + driftX (Blob.drift b) tSec
  /\ BlobState.cy st
     = Point.y base + State.py s * parallaxPx * Blob.parallaxScale b
       + driftY (Blob.drift b) tSec.
Proof.
  intros He Ht Hd H0 Hdur Ht0 Hge b' base st. unfold st, b'.
  rewrite (advanceEase_done b need He Ht Hd H0 Hdur Ht0 Hge).
  split; reflexivity.
Qed.

Lemma scanBlob_dynamic (s : State) (tSec parallaxPx pad dtMs : number)
    (b : BlobInternal) (sprite : Sprite) :
  Blob._sprite b = Some sprite -> Blob._static b = false ->
  let b1 := fst (advanceEase dtMs b false) in
  scanBlob s tSec parallaxPx pad dtMs b
  = Blob.set_nextRect (Some (_blobRect s b1 sprite tSec parallaxPx)) b1.
Proof.
  intros Hsp Hst b1. unfold scanBlob, damageOne. rewrite Hsp, Hst.
  subst b1. destruct (advanceEase dtMs b false) as [b1 n1].
  cbn [fst]. destruct (Blob._lastRect b1); reflexivity.
Qed.

End EaseFacts.

Lemma unitToPx_10pct (w h v : R) :
  unitToPx (VStr "10%") (Dims.mk (Fin w) (Fin h) (Fin v)) AxisX = Fin (w * (10 / 100))
  /\ unitToPx (VStr "10%") (Dims.mk (Fin w) (Fin h) (Fin v)) AxisY = Fin (h * (10 / 100)).
Proof.
  unfold unitToPx.
  change (Str.trim "10%") with "10%"%string.
  change (Str.endsWith "10%" "px") with false.
  change (Str.endsWith "10%" "%") with true.
  unfold Str.parseFloat.
  change (Str.readLiteral "10%") with (Some (Str.LitDecimal false 10 0)).
  cbn [Str.scale10 Dims.w Dims.h]. rewrite div_fin by lra. split; reflexivity.
Qed.

Section LoopFacts.

Lemma buildStaticLayer_ts e : Engine._lastFrameTs (_buildStaticLayer e) = Engine._lastFrameTs e.
Proof. unfold _buildStaticLayer. destruct (Engine._staticCtx e); reflexivity. Qed.

Lemma fullRedraw_ts e ts : Engine._lastFrameTs (_fullRedraw e ts) = Engine._lastFrameTs e.
Proof.
  unfold _fullRedraw.
  set (e1 := if Engine._needRebuildStatic e then _buildStaticLayer e else e).
  assert (H : Engine._lastFrameTs e1 = Engine._lastFrameTs e).
  { unfold e1. destruct (Engine._needRebuildStatic e); [apply buildStaticLayer_ts | reflexivity]. }
  destruct (Engine.ctx e1); cbn [negb]; exact H.
Qed.

Lemma redrawDirty_ts e ts rects : Engine._lastFrameTs (_redrawDirty e ts rects) = Engine._lastFrameTs e.
Proof. unfold _redrawDirty. destruct (Engine.ctx e); reflexivity. Qed.

Lemma stepDamage_ts e ts dtMs : Engine._lastFrameTs (fst (stepDamage e ts dtMs)) = Engine._lastFrameTs e.
Proof.
  unfold stepDamage.
  set (e0 := Engine.set_state (smoothPointer (Engine.state e)) e).
  set (e1 := if Engine._needRebuildStatic e0 then _buildStaticLayer e0 else e0).
  assert (H : Engine._lastFrameTs e1 = Engine._lastFrameTs e).
  { unfold e1. destruct (Engine._needRebuildStatic e0); [rewrite buildStaticLayer_ts|]; reflexivity. }
  destruct (damageScan _ _ _ _ _ _ _) as [[bs ds] nd]. exact H.
Qed.

Lemma step_ts e ts dtMs : Engine._lastFrameTs (_step e ts dtMs) = Engine._lastFrameTs e.
Proof.
  destruct (Engine.ctx e) eqn:Hctx; [|unfold _step; now rewrite Hctx].
  rewrite (step_unfold _ _ _ Hctx). cbv zeta.
  destruct (snd (stepDamage e ts dtMs)).
  - destruct (Engine._needRebuildStatic _); [rewrite fullRedraw_ts|]; apply stepDamage_ts.
  - cbn [Engine._lastFrameTs Engine.set_blobs].
    destruct (tooMuchDamage _ _); [rewrite fullRedraw_ts | rewrite redrawDirty_ts];
      apply stepDamage_ts.
Qed.

Lemma step_state e ts dtMs :
  Engine.ctx e = true ->
  Engine.state (_step e ts dtMs) = frameState e /\ Engine.ctx (_step e ts dtMs) = true.
Proof.
  intros Hctx. rewrite (step_unfold _ _ _ Hctx). cbv zeta.
  destruct (stepDamage_frame e ts dtMs) as (_ & _ & Hs & _ & Hc).
  rewrite Hctx in Hc.
  destruct (snd (stepDamage e ts dtMs)) as [|r l].
  - destruct (Engine._needRebuildStatic _).
    + destruct (fullRedraw_frame (fst (stepDamage e ts dtMs)) ts) as (_ & -> & ->). auto.
    + auto.
  - cbn [Engine.state Engine.ctx Engine.set_blobs].
    destruct (tooMuchDamage _ _).
    + destruct (fullRedraw_frame (fst (stepDamage e ts dtMs)) ts) as (_ & -> & ->). auto.
    + destruct (redrawDirty_frame (fst (stepDamage e ts dtMs)) ts
                  (mergeRects (r :: l) (Fin 2))) as (_ & -> & ->). auto.
Qed.

Lemma loop_uncapped e ts :
  State.running (Engine.state e) = true -> State.fpsCap (Engine.state e) = Fin 0 ->
  _loop e ts
  = reschedule (_step (Engine.set_lastFrameTs ts e) ts
                      (Math.max (Fin 0) (ts - Engine._lastFrameTs e))).
Proof.
  intros Hr Hc. unfold _loop. rewrite Hr, Hc. cbn [negb]. unfold gt. cbn [lt].
  rewrite Rltb_false by lra. reflexivity.
Qed.

(** One accepted frame of an engine with a single dynamic blob and the
    pointer at rest. *)
Lemma loop_single (e : Engine) (t last : R) (k : string) (b : BlobInternal) (sprite : Sprite) :
  Engine.ctx e = true ->
  State.running (Engine.state e) = true -> State.fpsCap (Engine.state e) = Fin 0 ->
  frameState e = Engine.state e ->
  Engine._lastFrameTs e = Fin last -> (last <= t)%R ->
  Engine._blobs e = [(k, b)] -> Blob._sprite b = Some sprite -> Blob._static b = false ->
  Engine.ctx (_loop e (Fin t)) = true
  /\ Engine.state (_loop e (Fin t)) = Engine.state e
  /\ Engine._lastFrameTs (_loop e (Fin t)) = Fin t
  /\ Engine._blobs (_loop e (Fin t))
     = [(k, frameBlob (Engine.state e) (Fin t) (Fin (t - last)) b)].
Proof.
  intros Hctx Hrun Hcap Hrest Hlast Hle Hblobs Hsp Hst.
  rewrite (loop_uncapped e (Fin t) Hrun Hcap), Hlast. cbn [sub]. rewrite max_fin.
  rewrite Rmax_right by lra.
  set (e0 := Engine.set_lastFrameTs (Fin t) e).
  assert (Hctx0 : Engine.ctx e0 = true) by exact Hctx.
  destruct (reschedule_keeps (_step e0 (Fin t) (Fin (t - last))))
    as (_ & -> & -> & -> & _ & _ & _ & _ & -> & _).
  destruct (step_state e0 (Fin t) (Fin (t - last)) Hctx0) as [-> ->].
  rewrite step_ts. change (frameState e0) with (frameState e). rewrite Hrest.
  split; [reflexivity|]. split; [reflexivity|]. split; [reflexivity|].
  rewrite (step_blobs _ _ _ Hctx0). cbv zeta.
  change (frameState e0) with (frameState e). rewrite Hrest.
  change (Engine._blobs e0) with (Engine._blobs e). rewrite Hblobs.
  destruct (stepDamage_frame e0 (Fin t) (Fin (t - last))) as (Hd & _).
  change (frameState e0) with (frameState e) in Hd. rewrite Hrest in Hd.
  change (Engine._blobs e0) with (Engine._blobs e) in Hd. rewrite Hblobs in Hd.
  rewrite Hd. cbn [flat_map snd app].
  destruct (blobDamage_dynamic (Engine.state e) (Fin t / Fin 1000)
              (parallaxPxOf (Engine.state e)) (padOf (Engine.state e)) (Fin (t - last))
              b Hst Hsp) as [Hnow _].
  rewrite app_nil_r.
  destruct (blobDamage _ _ _ _ _ b); [contradiction|]. reflexivity.
Qed.

End LoopFacts.

Section SampleTransition.

Lemma stateR_rest : smoothPointer Sample.stateR = Sample.stateR.
Proof.
  unfold smoothPointer, lerp, Sample.stateR, Sample.state0, State.set_running, State.set_pointer.
  cbn [State.w State.h State.vMax State.dpr State.alpha State.blurPx State.composite
       State.parallaxVmax State.fpsCap State.px State.py State.tx State.ty State.running
       State.prefersReduce State.damagePaddingPx State.fullRedrawThreshold
       State.maxDirtyRects add sub mul].
  replace (0 + (0 - 0) * 0.1)%R with 0%R by lra. reflexivity.
Qed.

Lemma eased_sample :
  let e := easeTo Sample.engine2 "s" Sample.target (Some (Fin 500)) (Some "easeInOutQuad"%string) in
  Engine.ctx e = true /\ Engine.state e = Sample.stateR /\ Engine._lastFrameTs e = Fin 0
  /\ exists b, Engine._blobs e = [("s"%string, b)] /\ easingBlob 0 b.
Proof.
  unfold easeTo. cbn [JSMap.get Sample.engine2 Engine._blobs String.eqb Ascii.eqb Bool.eqb].
  change (dimsOf (Engine.state Sample.engine2)) with (Dims.mk (Fin 1000) (Fin 500) (Fin 1000)).
  cbn [Sample.target Center.x Center.y].
  destruct (unitToPx_10pct 1000 500 1000) as [-> ->].
  js_eval.
  replace (1000 * (10 / 100))%R with 100%R by lra.
  replace (500 * (10 / 100))%R with 50%R by lra.
  repeat split. eexists. split; [reflexivity|]. do 2 eexists. reflexivity.
Qed.

(** A frame that leaves the sample blob in transition. *)
Lemma frame_easing (t dt t' ts : R) (b : BlobInternal) :
  easingBlob t b -> (0 <= t)%R -> (0 <= dt)%R -> (t + dt / 500 < 1)%R ->
  t' = (t + dt / 500)%R ->
  easingBlob t' (frameBlob Sample.stateR (Fin ts) (Fin dt) b).
Proof.
  intros (lr & nr & ->) H0 Hdt Hlt ->. unfold frameBlob.
  rewrite scanBlob_dynamic with (sprite := Sample.sprite32) by reflexivity.
  cbv zeta.
  erewrite (advanceEase_running (t := t) (dur := 500));
    [ | reflexivity | reflexivity | reflexivity | lra | lra | lra | lra ].
  cbn [fst]. unfold commitRect.
  cbn [Blob._sprite Blob._static Blob.set_nextRect Blob.set_ease Blob.set_lastRect
       Blob._nextRect Blob.id Blob.diameter Blob.center Blob.layers Blob.opacity
       Blob.parallaxScale Blob.drift Blob.breath Blob._diamPx Blob._ease Blob._lastRect
       Ease.set_t Ease.from Ease.to Ease.durMs Ease.ease].
  do 2 eexists. reflexivity.
Qed.

(** The frame that completes the transition: the blob is static again,
    without a transition. *)
Lemma frame_done (t dt ts : R) (b : BlobInternal) :
  easingBlob t b -> (0 <= t <= 1)%R -> (0 <= dt)%R -> (1 <= t + dt / 500)%R ->
  exists lr nr,
    frameBlob Sample.stateR (Fin ts) (Fin dt) b
    = Blob.mk "s" (VNum (Fin 10)) Sample.home [] (Fin 1) (Fin 0) Sample.zeroDrift None
              (Some Sample.sprite32) (Fin 32) None lr nr true.
Proof.
  intros (lr & nr & ->) H0 Hdt Hge. unfold frameBlob.
  rewrite scanBlob_dynamic with (sprite := Sample.sprite32) by reflexivity.
  cbv zeta.
  erewrite (advanceEase_done (t := t) (dur := 500));
    [ | reflexivity | reflexivity | reflexivity | lra | lra | lra | lra ].
  unfold _classifyBlobStatic, staticCandidate.
  cbn [Blob.set_ease Blob.set_static Blob.parallaxScale Blob.breath Blob.drift Blob._ease
       Sample.zeroDrift RDrift.ax RDrift.ay RDrift.sx RDrift.sy RDrift.speed].
  unfold falsy, truthy. cbn [strictEq]. decide_reals. cbn [negb orb andb].
  unfold commitRect.
  cbn [Blob._sprite Blob._static Blob.set_nextRect].
  do 2 eexists. reflexivity.
Qed.

Lemma centre_easing (e : Engine) (b : BlobInternal) (t ev x y ts : R) :
  Engine.state e = Sample.stateR -> Engine._blobs e = [("s"%string, b)] ->
  easingBlob t b ->
  easeInOutQuad (Fin t) = Fin ev ->
  x = (500 + (100 - 500) * ev)%R -> y = (250 + (50 - 250) * ev)%R ->
  centreOf e "s" (Fin ts) = Some (Point.mk (Fin x) (Fin y)).
Proof.
  intros Hs Hb (lr & nr & ->) Hev -> ->. unfold centreOf. rewrite Hs, Hb.
  cbn [JSMap.get String.eqb Ascii.eqb Bool.eqb].
  unfold _blobStateNow.
  cbn [Blob._ease Blob.center Blob.parallaxScale Blob.drift Blob.breath
       Ease.ease Ease.t Ease.from Ease.to Point.x Point.y].
  rewrite Hev.
  unfold driftX, driftY, TAU, Math.PI, parallaxPxOf, lerp, orNum, truthy, Sample.zeroDrift, Sample.stateR.
  cbn -[Rplus Rmult Rminus Rdiv IZR Rlt_dec Rle_dec Req_dec_T sin cos Rtrigo1.PI
        Rinv Ropp Zfloor Zceil Rmin Rmax].
  decide_reals.
  cbn -[Rplus Rmult Rminus Rdiv IZR Rlt_dec Rle_dec Req_dec_T sin cos Rtrigo1.PI
        Rinv Ropp Zfloor Zceil Rmin Rmax].
  f_equal. f_equal; f_equal; lra.
Qed.

End SampleTransition.

Section EaseValues.

Lemma ease_low (t : R) : (t < 0.5)%R -> easeInOutQuad (Fin t) = Fin (2 * t * t).
Proof. intros H. unfold easeInOutQuad. cbn [lt]. now rewrite (Rltb_true H). Qed.

Lemma ease_high (t : R) :
  (0.5 <= t)%R -> easeInOutQuad (Fin t) = Fin (1 - (-2 * t + 2) * (-2 * t + 2) / 2).
Proof.
  intros H. unfold easeInOutQuad. cbn [lt]. rewrite (Rltb_false H).
  cbn [Math.pow mul add]. rewrite div_fin by lra. cbn [sub].
  f_equal. lra.
Qed.

Lemma centre_done (e : Engine) (lr nr : option Rect) (ts : R) :
  Engine.state e = Sample.stateR ->
  Engine._blobs e
  = [("s"%string,
      Blob.mk "s" (VNum (Fin 10)) Sample.home [] (Fin 1) (Fin 0) Sample.zeroDrift None
              (Some Sample.sprite32) (Fin 32) None lr nr true)] ->
  centreOf e "s" (Fin ts) = Some (Point.mk (Fin 500) (Fin 250)).
Proof.
  intros Hs Hb. unfold centreOf. rewrite Hs, Hb.
  cbn [JSMap.get String.eqb Ascii.eqb Bool.eqb].
  unfold _blobStateNow.
  cbn [Blob._ease Blob.center Blob.parallaxScale Blob.drift Blob.breath].
  unfold driftX, driftY, TAU, Math.PI, parallaxPxOf, lerp, orNum, truthy,
    Sample.zeroDrift, Sample.stateR, Sample.home.
  cbn -[Rplus Rmult Rminus Rdiv IZR Rlt_dec Rle_dec Req_dec_T sin cos Rtrigo1.PI
        Rinv Ropp Zfloor Zceil Rmin Rmax].
  decide_reals.
  cbn -[Rplus Rmult Rminus Rdiv IZR Rlt_dec Rle_dec Req_dec_T sin cos Rtrigo1.PI
        Rinv Ropp Zfloor Zceil Rmin Rmax].
  f_equal. f_equal; f_equal; lra.
Qed.

End EaseValues.

(** C3 on the code.  A blob at rest at (500, 250) on a 1000 x 500 surface is
    sent to (10%, 10%), that is (100, 50), in 500 ms with [easeInOutQuad], and
    frames run at 0, 125, 250, 375 and 500 ms.  The first four centres approach
    the destination: (500, 250), (450, 225), (300, 150), (150, 75).  The frame
    at 500 ms brings the elapsed fraction to 1: it clears the transition before
    it computes the position, so the centre of that frame is the configured
    centre (500, 250) again, not the destination, and the blob is static
    there. *)
Theorem easeTo_last_sample_is_the_source :
  let e0 := easeTo Sample.engine2 "s" Sample.target (Some (Fin 500))
                   (Some "easeInOutQuad"%string) in
  let e1 := _loop e0 (Fin 0) in
  let e2 := _loop e1 (Fin 125) in
  let e3 := _loop e2 (Fin 250) in
  let e4 := _loop e3 (Fin 375) in
  let e5 := _loop e4 (Fin 500) in
  centreOf e1 "s" (Fin 0) = Some (Point.mk (Fin 500) (Fin 250))
  /\ centreOf e2 "s" (Fin 125) = Some (Point.mk (Fin 450) (Fin 225))
  /\ centreOf e3 "s" (Fin 250) = Some (Point.mk (Fin 300) (Fin 150))
  /\ centreOf e4 "s" (Fin 375) = Some (Point.mk (Fin 150) (Fin 75))
  /\ centreOf e5 "s" (Fin 500) = Some (Point.mk (Fin 500) (Fin 250))
  /\ (exists b, JSMap.get (Engine._blobs e5) "s" = Some b
                /\ Blob._ease b = None /\ Blob._static b = true)
  /\ Point.mk (unitToPx (Center.x Sample.target) (dimsOf Sample.stateR) AxisX)
              (unitToPx (Center.y Sample.target) (dimsOf Sample.stateR) AxisY)
     = Point.mk (Fin 100) (Fin 50).
Proof.
  intros e0 e1 e2 e3 e4 e5.
  destruct eased_sample as (Hc0 & Hs0 & Ht0 & b0 & Hb0 & He0). fold e0 in Hc0, Hs0, Ht0, Hb0.
  assert (Hrest : forall e, Engine.state e = Sample.stateR -> frameState e = Engine.state e).
  { intros e Hs. unfold frameState. rewrite Hs. apply stateR_rest. }
  assert (Hframe : forall e t last b tb,
            Engine.ctx e = true -> Engine.state e = Sample.stateR ->
            Engine._lastFrameTs e = Fin last -> (last <= t)%R ->
            Engine._blobs e = [("s"%string, b)] -> easingBlob tb b ->
            Engine.ctx (_loop e (Fin t)) = true
            /\ Engine.state (_loop e (Fin t)) = Sample.stateR
            /\ Engine._lastFrameTs (_loop e (Fin t)) = Fin t
            /\ Engine._blobs (_loop e (Fin t))
               = [("s"%string, frameBlob Sample.stateR (Fin t) (Fin (t - last)) b)]).
  { intros e t last b tb Hc Hs Hl Hle Hb (lr & nr & Heq).
    destruct (@loop_single e t last "s" b Sample.sprite32 Hc) as (H1 & H2 & H3 & H4);
      try (rewrite Hs; reflexivity); try assumption; try (subst b; reflexivity).
    - now apply Hrest.
    - rewrite Hs in H2, H4. auto. }
  destruct (Hframe e0 0%R 0%R b0 0%R Hc0 Hs0 Ht0 (Rle_refl _) Hb0 He0)
    as (Hc1 & Hs1 & Ht1 & Hb1). fold e1 in Hc1, Hs1, Ht1, Hb1.
  assert (He1 : easingBlob 0 (frameBlob Sample.stateR (Fin 0) (Fin (0 - 0)) b0))
    by (eapply frame_easing; [exact He0 | lra | lra | lra | lra]).
  destruct (Hframe e1 125%R 0%R _ 0%R Hc1 Hs1 Ht1 ltac:(lra) Hb1 He1)
    as (Hc2 & Hs2 & Ht2 & Hb2). fold e2 in Hc2, Hs2, Ht2, Hb2.
  assert (He2 : easingBlob 0.25 (frameBlob Sample.stateR (Fin 125) (Fin (125 - 0))
                                   (frameBlob Sample.stateR (Fin 0) (Fin (0 - 0)) b0)))
    by (eapply frame_easing; [exact He1 | lra | lra | lra | lra]).
  destruct (Hframe e2 250%R 125%R _ 0.25%R Hc2 Hs2 Ht2 ltac:(lra) Hb2 He2)
    as (Hc3 & Hs3 & Ht3 & Hb3). fold e3 in Hc3, Hs3, Ht3, Hb3.
  match type of Hb3 with _ = [(_, ?b)] =>
    assert (He3 : easingBlob 0.5 b)
      by (eapply frame_easing; [exact He2 | lra | lra | lra | lra])
  end.
  destruct (Hframe e3 375%R 250%R _ 0.5%R Hc3 Hs3 Ht3 ltac:(lra) Hb3 He3)
    as (Hc4 & Hs4 & Ht4 & Hb4). fold e4 in Hc4, Hs4, Ht4, Hb4.
  match type of Hb4 with _ = [(_, ?b)] =>
    assert (He4 : easingBlob 0.75 b)
      by (eapply frame_easing; [exact He3 | lra | lra | lra | lra])
  end.
  destruct (Hframe e4 500%R 375%R _ 0.75%R Hc4 Hs4 Ht4 ltac:(lra) Hb4 He4)
    as (Hc5 & Hs5 & Ht5 & Hb5). fold e5 in Hc5, Hs5, Ht5, Hb5.
  match type of Hb5 with _ = [(_, frameBlob _ _ _ ?b)] =>
    destruct (@frame_done 0.75 (500 - 375) 500 b He4) as (lr & nr & Hdone); try lra
  end.
  rewrite Hdone in Hb5.
  split; [|split; [|split; [|split; [|split; [|split]]]]].
  - eapply centre_easing; [exact Hs1 | exact Hb1 | exact He1 | apply ease_low; lra | lra | lra].
  - eapply centre_easing; [exact Hs2 | exact Hb2 | exact He2 | apply ease_low; lra | lra | lra].
  - eapply centre_easing; [exact Hs3 | exact Hb3 | exact He3 | apply ease_high; lra | lra | lra].
  - eapply centre_easing; [exact Hs4 | exact Hb4 | exact He4 | apply ease_high; lra | lra | lra].
  - eapply centre_done; [exact Hs5 | exact Hb5].
  - rewrite Hb5. cbn [JSMap.get String.eqb Ascii.eqb Bool.eqb].
    eexists. split; [reflexivity|]. split; reflexivity.
  - change (dimsOf Sample.stateR) with (Dims.mk (Fin 1000) (Fin 500) (Fin 1000)).
    cbn [Sample.target Center.x Center.y].
    destruct (unitToPx_10pct 1000 500 1000) as [-> ->].
    f_equal; f_equal; lra.
Qed.

(** In the untyped sibling the call that brings the fraction to 1 still
    returns the eased centre: the last sample is the destination (100, 50). *)
Lemma untyped_last_sample_is_the_destination (lr nr : option Rect) (tSec : R) :
  let b := Blob.mk "s" (VNum (Fin 10)) Sample.home [] (Fin 1) (Fin 0) Sample.zeroDrift None
             (Some Sample.sprite32) (Fin 32)
             (Some (Ease.mk (Point.mk (Fin 500) (Fin 250)) (Point.mk (Fin 100) (Fin 50))
                            (Fin 0.98) (Fin 500) easeInOutQuad))
             lr nr false in
  let r := Untyped._blobStateNow Sample.stateR b (Fin tSec) (parallaxPxOf Sample.stateR) false in
  BlobState.cx (fst (fst r)) = Fin 100 /\ BlobState.cy (fst (fst r)) = Fin 50
  /\ Blob._ease (snd (fst r)) = None.
Proof.
  intros b r. unfold r, b, Untyped._blobStateNow.
  unfold TAU, Math.PI, parallaxPxOf, lerp, clamp, orNum, truthy, easeInOutQuad, ge,
    Sample.zeroDrift, Sample.stateR, Sample.home.
  repeat progress
    (cbn -[Rplus Rmult Rminus Rdiv IZR Rlt_dec Rle_dec Req_dec_T sin cos Rtrigo1.PI
           Rinv Ropp Zfloor Zceil Rmin Rmax];
     decide_reals).
  repeat split; f_equal; lra.
Qed.
(* ===================================================================== *)
(** * Further properties of the engine *)
(* ===================================================================== *)

(** ** Rectangle helpers *)

Section RectMore.



Lemma Rleb_true_inv (x y : R) : Rleb x y = true -> (x <= y)%R.
Proof. destruct (Rleb_spec x y); [auto | discriminate]. Qed.







End RectMore.

(** ** The merge of dirty rectangles, continued *)

Section MergeMore.

Lemma mergeLoop_length work out :
  (length (mergeLoop work out) <= length work + length out)%nat
  /\ (length out <= length (mergeLoop work out))%nat
  /\ (work <> [] -> length out < length (mergeLoop work out))%nat.
Proof.
  funelim (mergeLoop work out).
  - destruct H as (Hle & Hge & _).
    rewrite length_app in *. simpl in *.
    pose proof (absorb_length cur rest). rewrite (pop_length _ E).
    repeat split; try lia.
  - match goal with Hp : pop _ = None |- _ => rewrite (pop_None _ Hp) end.
    simpl. repeat split; try lia. intros Hn. now contradiction Hn.
Qed.

(** X3.  Merging never yields more rectangles than it was given, and it
    yields none only when it was given none. *)
Theorem mergeRects_count (rects : list Rect) (tolerance : number) :
  (length (mergeRects rects tolerance) <= length rects)%nat
  /\ (mergeRects rects tolerance = [] <-> rects = []).
Proof.
  unfold mergeRects.
  destruct (length rects <=? 1)%nat eqn:Hlen.
  - split; [lia | tauto].
  - apply Nat.leb_gt in Hlen.
    set (work := map (fun r => inflateRect r tolerance) rects).
    destruct (mergeLoop_length work []) as (Hle & _ & Hgt).
    rewrite length_map. unfold work in Hle at 2. rewrite length_map in Hle.
    simpl in Hle. split; [lia|].
    split; intros H.
    + exfalso. apply (f_equal (@length _)) in H. rewrite length_map in H.
      assert (Hw : work <> []).
      { unfold work. destruct rects; simpl in *; [lia | discriminate]. }
      specialize (Hgt Hw). simpl in *. lia.
    + subst rects. simpl in Hlen. lia.
Qed.












End MergeMore.

(** ** Numeric helpers *)

Section NumberMore.

Lemma clamp_within (v : number) (a b : R) :
  (a <= b)%R -> v <> NaN -> within a b (clamp v (Fin a) (Fin b)).
Proof.
  intros Hab Hv. unfold clamp, within.
  destruct v as [| | |x]; [contradiction| | |].
  - exists b. cbn. split; [reflexivity | lra].
  - exists a. change (Math.max (Fin a) NInf) with (Fin a). rewrite min_fin.
    rewrite Rmin_right by lra. split; [reflexivity | lra].
  - rewrite max_fin, min_fin. eexists. split; [reflexivity|].
    unfold Rmin, Rmax. repeat destruct (Rle_dec _ _); lra.
Qed.

(** X6.  [clamp v a b] with [a <= b]: the result lies in [[a, b]] for every
    [v] but [NaN], infinities included; a value already in the range is
    returned as it is; [NaN] stays [NaN]; clamping twice is clamping once. *)
Theorem clamp_range (v : number) (a b : R) :
  (a <= b)%R ->
  (v <> NaN -> within a b (clamp v (Fin a) (Fin b)))
  /\ (within a b v -> clamp v (Fin a) (Fin b) = v)
  /\ (v = NaN -> clamp v (Fin a) (Fin b) = NaN)
  /\ clamp (clamp v (Fin a) (Fin b)) (Fin a) (Fin b) = clamp v (Fin a) (Fin b).
Proof.
  intros Hab. split; [now apply clamp_within|]. split; [|split].
  - intros (r & -> & Hr). apply clamp_fin_mid; lra.
  - intros ->. reflexivity.
  - destruct v as [| | |x] eqn:Hv; [reflexivity| | |].
    + destruct (@clamp_within PInf a b Hab) as (r & Hr & Hin); [discriminate|].
      rewrite Hr. apply clamp_fin_mid; lra.
    + destruct (@clamp_within NInf a b Hab) as (r & Hr & Hin); [discriminate|].
      rewrite Hr. apply clamp_fin_mid; lra.
    + destruct (@clamp_within (Fin x) a b Hab) as (r & Hr & Hin); [discriminate|].
      rewrite Hr. apply clamp_fin_mid; lra.
Qed.

Lemma clamp_range_witness :
  within 0 1 (clamp PInf (Fin 0) (Fin 1))
  /\ clamp (clamp (Fin 7) (Fin 0) (Fin 1)) (Fin 0) (Fin 1) = clamp (Fin 7) (Fin 0) (Fin 1).
Proof.
  assert (H01 : (0 <= 1)%R) by lra.
  split.
  - apply (proj1 (@clamp_range PInf 0 1 H01)). discriminate.
  - exact (proj2 (proj2 (proj2 (@clamp_range (Fin 7) 0 1 H01)))).
Defined.




End NumberMore.

(** ** Unit resolver, continued *)

Section UnitMore.










Lemma sign_none (c : ascii) (l : list ascii) :
  Ascii.eqb c "-" = false -> Ascii.eqb c "+" = false ->
  Str.sign (c :: l) = (false, c :: l).
Proof.
  intros Hm Hp. unfold Str.sign.
  destruct (Ascii.eqb_spec c "-") as [->|]; [discriminate|].
  destruct (Ascii.eqb_spec c "+") as [->|]; [discriminate|].
  destruct c as [[] [] [] [] [] [] [] []]; try reflexivity; congruence.
Qed.





End UnitMore.

(** ** Operations on the registry, continued *)

Section RegistryMore.

Variable V : Type.
Implicit Types (m : JSMap.T V) (k : string) (v : V).

Lemma delete_set_fresh m k v :
  ~ In k (JSMap.keys m) -> JSMap.delete (JSMap.set m k v) k = m.
Proof.
  induction m as [|[k' v'] m IH]; simpl.
  - now rewrite String.eqb_refl.
  - destruct (String.eqb_spec k' k) as [->|Hne]; simpl.
    + intros H. exfalso. apply H. now left.
    + intros H. destruct (String.eqb_spec k' k); [contradiction|].
      f_equal. apply IH. intuition.
Qed.

Lemma get_delete_other m k k' :
  k' <> k -> JSMap.get (JSMap.delete m k) k' = JSMap.get m k'.
Proof.
  intros Hne. induction m as [|[k0 v0] m IH]; simpl; [reflexivity|].
  destruct (String.eqb_spec k0 k) as [->|H0]; simpl.
  - destruct (String.eqb_spec k k'); [congruence | reflexivity].
  - destruct (String.eqb_spec k0 k'); [reflexivity | assumption].
Qed.

Lemma keys_delete m k :
  NoDup (JSMap.keys m) ->
  JSMap.keys (JSMap.delete m k) = filter (fun x => negb (String.eqb x k)) (JSMap.keys m).
Proof.
  induction m as [|[k0 v0] m IH]; simpl; [reflexivity|].
  intros Hnd. inversion Hnd as [|? ? Hnot Hnd']; subst.
  destruct (String.eqb_spec k0 k) as [->|H0]; simpl.
  - symmetry. apply forallb_filter_id. apply forallb_forall. intros x Hx.
    destruct (String.eqb_spec x k) as [->|]; [contradiction | reflexivity].
  - f_equal. now apply IH.
Qed.

Lemma keys_mapValues (f : V -> V) m : JSMap.keys (mapValues f m) = JSMap.keys m.
Proof. unfold JSMap.keys, mapValues. rewrite map_map. reflexivity. Qed.

End RegistryMore.

(** X9.  [removeBlob] of a registered identifier removes that entry and no
    other: the identifier is no longer found, every other identifier still
    maps to its blob, the remaining keys keep their order, the size drops by
    one and the static layer is marked stale.  And it undoes [addBlob]:
    removing the identifier that [addBlob] returned, when that identifier was
    new, gives back the registry as it was. *)
Theorem removeBlob_removes (e : Engine) :
  (forall id, NoDup (keysOf e) -> In id (keysOf e) ->
     let e' := removeBlob e id in
     JSMap.get (Engine._blobs e') id = None
     /\ (forall k, k <> id -> JSMap.get (Engine._blobs e') k = JSMap.get (Engine._blobs e) k)
     /\ keysOf e' = filter (fun k => negb (String.eqb k id)) (keysOf e)
     /\ S (JSMap.size (Engine._blobs e')) = JSMap.size (Engine._blobs e)
     /\ Engine._needRebuildStatic e' = true
     /\ Engine._idSeq e' = Engine._idSeq e)
  /\ (forall cfg, ~ In (fst (addBlob e cfg)) (keysOf e) ->
        let e' := removeBlob (snd (addBlob e cfg)) (fst (addBlob e cfg)) in
        Engine._blobs e' = Engine._blobs e
        /\ Engine._needRebuildStatic e' = true).
Proof.
  split.
  - intros id Hnd Hin e'. subst e'. unfold removeBlob, keysOf in *.
    destruct (JSMap.get (Engine._blobs e) id) as [b|] eqn:Hget.
    2:{ apply get_None_iff in Hget. contradiction. }
    cbn [Engine._blobs Engine.set_needRebuildStatic Engine.set_blobs
         Engine._needRebuildStatic Engine._idSeq].
    assert (Hk := keys_delete (Engine._blobs e) id Hnd).
    split; [|split; [|split; [|split; [|split]]]]; try reflexivity.
    + apply get_None_iff. rewrite Hk. intros H. apply filter_In in H.
      destruct H as [_ H]. now rewrite String.eqb_refl in H.
    + intros k Hne. now apply get_delete_other.
    + exact Hk.
    + rewrite !size_keys, Hk. clear Hk Hget.
      induction (JSMap.keys (Engine._blobs e)) as [|k ks IH]; [contradiction|].
      inversion Hnd as [|? ? Hnot Hnd']; subst. simpl.
      destruct (String.eqb_spec k id) as [->|Hne]; simpl.
      * f_equal. f_equal. apply forallb_filter_id, forallb_forall. intros x Hx.
        destruct (String.eqb_spec x id) as [->|]; [contradiction | reflexivity].
      * f_equal. apply IH; auto. destruct Hin; [contradiction | assumption].
  - intros cfg Hfresh e'. subst e'. unfold removeBlob.
    unfold addBlob, keysOf in *. cbn [fst snd] in *.
    cbn [Engine._blobs Engine.set_needRebuildStatic Engine.set_blobs Engine.set_idSeq].
    rewrite get_set_same.
    cbn [Engine._blobs Engine.set_needRebuildStatic Engine.set_blobs Engine.set_idSeq
         Engine._needRebuildStatic].
    split; [|reflexivity]. now apply delete_set_fresh.
Qed.

Lemma removeBlob_removes_witness :
  JSMap.get (Engine._blobs (removeBlob Sample.engine1 "d")) "d" = None
  /\ Engine._blobs
       (removeBlob (snd (addBlob Sample.engine0 Sample.minimalCfg))
                   (fst (addBlob Sample.engine0 Sample.minimalCfg)))
     = Engine._blobs Sample.engine0.
Proof.
  split.
  - assert (Hnd : NoDup (keysOf Sample.engine1))
      by (repeat constructor; simpl; tauto).
    assert (Hin : In "d"%string (keysOf Sample.engine1)) by (simpl; auto).
    exact (proj1 (proj1 (removeBlob_removes Sample.engine1) "d"%string Hnd Hin)).
  - assert (Hfresh : ~ In (fst (addBlob Sample.engine0 Sample.minimalCfg))
                          (keysOf Sample.engine0)) by (simpl; tauto).
    exact (proj1 (proj2 (removeBlob_removes Sample.engine0) Sample.minimalCfg Hfresh)).
Defined.

(** ** Life cycle *)

Section LifecycleMore.

Lemma filter_idem (A : Type) (f : A -> bool) (l : list A) :
  filter f (filter f l) = filter f l.
Proof.
  induction l as [|a l IH]; simpl; [reflexivity|].
  destruct (f a) eqn:E; simpl; [rewrite E; f_equal|]; exact IH.
Qed.

Lemma cancel_fresh (h : Host) :
  Forall (fun k => k < Host.nextHandle h)%nat (Host.pending h) ->
  Host.pending (Host.cancelAnimationFrame (Host.nextHandle h)
                  (snd (Host.requestAnimationFrame h)))
  = Host.pending h.
Proof.
  intros H. unfold Host.cancelAnimationFrame, Host.requestAnimationFrame.
  cbn [snd Host.pending Host.nextHandle]. rewrite filter_app. simpl.
  rewrite Nat.eqb_refl. simpl. rewrite app_nil_r.
  apply forallb_filter_id, forallb_forall. intros k Hk.
  rewrite Forall_forall in H. specialize (H _ Hk).
  destruct (Nat.eqb_spec k (Host.nextHandle h)); [lia | reflexivity].
Qed.

(** X10.  [start] is idempotent: a second call, whatever the clock shows,
    changes nothing, so a running engine never has two frame loops. *)
Theorem start_idempotent (e : Engine) (now now' : number) :
  start (start e now) now' = start e now.
Proof.
  destruct (State.running (Engine.state e)) eqn:Hr.
  - assert (H : start e now = e) by (unfold start; now rewrite Hr).
    rewrite H. unfold start. now rewrite Hr.
  - destruct (Engine.ctx e) eqn:Hc.
    + assert (H : start e now
                  = reschedule (Engine.set_lastFrameTs now
                      (Engine.set_state (State.set_running true (Engine.state e)) e)))
        by (unfold start; now rewrite Hr, Hc).
      rewrite H. unfold start, reschedule. reflexivity.
    + assert (H : start e now = e) by (unfold start; now rewrite Hr, Hc).
      rewrite H. unfold start. now rewrite Hr, Hc.
Qed.

(** X11.  [stop] halts the loop: a frame callback that still fires after it
    does nothing at all, the handle the engine held is no longer pending, and
    neither the canvas nor the blobs are touched; stopping twice is stopping
    once.  Started on an idle engine and stopped again, the engine leaves the
    host's queue of callbacks as it found it. *)
Theorem stop_halts_the_loop (e : Engine) :
  (forall ts, _loop (stop e) ts = stop e)
  /\ stop (stop e) = stop e
  /\ State.running (Engine.state (stop e)) = false
  /\ ~ In (Engine._raf e) (Host.pending (Engine.host (stop e)))
  /\ Engine.canvas (stop e) = Engine.canvas e
  /\ Engine._blobs (stop e) = Engine._blobs e
  /\ (Engine.ctx e = true -> State.running (Engine.state e) = false ->
      Forall (fun k => k < Host.nextHandle (Engine.host e))%nat
             (Host.pending (Engine.host e)) ->
      forall now,
        let e1 := start e now in
        State.running (Engine.state e1) = true
        /\ Engine._lastFrameTs e1 = now
        /\ Host.pending (Engine.host e1) = Host.pending (Engine.host e) ++ [Engine._raf e1]
        /\ Host.pending (Engine.host (stop e1)) = Host.pending (Engine.host e)).
Proof.
  split; [|split; [|split; [|split; [|split; [|split]]]]]; try reflexivity.
  - unfold stop, Engine.set_host, Host.cancelAnimationFrame.
    cbn -[filter]. now rewrite filter_idem.
  - unfold stop, Host.cancelAnimationFrame. cbn -[filter In].
    intros H. apply filter_In in H. destruct H as [_ H].
    now rewrite Nat.eqb_refl in H.
  - intros Hc Hr Hh now e1. subst e1. unfold start. rewrite Hr, Hc. cbn [orb negb].
    unfold reschedule.
    cbn [Host.requestAnimationFrame Engine.set_raf Engine.state Engine.set_state
         Engine.set_lastFrameTs State.running State.set_running Engine._lastFrameTs
         Engine.host Engine._raf Host.pending].
    repeat (split; [reflexivity|]).
    unfold stop.
    cbn [Engine.set_host Engine.host Engine._raf Engine.set_state Engine.state].
    exact (cancel_fresh (Engine.host e) Hh).
Qed.

Lemma stop_halts_the_loop_witness :
  Host.pending (Engine.host (stop (start Sample.engine0 (Fin 0))))
  = Host.pending (Engine.host Sample.engine0).
Proof.
  assert (Hh : Forall (fun k => k < Host.nextHandle (Engine.host Sample.engine0))%nat
                      (Host.pending (Engine.host Sample.engine0))) by constructor.
  exact (proj2 (proj2 (proj2
           (proj2 (proj2 (proj2 (proj2 (proj2 (proj2 (stop_halts_the_loop Sample.engine0))))))
              eq_refl eq_refl Hh (Fin 0))))).
Defined.

(** X12.  [destroy] is final.  The registry is empty and the engine is
    stopped; afterwards [start], a late frame callback, a step, a full or a
    partial redraw and a visibility change all leave the engine exactly as
    [destroy] left it, so nothing is drawn any more; destroying twice is
    destroying once.  The canvas and the static layer keep what was drawn. *)
Theorem destroy_is_terminal (e : Engine) :
  let d := destroy e in
  Engine._blobs d = []
  /\ State.running (Engine.state d) = false
  /\ (forall now, start d now = d)
  /\ (forall ts, _loop d ts = d)
  /\ (forall ts dt, _step d ts dt = d)
  /\ (forall ts, _fullRedraw d ts = d)
  /\ (forall ts rects, _redrawDirty d ts rects = d)
  /\ (forall hidden now, _onVisibility d hidden now = d)
  /\ destroy d = d
  /\ Engine.canvas d = Engine.canvas e
  /\ Engine._staticLayer d = Engine._staticLayer e.
Proof.
  intros d. subst d.
  assert (Hstop : stop (destroy e) = destroy e).
  { unfold destroy, stop, Engine.set_host, Host.cancelAnimationFrame.
    cbn -[filter]. now rewrite filter_idem. }
  split; [reflexivity|]. split; [reflexivity|].
  split; [reflexivity|]. split; [reflexivity|]. split; [reflexivity|].
  split.
  { intros ts. unfold _fullRedraw, _buildStaticLayer, destroy.
    cbn -[stop]. destruct (Engine._needRebuildStatic (stop e)); reflexivity. }
  split; [reflexivity|].
  split.
  { intros [|] now; unfold _onVisibility; [exact Hstop|].
    destruct (State.prefersReduce (Engine.state (destroy e))); reflexivity. }
  split; [|split; reflexivity].
  unfold destroy at 1. rewrite Hstop. reflexivity.
Qed.

(** X13.  The visibility listener.  Hiding the page stops the engine and
    cancels its pending callback.  Showing it again, unless the user prefers
    reduced motion, leaves the engine running with one pending callback and
    with the frame clock reset to the moment of return, so the hidden time is
    not counted as elapsed; blobs and canvas are untouched.  With reduced
    motion, showing the page changes nothing. *)
Theorem visibility_change (e : Engine) :
  (forall now,
     State.running (Engine.state (_onVisibility e true now)) = false
     /\ ~ In (Engine._raf e) (Host.pending (Engine.host (_onVisibility e true now))))
  /\ (Engine.ctx e = true -> State.prefersReduce (Engine.state e) = false ->
      forall now1 now2,
        let e' := _onVisibility (_onVisibility e true now1) false now2 in
        State.running (Engine.state e') = true
        /\ Engine._lastFrameTs e' = now2
        /\ In (Engine._raf e') (Host.pending (Engine.host e'))
        /\ Engine._blobs e' = Engine._blobs e
        /\ Engine.canvas e' = Engine.canvas e)
  /\ (State.prefersReduce (Engine.state e) = true ->
      forall now, _onVisibility e false now = e).
Proof.
  split; [|split].
  - intros now. unfold _onVisibility. split; [reflexivity|].
    unfold stop, Host.cancelAnimationFrame. cbn -[filter In].
    intros H. apply filter_In in H. destruct H as [_ H].
    now rewrite Nat.eqb_refl in H.
  - intros Hc Hp now1 now2 e'. subst e'.
    unfold _onVisibility.
    replace (State.prefersReduce (Engine.state (stop e))) with false by (symmetry; exact Hp).
    cbn [negb]. unfold start.
    replace (Engine.ctx (stop e)) with true by (symmetry; exact Hc).
    change (State.running (Engine.state (stop e))) with false. cbn [orb negb].
    unfold reschedule.
    cbn [Host.requestAnimationFrame Engine.set_raf Engine.state Engine.set_state
         Engine.set_lastFrameTs State.running State.set_running Engine._lastFrameTs
         Engine.host Engine._raf Host.pending Engine.canvas Engine.ctx Engine._blobs].
    repeat split. apply in_or_app. right. now left.
  - intros Hp now. unfold _onVisibility. now rewrite Hp.
Qed.

Lemma visibility_change_witness :
  State.running
    (Engine.state (_onVisibility (_onVisibility Sample.engine2 true (Fin 10)) false (Fin 20)))
  = true
  /\ Engine._lastFrameTs
       (_onVisibility (_onVisibility Sample.engine2 true (Fin 10)) false (Fin 20))
     = Fin 20.
Proof.
  destruct (proj1 (proj2 (visibility_change Sample.engine2)) eq_refl eq_refl (Fin 10) (Fin 20))
    as (Hr & Ht & _).
  split; [exact Hr | exact Ht].
Defined.

End LifecycleMore.

(** ** Setters *)

Section SetterMore.

Lemma toInt32_range (v : number) :
  exists k, (- 2 ^ 31 <= k < 2 ^ 31)%Z /\ toInt32 v = Fin (IZR k).
Proof.
  destruct v as [| | |r]; try (exists 0%Z; split; [lia | reflexivity]).
  unfold toInt32. eexists. split; [|reflexivity].
  match goal with |- context [(?z mod 2 ^ 32)%Z] =>
    pose proof (Z.mod_pos_bound z (2 ^ 32)%Z ltac:(lia)) end.
  lia.
Qed.

Lemma toInt32_small (r : R) :
  (0 <= r < IZR (2 ^ 31))%R -> toInt32 (Fin r) = Fin (IZR (Zfloor r)).
Proof.
  intros [H0 H1]. unfold toInt32.
  destruct (Rle_dec 0 r) as [_|Hn]; [|contradiction].
  assert (Hf0 : (0 <= Zfloor r)%Z).
  { apply Zfloor_lub. simpl. lra. }
  assert (Hf1 : (Zfloor r < 2 ^ 31)%Z).
  { apply lt_IZR. pose proof (Zfloor_bound r). lra. }
  do 2 f_equal. rewrite Z.mod_small; lia.
Qed.

Lemma toInt32_nonpos (r : R) :
  (- IZR (2 ^ 31) - 1 < r < 1)%R ->
  exists k, (k <= 0)%Z /\ toInt32 (Fin r) = Fin (IZR k).
Proof.
  intros [H0 H1]. unfold toInt32.
  destruct (Rle_dec 0 r) as [Hp|Hn].
  - assert (Zfloor r = 0%Z) by (apply Zfloor_eq; simpl; lra).
    exists 0%Z. split; [lia|]. rewrite H. reflexivity.
  - pose proof (Zceil_bound r) as Hb.
    assert (Hc1 : (Zceil r < 1)%Z) by (apply lt_IZR; lra).
    assert (Hc0 : (- 2 ^ 31 - 1 < Zceil r)%Z).
    { apply lt_IZR. rewrite minus_IZR, opp_IZR. lra. }
    exists (Zceil r). split; [lia|]. do 2 f_equal.
    rewrite Z.mod_small; lia.
Qed.

(** X14.  Whatever [setFpsCap] is given, the stored cap is a whole number
    from 0 to 2^31 - 1, never negative and never [NaN]: a value in
    [[0, 2^31)] is truncated to its integer part, a value in (-2^31 - 1, 1)
    and the three special values give 0, which means no cap. *)
Theorem setFpsCap_range (e : Engine) (v : number) :
  exists k,
    State.fpsCap (Engine.state (setFpsCap e v)) = Fin (IZR k)
    /\ (0 <= k < 2 ^ 31)%Z
    /\ (forall r, v = Fin r -> (0 <= r < IZR (2 ^ 31))%R -> k = Zfloor r)
    /\ (forall r, v = Fin r -> (- IZR (2 ^ 31) - 1 < r < 1)%R -> k = 0%Z)
    /\ (v = NaN \/ v = PInf \/ v = NInf -> k = 0%Z).
Proof.
  unfold setFpsCap.
  cbn [Engine.state Engine.set_state State.fpsCap State.set_fpsCap].
  destruct (toInt32_range v) as (k & Hk & Heq). rewrite Heq, max_fin.
  exists (Z.max 0 k).
  assert (Hmax : Rmax 0 (IZR k) = IZR (Z.max 0 k)).
  { destruct (Z.le_gt_cases 0 k) as [H|H].
    - rewrite Z.max_r by lia. apply Rmax_right. apply IZR_le. lia.
    - rewrite Z.max_l by lia. apply Rmax_left. apply IZR_le. lia. }
  rewrite Hmax. split; [reflexivity|]. split; [lia|].
  split; [|split].
  - intros r -> Hr. rewrite (toInt32_small Hr) in Heq.
    inversion Heq as [H]. apply eq_IZR in H. subst k.
    apply Z.max_r. apply Zfloor_lub. simpl. lra.
  - intros r -> Hr. destruct (toInt32_nonpos Hr) as (k' & Hk' & Heq').
    rewrite Heq' in Heq. inversion Heq as [H]. apply eq_IZR in H. subst k'. lia.
  - intros [-> | [-> | ->]]; simpl in Heq; inversion Heq as [H];
      apply eq_IZR in H; subst k; reflexivity.
Qed.

Lemma max0_nonneg (a : number) :
  a <> NaN -> (Fin 0 <=? Math.max (Fin 0) a) = true.
Proof.
  destruct a as [| | |r]; [contradiction| | |]; intros _.
  - reflexivity.
  - change (Math.max (Fin 0) NInf) with (Fin 0). cbn [le]. now rewrite Rleb_true by lra.
  - rewrite max_fin. cbn [le]. rewrite Rleb_true; [reflexivity | apply Rmax_l].
Qed.

Lemma max0_id (a : number) : (Fin 0 <=? a) = true -> Math.max (Fin 0) a = a.
Proof.
  destruct a as [| | |r]; cbn [le]; try discriminate; [reflexivity|].
  intros H. apply Rleb_true_inv in H. rewrite max_fin. f_equal. now apply Rmax_right.
Qed.

Lemma orNum_not_NaN (a : number) : orNum a (Fin 0) <> NaN.
Proof.
  unfold orNum, truthy. destruct a as [| | |r]; try discriminate.
  destruct (negb (Reqb r 0)); discriminate.
Qed.

Lemma orNum_nonneg (a : number) : (Fin 0 <=? a) = true -> orNum a (Fin 0) = a.
Proof.
  unfold orNum, truthy. destruct a as [| | |r]; cbn [le]; try discriminate; [reflexivity|].
  intros _. destruct (Reqb_spec r 0) as [->|]; reflexivity.
Qed.

(** X15.  The setters sanitise what they store.  [setAlpha] stores a value of
    [[0, 1]] for every argument but [NaN], and a value of the range as it is.
    [setParallax] always stores a number that is at least 0 (0 for [NaN]),
    and a non-negative argument as it is.  [setBlurPx] stores a number that
    is at least 0 for every argument but [NaN], a non-negative argument as it
    is, and marks the static layer stale.  [setAlpha] and [setParallax] leave
    the blobs alone. *)
Theorem setters_sanitise (e : Engine) (v : number) :
  (v <> NaN -> within 0 1 (State.alpha (Engine.state (setAlpha e v))))
  /\ (within 0 1 v -> State.alpha (Engine.state (setAlpha e v)) = v)
  /\ (Fin 0 <=? State.parallaxVmax (Engine.state (setParallax e v))) = true
  /\ ((Fin 0 <=? v) = true -> State.parallaxVmax (Engine.state (setParallax e v)) = v)
  /\ (v <> NaN -> (Fin 0 <=? State.blurPx (Engine.state (setBlurPx e v))) = true)
  /\ ((Fin 0 <=? v) = true -> State.blurPx (Engine.state (setBlurPx e v)) = v)
  /\ Engine._blobs (setAlpha e v) = Engine._blobs e
  /\ Engine._blobs (setParallax e v) = Engine._blobs e
  /\ Engine._needRebuildStatic (setBlurPx e v) = true.
Proof.
  unfold setAlpha, setParallax, setBlurPx, rebuildAll.
  cbn [Engine.state Engine.set_state State.alpha State.set_alpha State.parallaxVmax
       State.set_parallaxVmax State.blurPx State.set_blurPx Engine._blobs
       Engine.set_needRebuildStatic Engine.set_blobs Engine._needRebuildStatic].
  assert (H01 : (0 <= 1)%R) by lra.
  split; [now apply clamp_within|].
  split; [intros (r & -> & Hr); apply clamp_fin_mid; lra|].
  split; [apply max0_nonneg, orNum_not_NaN|].
  split; [intros H; rewrite (orNum_nonneg _ H); now apply max0_id|].
  split; [apply max0_nonneg|].
  split; [apply max0_id|].
  repeat split.
Qed.

Lemma setters_sanitise_witness :
  within 0 1 (State.alpha (Engine.state (setAlpha Sample.engine0 (Fin 7))))
  /\ State.parallaxVmax (Engine.state (setParallax Sample.engine0 (Fin 2))) = Fin 2.
Proof.
  destruct (setters_sanitise Sample.engine0 (Fin 7)) as (Ha & _).
  destruct (setters_sanitise Sample.engine0 (Fin 2)) as (_ & _ & _ & Hp & _).
  split.
  - apply Ha. discriminate.
  - apply Hp. simpl. apply Rleb_true. lra.
Defined.

End SetterMore.

(** ** Sprites *)

Section SpriteMore.

Lemma mapValues_idem (V : Type) (f : V -> V) (m : JSMap.T V) :
  (forall v, f (f v) = f v) -> mapValues f (mapValues f m) = mapValues f m.
Proof.
  intros H. unfold mapValues. rewrite map_map. apply map_ext.
  intros [k v]. simpl. now rewrite H.
Qed.

Lemma rebuildSprite_idem (s : State) (b : BlobInternal) :
  _rebuildSprite s (_rebuildSprite s b) = _rebuildSprite s b.
Proof. reflexivity. Qed.

(** X16.  Rebuilding the sprites is idempotent: [rebuildAll] twice gives the
    engine [rebuildAll] gives once, and so does [setBlurPx] twice with the
    same radius.  A rebuild keeps the keys of the registry and their order,
    and of each blob it replaces only the sprite and its pixel diameter:
    classification, easing and the last drawn rectangle stay. *)
Theorem rebuildAll_idempotent (e : Engine) (px : number) :
  rebuildAll (rebuildAll e) = rebuildAll e
  /\ setBlurPx (setBlurPx e px) px = setBlurPx e px
  /\ JSMap.keys (Engine._blobs (rebuildAll e)) = JSMap.keys (Engine._blobs e)
  /\ (forall k b', In (k, b') (Engine._blobs (rebuildAll e)) ->
        exists b, In (k, b) (Engine._blobs e)
                  /\ b' = _rebuildSprite (Engine.state e) b
                  /\ Blob._static b' = Blob._static b
                  /\ Blob._ease b' = Blob._ease b
                  /\ Blob._lastRect b' = Blob._lastRect b).
Proof.
  split; [|split; [|split]].
  - unfold rebuildAll.
    cbn [Engine.state Engine._blobs Engine.set_needRebuildStatic Engine.set_blobs].
    rewrite mapValues_idem by apply rebuildSprite_idem. reflexivity.
  - unfold setBlurPx, rebuildAll.
    cbn [Engine.state Engine._blobs Engine.set_needRebuildStatic Engine.set_blobs
         Engine.set_state State.blurPx State.set_blurPx].
    rewrite mapValues_idem by apply rebuildSprite_idem. reflexivity.
  - apply keys_mapValues.
  - intros k b' H. unfold rebuildAll in H.
    cbn [Engine._blobs Engine.set_needRebuildStatic Engine.set_blobs] in H.
    apply In_mapValues in H. destruct H as (b & Hin & ->).
    exists b. repeat split; assumption.
Qed.

Lemma round_bound (x : R) :
  exists k, Math.round (Fin x) = Fin (IZR k) /\ (x - 1 / 2 < IZR k <= x + 1 / 2)%R.
Proof.
  exists (Zfloor (x + 1 / 2)). split; [reflexivity|].
  pose proof (Zfloor_bound (x + 1 / 2)). lra.
Qed.

Lemma ceil_bound (x : R) :
  exists k, Math.ceil (Fin x) = Fin (IZR k) /\ (x <= IZR k < x + 1)%R.
Proof.
  exists (Zceil x). split; [reflexivity|].
  pose proof (Zceil_bound x). lra.
Qed.

(** X17.  Geometry of a sprite.  When the diameter resolves to a finite
    number [d], with positive pixel density and non-negative blur, the pixel
    diameter is the whole number [max(32, round(d))]; the sprite is a square
    whose side is a whole number of device pixels, more than the scaled
    diameter plus twice the scaled blur less one half, and at most that plus
    5/2; it holds one disc per layer, centred in the square, whose radius is
    half the scaled diameter, which leaves a margin of more than the scaled
    blur less 1/4 on every side. *)
Theorem rebuildSprite_geometry (s : State) (b : BlobInternal) (d dpr blur : R) :
  unitToPx (Blob.diameter b) (dimsOf s) AxisVmax = Fin d ->
  State.dpr s = Fin dpr -> State.blurPx s = Fin blur ->
  (0 < dpr)%R -> (0 <= blur)%R ->
  exists (diam size : Z) (sp : Sprite),
    Blob._diamPx (_rebuildSprite s b) = Fin (IZR diam)
    /\ Blob._sprite (_rebuildSprite s b) = Some sp
    /\ Sprite.width sp = Fin (IZR size) /\ Sprite.height sp = Fin (IZR size)
    /\ diam = Z.max 32 (Zfloor (d + 1 / 2))
    /\ (IZR diam * dpr + 2 * (blur * dpr) - 1 / 2 < IZR size)%R
    /\ (IZR size <= IZR diam * dpr + 2 * (blur * dpr) + 5 / 2)%R
    /\ length (Sprite.discs sp) = length (Blob.layers b)
    /\ (forall disc, In disc (Sprite.discs sp) ->
          Disc.cx disc = Fin (IZR size / 2) /\ Disc.cy disc = Fin (IZR size / 2)
          /\ Disc.radius disc = Fin (IZR diam * dpr / 2)
          /\ (blur * dpr - 1 / 4 < IZR size / 2 - IZR diam * dpr / 2)%R).
Proof.
  intros Hd Hdpr Hblur Hpos Hb0. unfold _rebuildSprite.
  cbn [Blob._diamPx Blob._sprite Blob.set_sprite].
  rewrite Hd, Hdpr, Hblur.
  change (Math.round (Fin d)) with (Fin (IZR (Zfloor (d + 1 / 2)))).
  rewrite max_fin.
  assert (Hmax : Rmax 32 (IZR (Zfloor (d + 1 / 2))) = IZR (Z.max 32 (Zfloor (d + 1 / 2)))).
  { destruct (Z.le_gt_cases 32 (Zfloor (d + 1 / 2))) as [H|H].
    - rewrite Z.max_r by lia. apply Rmax_right. apply IZR_le in H. exact H.
    - rewrite Z.max_l by lia. apply Rmax_left. apply IZR_le. lia. }
  rewrite Hmax. set (diam := Z.max 32 (Zfloor (d + 1 / 2))).
  rewrite !mul_fin.
  destruct (round_bound (IZR diam * dpr)) as (k1 & -> & Hk1).
  destruct (ceil_bound (blur * dpr)) as (k2 & -> & Hk2).
  rewrite mul_fin, add_fin.
  assert (Hsize : (IZR k1 + IZR k2 * 2)%R = IZR (k1 + k2 * 2)).
  { rewrite plus_IZR, mult_IZR. reflexivity. }
  rewrite Hsize. set (size := (k1 + k2 * 2)%Z).
  rewrite !div_fin by lra.
  exists diam, size. eexists. split; [reflexivity|]. split; [reflexivity|].
  cbn [Sprite.width Sprite.height Sprite.discs].
  split; [reflexivity|]. split; [reflexivity|]. split; [reflexivity|].
  assert (Hs : IZR size = (IZR k1 + IZR k2 * 2)%R) by (symmetry; exact Hsize).
  split; [lra|]. split; [lra|]. split; [apply length_map|].
  intros disc Hin. apply in_map_iff in Hin. destruct Hin as (layer & <- & _).
  unfold layerDisc. cbn [Disc.cx Disc.cy Disc.radius].
  repeat split. lra.
Qed.

Lemma rebuildSprite_geometry_witness :
  exists (diam size : Z) (sp : Sprite),
    Blob._diamPx (_rebuildSprite Sample.state0 Sample.follower) = Fin (IZR diam)
    /\ Blob._sprite (_rebuildSprite Sample.state0 Sample.follower) = Some sp
    /\ Sprite.width sp = Fin (IZR size)
    /\ diam = Z.max 32 (Zfloor (10 + 1 / 2)).
Proof.
  destruct (@rebuildSprite_geometry Sample.state0 Sample.follower 10 1 0
              eq_refl eq_refl eq_refl ltac:(lra) ltac:(lra))
    as (diam & size & sp & H1 & H2 & H3 & _ & H5 & _).
  exists diam, size, sp. repeat split; assumption.
Defined.

End SpriteMore.

(** ** Frames *)

Section FrameMore.

Lemma damageOne_still (s : State) (tSec parallaxPx pad dtMs : number)
    (b : BlobInternal) (need : bool) :
  Blob._static b = true \/ Blob._sprite b = None ->
  damageOne s tSec parallaxPx pad dtMs b need = (b, [], need).
Proof.
  intros [H|H]; unfold damageOne; rewrite H; [|reflexivity].
  destruct (Blob._sprite b); reflexivity.
Qed.

Lemma damageScan_still (s : State) (tSec parallaxPx pad dtMs : number)
    (blobs : JSMap.T BlobInternal) (need : bool) :
  (forall k b, In (k, b) blobs -> Blob._static b = true \/ Blob._sprite b = None) ->
  damageScan s tSec parallaxPx pad dtMs blobs need = (blobs, [], need).
Proof.
  induction blobs as [|[k b] rest IH]; intros H; [reflexivity|].
  simpl. rewrite damageOne_still by (apply (H k); now left).
  rewrite IH by (intros k' b' Hin; apply (H k'); now right). reflexivity.
Qed.

(** X18.  A frame of a scene without dynamic blobs sends nothing to the
    visible canvas, also when the static layer is stale.  With both contexts
    present and every blob static or without sprite, [_step] smooths the
    pointer, rebuilds the static layer if it was marked stale, and stops
    there: the canvas and the blobs are as before and the flag is cleared, so
    in such a scene a static blob added between two frames reaches the static
    layer but not the canvas. *)
Theorem static_scene_frame (e : Engine) (ts dtMs : number) :
  Engine.ctx e = true -> Engine._staticCtx e = true -> allStill e ->
  let e0 := Engine.set_state (frameState e) e in
  _step e ts dtMs
  = (if Engine._needRebuildStatic e then _buildStaticLayer e0 else e0)
  /\ Engine.canvas (_step e ts dtMs) = Engine.canvas e
  /\ Engine._blobs (_step e ts dtMs) = Engine._blobs e
  /\ Engine._needRebuildStatic (_step e ts dtMs) = false.
Proof.
  intros Hctx Hsc Hstill e0.
  assert (Heq : _step e ts dtMs
                = (if Engine._needRebuildStatic e then _buildStaticLayer e0 else e0)).
  { unfold _step. rewrite Hctx. cbn [negb]. unfold stepDamage.
    fold (frameState e). fold e0.
    change (Engine._needRebuildStatic e0) with (Engine._needRebuildStatic e).
    change (Engine.state e0) with (frameState e).
    destruct (Engine._needRebuildStatic e) eqn:Hneed.
    - assert (Hb : Engine._blobs (_buildStaticLayer e0) = Engine._blobs e)
        by exact (proj1 (buildStaticLayer_frame e0)).
      rewrite damageScan_still by (rewrite Hb; exact Hstill).
      assert (Hn : Engine._needRebuildStatic (_buildStaticLayer e0) = false).
      { unfold _buildStaticLayer.
        change (Engine._staticCtx e0) with (Engine._staticCtx e). now rewrite Hsc. }
      cbn [Engine._needRebuildStatic Engine.set_needRebuildStatic]. rewrite Hn.
      rewrite Hb.
      unfold _buildStaticLayer.
      change (Engine._staticCtx e0) with (Engine._staticCtx e). rewrite Hsc.
      reflexivity.
    - rewrite damageScan_still by exact Hstill.
      cbn [Engine._needRebuildStatic Engine.set_needRebuildStatic].
      unfold e0. destruct e. cbn in *. subst. reflexivity. }
  split; [exact Heq|]. rewrite Heq.
  destruct (Engine._needRebuildStatic e) eqn:Hneed.
  - destruct (buildStaticLayer_frame e0) as (Hb & _ & Hc & _).
    rewrite Hb, Hc. repeat split.
    unfold _buildStaticLayer.
    change (Engine._staticCtx e0) with (Engine._staticCtx e). now rewrite Hsc.
  - repeat split. exact Hneed.
Qed.

Lemma engine2_still : allStill Sample.engine2.
Proof. intros k b [H|[]]. inversion H; subst. now left. Qed.

Lemma static_scene_frame_witness :
  Engine.canvas (_step Sample.engine2 (Fin 0) (Fin 16)) = Engine.canvas Sample.engine2
  /\ Engine._needRebuildStatic (_step Sample.engine2 (Fin 0) (Fin 16)) = false.
Proof.
  destruct (@static_scene_frame Sample.engine2 (Fin 0) (Fin 16) eq_refl eq_refl engine2_still)
    as (_ & Hc & _ & Hn).
  split; [exact Hc | exact Hn].
Defined.

Lemma advanceEase_none (dtMs : number) (b : BlobInternal) (need : bool) :
  Blob._ease b = None -> advanceEase dtMs b need = (b, need).
Proof. intros H. unfold advanceEase. now rewrite H. Qed.

(** X19.  What a frame remembers of a dynamic blob.  For a dynamic blob with
    a sprite and no transition, the frame computes the rectangle of the blob
    once; that rectangle, inflated by the padding, is in the damage of the
    frame; and after the frame the registry holds the same blob under the
    same key with that rectangle as [_lastRect] and no [_nextRect], which is
    what the next frame repairs first.  The keys of the registry and their
    order do not change. *)
Theorem frame_records_rectangle (e : Engine) (ts dtMs : number)
    (k : string) (b : BlobInternal) (sprite : Sprite) :
  Engine.ctx e = true -> In (k, b) (Engine._blobs e) ->
  Blob._static b = false -> Blob._sprite b = Some sprite -> Blob._ease b = None ->
  let s := frameState e in
  let rect := _blobRect s b sprite (ts / Fin 1000) (parallaxPxOf s) in
  In (k, Blob.set_nextRect None (Blob.set_lastRect (Some rect) b))
     (Engine._blobs (_step e ts dtMs))
  /\ In (inflateRect rect (padOf s)) (snd (stepDamage e ts dtMs))
  /\ JSMap.keys (Engine._blobs (_step e ts dtMs)) = JSMap.keys (Engine._blobs e).
Proof.
  intros Hctx Hin Hst Hsp Hease s rect.
  destruct (stepDamage_frame e ts dtMs) as (Hd & _). fold s in Hd.
  assert (Hdam : In (inflateRect rect (padOf s)) (snd (stepDamage e ts dtMs))).
  { rewrite Hd. apply in_flat_map. exists (k, b). split; [exact Hin|].
    cbn [snd].
    destruct (blobDamage_dynamic s (ts / Fin 1000) (parallaxPxOf s) (padOf s) dtMs
                b Hst Hsp) as [Hnow _].
    rewrite advanceEase_none in Hnow by exact Hease. exact Hnow. }
  assert (Hkeys : JSMap.keys (Engine._blobs (_step e ts dtMs)) = JSMap.keys (Engine._blobs e)).
  { rewrite (step_blobs _ _ _ Hctx). cbv zeta.
    destruct (snd (stepDamage e ts dtMs)); now rewrite ?keys_mapValues. }
  split; [|split; assumption].
  rewrite (step_blobs _ _ _ Hctx). cbv zeta. fold s.
  destruct (snd (stepDamage e ts dtMs)) as [|r l]; [contradiction|].
  unfold mapValues. rewrite map_map. apply in_map_iff.
  exists (k, b). split; [|exact Hin]. cbn [fst snd]. f_equal.
  rewrite scanBlob_dynamic with (sprite := sprite) by assumption.
  rewrite advanceEase_none by exact Hease. cbn [fst].
  unfold commitRect. cbn [Blob._sprite Blob.set_nextRect Blob._static].
  rewrite Hsp, Hst. reflexivity.
Qed.

Lemma frame_records_rectangle_witness :
  let s := frameState Sample.engine1 in
  let rect := _blobRect s Sample.follower Sample.sprite32 (Fin 0 / Fin 1000)
                        (parallaxPxOf s) in
  In ("d"%string, Blob.set_nextRect None (Blob.set_lastRect (Some rect) Sample.follower))
     (Engine._blobs (_step Sample.engine1 (Fin 0) (Fin 16))).
Proof.
  intros s rect.
  assert (Hin : In ("d"%string, Sample.follower) (Engine._blobs Sample.engine1))
    by (simpl; auto).
  exact (proj1 (@frame_records_rectangle Sample.engine1 (Fin 0) (Fin 16) "d"
                  Sample.follower Sample.sprite32 eq_refl Hin eq_refl eq_refl eq_refl)).
Defined.

End FrameMore.

(** ** What a redraw leaves on the canvas, what the static layer holds *)

Section DrawMore.

Lemma drawDynamicOne_surface (s : State) (tSec parallaxPx : number)
    (limitRects : option (list Rect)) (c : Canvas) (b : BlobInternal) :
  Canvas.width (drawDynamicOne s tSec parallaxPx limitRects c b) = Canvas.width c
  /\ Canvas.height (drawDynamicOne s tSec parallaxPx limitRects c b) = Canvas.height c
  /\ Canvas.saved (drawDynamicOne s tSec parallaxPx limitRects c b) = Canvas.saved c.
Proof.
  destruct (drawDynamicOne_cases s tSec parallaxPx limitRects c b)
    as [[-> _] | (sprite & st & _ & ->)]; repeat split.
Qed.

Lemma drawDynamics_surface (s : State) (tSec parallaxPx : number)
    (limitRects : option (list Rect)) (bs : list BlobInternal) (c : Canvas) :
  let c' := fold_left (drawDynamicOne s tSec parallaxPx limitRects) bs c in
  Canvas.width c' = Canvas.width c /\ Canvas.height c' = Canvas.height c
  /\ Canvas.saved c' = Canvas.saved c.
Proof.
  revert c. induction bs as [|b bs IH]; intros c; simpl; [repeat split|].
  destruct (IH (drawDynamicOne s tSec parallaxPx limitRects c b)) as (-> & -> & ->).
  apply drawDynamicOne_surface.
Qed.

Lemma fullRedraw_surface (e : Engine) (ts : number) :
  surfaceOf (Engine.canvas (_fullRedraw e ts)) = surfaceOf (Engine.canvas e).
Proof.
  unfold _fullRedraw.
  set (e1 := if Engine._needRebuildStatic e then _buildStaticLayer e else e).
  assert (Hc : Engine.canvas e1 = Engine.canvas e).
  { unfold e1. destruct (Engine._needRebuildStatic e); [|reflexivity].
    apply buildStaticLayer_frame. }
  destruct (Engine.ctx e1); cbn [negb]; [|now rewrite Hc].
  cbn [Engine.canvas Engine.set_canvas]. unfold _drawDynamics.
  match goal with
  | |- context [fold_left (drawDynamicOne ?a ?b ?p ?l) ?bs ?c1] =>
      pose proof (drawDynamics_surface a b p l bs c1) as H;
      set (c2 := fold_left (drawDynamicOne a b p l) bs c1) in *
  end.
  cbv zeta in H. destruct H as (Hw & Hh & Hs).
  unfold surfaceOf, Canvas.restore. rewrite Hs, Hw, Hh, Hc.
  cbn. reflexivity.
Qed.

Lemma redrawDirty_surface (e : Engine) (ts : number) (rects : list Rect) :
  surfaceOf (Engine.canvas (_redrawDirty e ts rects)) = surfaceOf (Engine.canvas e).
Proof.
  unfold _redrawDirty. destruct (Engine.ctx e); cbn [negb]; [|reflexivity].
  cbn [Engine.canvas Engine.set_canvas]. unfold _drawDynamics.
  match goal with
  | |- context [fold_left (drawDynamicOne ?a ?b ?p ?l) ?bs ?c1] =>
      pose proof (drawDynamics_surface a b p l bs c1) as H;
      set (c2 := fold_left (drawDynamicOne a b p l) bs c1) in *
  end.
  cbv zeta in H. destruct H as (Hw & Hh & Hs).
  unfold surfaceOf, Canvas.restore. rewrite Hs, Hw, Hh.
  rewrite repair_fold. cbn. reflexivity.
Qed.

Lemma step_surface (e : Engine) (ts dtMs : number) :
  surfaceOf (Engine.canvas (_step e ts dtMs)) = surfaceOf (Engine.canvas e).
Proof.
  destruct (Engine.ctx e) eqn:Hctx; [|unfold _step; now rewrite Hctx].
  rewrite (step_unfold _ _ _ Hctx). cbv zeta.
  destruct (stepDamage_frame e ts dtMs) as (_ & _ & _ & Hc & _).
  destruct (snd (stepDamage e ts dtMs)).
  - destruct (Engine._needRebuildStatic _); [rewrite fullRedraw_surface|]; now rewrite Hc.
  - cbn [Engine.canvas Engine.set_blobs].
    destruct (tooMuchDamage _ _); [rewrite fullRedraw_surface | rewrite redrawDirty_surface];
      now rewrite Hc.
Qed.

(** X20.  Redraws give the context back as they found it.  After a full
    redraw, a partial redraw, a step or a frame callback, the visible canvas
    has the size, the current drawing state (alpha, composite operation,
    transform) and the stack of saved states it had before, whatever they
    were: every [save] is matched by its [restore] and no setting leaks. *)
Theorem redraw_restores_context (e : Engine) (ts dtMs : number) (rects : list Rect) :
  surfaceOf (Engine.canvas (_fullRedraw e ts)) = surfaceOf (Engine.canvas e)
  /\ surfaceOf (Engine.canvas (_redrawDirty e ts rects)) = surfaceOf (Engine.canvas e)
  /\ surfaceOf (Engine.canvas (_step e ts dtMs)) = surfaceOf (Engine.canvas e)
  /\ surfaceOf (Engine.canvas (_loop e ts)) = surfaceOf (Engine.canvas e).
Proof.
  split; [apply fullRedraw_surface|]. split; [apply redrawDirty_surface|].
  split; [apply step_surface|].
  unfold _loop. destruct (State.running (Engine.state e)); cbn [negb]; [|reflexivity].
  match goal with |- context [if ?c then _ else _] => destruct c end.
  - reflexivity.
  - destruct (reschedule_keeps (_step (Engine.set_lastFrameTs ts e) ts
                (Math.max (Fin 0) (ts - Engine._lastFrameTs e)))) as (-> & _).
    rewrite step_surface. reflexivity.
Qed.

Lemma buildStaticOne_cases (s : State) (sl : StaticLayer) (b : BlobInternal) :
  (buildStaticOne s sl b = sl /\ forall sprite, ~ staticSprite b sprite)
  \/ (exists sprite alpha,
        staticSprite b sprite
        /\ buildStaticOne s sl b
           = StaticLayer.mk (StaticLayer.width sl) (StaticLayer.height sl) alpha
               (StaticLayer.calls sl ++ [staticCallOf s alpha b sprite])).
Proof.
  unfold buildStaticOne, staticSprite.
  destruct (Blob._sprite b) as [sprite|] eqn:Hsp.
  2:{ left. split; [reflexivity|]. intros sp [_ H]. discriminate. }
  destruct (Blob._static b) eqn:Hst; cbn [negb].
  2:{ left. split; [reflexivity|]. intros sp [H _]. discriminate. }
  right. exists sprite. eexists. split; [split; reflexivity|]. reflexivity.
Qed.

Lemma buildStatic_fold (s : State) (bs : list BlobInternal) (sl : StaticLayer) :
  exists draws,
    StaticLayer.calls (fold_left (buildStaticOne s) bs sl) = StaticLayer.calls sl ++ draws
    /\ StaticLayer.width (fold_left (buildStaticOne s) bs sl) = StaticLayer.width sl
    /\ StaticLayer.height (fold_left (buildStaticOne s) bs sl) = StaticLayer.height sl
    /\ (forall call, In call draws ->
          exists b sprite alpha,
            In b bs /\ staticSprite b sprite /\ call = staticCallOf s alpha b sprite)
    /\ (forall b sprite, In b bs -> staticSprite b sprite ->
          exists alpha, In (staticCallOf s alpha b sprite) draws)
    /\ length draws
       = length (filter (fun b => Blob._static b && isSome (Blob._sprite b)) bs).
Proof.
  revert sl. induction bs as [|b bs IH]; intros sl; simpl.
  - exists []. rewrite app_nil_r. repeat split; intros; contradiction.
  - destruct (buildStaticOne_cases s sl b) as [[Heq Hno] | (sprite & alpha & Hd & Heq)];
      rewrite Heq.
    + destruct (IH sl) as (draws & Hcalls & Hw & Hh & Honly & Hall & Hlen).
      exists draws. split; [exact Hcalls|]. split; [exact Hw|]. split; [exact Hh|].
      split; [|split].
      * intros call Hin. destruct (Honly _ Hin) as (b' & sp & al & Hb & Hs & ->).
        exists b', sp, al. split; [now right|]. split; [exact Hs | reflexivity].
      * intros b' sp [<-|Hb] Hs; [exfalso; eapply Hno; eauto | eauto].
      * rewrite Hlen.
        destruct (Blob._static b) eqn:Hst, (Blob._sprite b) as [sp|] eqn:Hsp;
          cbn [andb isSome]; try reflexivity.
        exfalso. apply (Hno sp). split; assumption.
    + match goal with
      | |- context [fold_left _ bs ?l1] =>
          destruct (IH l1) as (draws & Hcalls & Hw & Hh & Honly & Hall & Hlen)
      end.
      exists (staticCallOf s alpha b sprite :: draws).
      split; [rewrite Hcalls; cbn; now rewrite <- app_assoc|].
      split; [rewrite Hw; reflexivity|]. split; [rewrite Hh; reflexivity|].
      split; [|split].
      * intros call [<-|Hin].
        -- exists b, sprite, alpha. split; [now left|]. split; [exact Hd | reflexivity].
        -- destruct (Honly _ Hin) as (b' & sp & al & Hb & Hs & ->).
           exists b', sp, al. split; [now right|]. split; [exact Hs | reflexivity].
      * intros b' sp [<-|Hb] Hs.
        -- exists alpha. left. destruct Hd as [_ H1], Hs as [_ H2]. congruence.
        -- destruct (Hall _ _ Hb Hs) as [al Hin]. exists al. now right.
      * destruct Hd as [Hst Hsp]. rewrite Hst, Hsp. cbn [andb isSome length].
        now rewrite Hlen.
Qed.

(** X21.  What the static layer holds.  Building the static layer (its
    context being there) clears the whole layer and then draws exactly the
    static blobs that have a sprite, one draw each, at the configured centre
    of the blob without drift, parallax or breathing; a dynamic blob is never
    drawn on it.  The flag is cleared; the size of the layer, the visible
    canvas and the blobs are untouched. *)
Theorem static_layer_content (e : Engine) :
  Engine._staticCtx e = true ->
  let sl := Engine._staticLayer e in
  let bs := JSMap.values (Engine._blobs e) in
  let e' := _buildStaticLayer e in
  exists draws,
    StaticLayer.calls (Engine._staticLayer e')
    = StaticLayer.calls sl
      ++ LClearRect (Fin 0) (Fin 0) (StaticLayer.width sl) (StaticLayer.height sl) :: draws
    /\ (forall call, In call draws ->
          exists b sprite alpha,
            In b bs /\ staticSprite b sprite
            /\ call = staticCallOf (Engine.state e) alpha b sprite)
    /\ (forall b sprite, In b bs -> staticSprite b sprite ->
          exists alpha, In (staticCallOf (Engine.state e) alpha b sprite) draws)
    /\ length draws
       = length (filter (fun b => Blob._static b && isSome (Blob._sprite b)) bs)
    /\ Engine._needRebuildStatic e' = false
    /\ StaticLayer.width (Engine._staticLayer e') = StaticLayer.width sl
    /\ StaticLayer.height (Engine._staticLayer e') = StaticLayer.height sl
    /\ Engine.canvas e' = Engine.canvas e
    /\ Engine._blobs e' = Engine._blobs e.
Proof.
  intros Hsc sl bs e'. subst e'. unfold _buildStaticLayer. rewrite Hsc. cbn [negb].
  cbn [Engine._staticLayer Engine.set_needRebuildStatic Engine.set_staticLayer
       Engine._needRebuildStatic Engine.canvas Engine._blobs].
  fold sl. fold bs.
  destruct (buildStatic_fold (Engine.state e) bs
              (StaticLayer.clearRect (Fin 0) (Fin 0) (StaticLayer.width sl)
                 (StaticLayer.height sl) sl))
    as (draws & Hcalls & Hw & Hh & Honly & Hall & Hlen).
  exists draws. rewrite Hcalls, Hw, Hh.
  cbn [StaticLayer.calls StaticLayer.clearRect StaticLayer.width StaticLayer.height].
  rewrite <- app_assoc. repeat split; assumption.
Qed.

Lemma static_layer_content_witness :
  exists draws,
    StaticLayer.calls (Engine._staticLayer (_buildStaticLayer Sample.engine2))
    = StaticLayer.calls (Engine._staticLayer Sample.engine2)
      ++ LClearRect (Fin 0) (Fin 0) (Fin 1000) (Fin 500) :: draws
    /\ length draws = 1%nat.
Proof.
  destruct (@static_layer_content Sample.engine2 eq_refl)
    as (draws & Hcalls & _ & _ & Hlen & _).
  exists draws. split; [exact Hcalls | exact Hlen].
Defined.

End DrawMore.

(** ** The frame loop, continued *)

Section LoopMore.

Lemma buildStaticLayer_host e :
  Engine.host (_buildStaticLayer e) = Engine.host e
  /\ Engine._raf (_buildStaticLayer e) = Engine._raf e.
Proof. unfold _buildStaticLayer. destruct (Engine._staticCtx e); split; reflexivity. Qed.

Lemma fullRedraw_host e ts :
  Engine.host (_fullRedraw e ts) = Engine.host e
  /\ Engine._raf (_fullRedraw e ts) = Engine._raf e.
Proof.
  unfold _fullRedraw.
  set (e1 := if Engine._needRebuildStatic e then _buildStaticLayer e else e).
  assert (H : Engine.host e1 = Engine.host e /\ Engine._raf e1 = Engine._raf e).
  { unfold e1. destruct (Engine._needRebuildStatic e);
      [apply buildStaticLayer_host | split; reflexivity]. }
  destruct (Engine.ctx e1); cbn [negb]; exact H.
Qed.

Lemma redrawDirty_host e ts rects :
  Engine.host (_redrawDirty e ts rects) = Engine.host e
  /\ Engine._raf (_redrawDirty e ts rects) = Engine._raf e.
Proof. unfold _redrawDirty. destruct (Engine.ctx e); split; reflexivity. Qed.

Lemma stepDamage_host e ts dtMs :
  Engine.host (fst (stepDamage e ts dtMs)) = Engine.host e
  /\ Engine._raf (fst (stepDamage e ts dtMs)) = Engine._raf e.
Proof.
  unfold stepDamage.
  set (e0 := Engine.set_state (smoothPointer (Engine.state e)) e).
  set (e1 := if Engine._needRebuildStatic e0 then _buildStaticLayer e0 else e0).
  assert (H : Engine.host e1 = Engine.host e /\ Engine._raf e1 = Engine._raf e).
  { unfold e1. destruct (Engine._needRebuildStatic e0);
      [apply (buildStaticLayer_host e0) | split; reflexivity]. }
  destruct (damageScan _ _ _ _ _ _ _) as [[bs ds] nd]. exact H.
Qed.

Lemma step_host e ts dtMs :
  Engine.host (_step e ts dtMs) = Engine.host e
  /\ Engine._raf (_step e ts dtMs) = Engine._raf e.
Proof.
  destruct (Engine.ctx e) eqn:Hctx; [|unfold _step; rewrite Hctx; split; reflexivity].
  rewrite (step_unfold _ _ _ Hctx). cbv zeta.
  destruct (stepDamage_host e ts dtMs) as [Hh Hr].
  destruct (snd (stepDamage e ts dtMs)).
  - destruct (Engine._needRebuildStatic _); [|split; assumption].
    destruct (fullRedraw_host (fst (stepDamage e ts dtMs)) ts) as [-> ->]. split; assumption.
  - cbn [Engine.host Engine._raf Engine.set_blobs].
    destruct (tooMuchDamage _ _).
    + destruct (fullRedraw_host (fst (stepDamage e ts dtMs)) ts) as [-> ->]. split; assumption.
    + match goal with |- context [_redrawDirty ?a ?b ?c] =>
        destruct (redrawDirty_host a b c) as [-> ->] end.
      split; assumption.
Qed.

(** X22.  Every frame callback of a running engine schedules exactly one
    successor, whether the frame is skipped by the cap or drawn: the queue of
    the host grows by the one new handle, which the engine records, and the
    engine keeps running.  On a stopped engine a callback does nothing. *)
Theorem loop_schedules_one_successor (e : Engine) (ts : number) :
  (State.running (Engine.state e) = true ->
     Host.pending (Engine.host (_loop e ts))
     = Host.pending (Engine.host e) ++ [Host.nextHandle (Engine.host e)]
     /\ Engine._raf (_loop e ts) = Host.nextHandle (Engine.host e)
     /\ Host.nextHandle (Engine.host (_loop e ts)) = S (Host.nextHandle (Engine.host e))
     /\ State.running (Engine.state (_loop e ts)) = true)
  /\ (State.running (Engine.state e) = false -> _loop e ts = e).
Proof.
  split; intros Hr; unfold _loop; rewrite Hr; cbn [negb]; [|reflexivity].
  match goal with |- context [if ?c then _ else _] => destruct c end.
  - unfold reschedule. cbn. repeat split. exact Hr.
  - set (e1 := _step (Engine.set_lastFrameTs ts e) ts
                     (Math.max (Fin 0) (ts - Engine._lastFrameTs e))).
    assert (Hh : Engine.host e1 = Engine.host e)
      by apply (step_host (Engine.set_lastFrameTs ts e)).
    assert (Hs : State.running (Engine.state e1) = true).
    { unfold e1. destruct (Engine.ctx e) eqn:Hctx.
      - destruct (step_state (Engine.set_lastFrameTs ts e) ts
                    (Math.max (Fin 0) (ts - Engine._lastFrameTs e)) Hctx) as [-> _].
        exact Hr.
      - unfold _step. cbn [Engine.ctx Engine.set_lastFrameTs]. rewrite Hctx. exact Hr. }
    unfold reschedule. cbn. rewrite Hh. repeat split. exact Hs.
Qed.

Lemma loop_schedules_one_successor_witness :
  Host.pending (Engine.host (_loop Sample.engine2 (Fin 16)))
  = Host.pending (Engine.host Sample.engine2) ++ [Host.nextHandle (Engine.host Sample.engine2)].
Proof.
  exact (proj1 (proj1 (loop_schedules_one_successor Sample.engine2 (Fin 16)) eq_refl)).
Defined.






End LoopMore.

(** ** Pointer and motion *)

Section PointerMore.

Lemma ratio_unit (c v : R) : (0 < v)%R -> (0 <= c <= v)%R -> (0 <= c / v <= 1)%R.
Proof.
  intros Hv Hc. split.
  - unfold Rdiv. apply Rmult_le_pos; [lra | left; now apply Rinv_0_lt_compat].
  - apply (Rmult_le_reg_r v); [assumption|].
    unfold Rdiv. rewrite Rmult_assoc, Rinv_l by lra. lra.
Qed.

Lemma onPointerMove_target (e : Engine) (cx cy vw vh : R) :
  Engine._pointerEnabled e = true -> (0 < vw)%R -> (0 < vh)%R ->
  let e' := _onPointerMove e (Fin cx) (Fin cy) (Fin vw) (Fin vh) in
  State.tx (Engine.state e') = Fin (cx / vw * 2 - 1)
  /\ State.ty (Engine.state e') = Fin (cy / vh * 2 - 1)
  /\ State.px (Engine.state e') = State.px (Engine.state e)
  /\ State.py (Engine.state e') = State.py (Engine.state e)
  /\ Engine.canvas e' = Engine.canvas e
  /\ Engine._blobs e' = Engine._blobs e
  /\ Engine.ctx e' = Engine.ctx e.
Proof.
  intros Hen Hvw Hvh e'. subst e'. unfold _onPointerMove. rewrite Hen.
  cbn [negb Engine.state Engine.set_state State.tx State.ty State.px State.py
       State.set_target Engine.canvas Engine._blobs Engine.ctx].
  unfold orNum, truthy. rewrite !Reqb_false by lra. cbn [negb].
  rewrite !div_fin by lra. cbn [mul sub]. repeat split.
Qed.

(** X24.  Pointer events.  With tracking enabled, a pointer event inside a
    viewport of positive size sets the pointer target to
    [(x / width * 2 - 1, y / height * 2 - 1)], a point of the square
    [[-1, 1] x [-1, 1]], and touches neither the smoothed pointer nor the
    canvas nor the blobs.  With tracking disabled the event is ignored.
    [setPointerTracking] stores its argument, changes nothing else (the
    target stays where it was), and is a no-op when tracking already has that
    value. *)
Theorem pointer_events (e : Engine) :
  (Engine._pointerEnabled e = true ->
   forall cx cy vw vh : R,
     (0 < vw)%R -> (0 < vh)%R -> (0 <= cx <= vw)%R -> (0 <= cy <= vh)%R ->
     let e' := _onPointerMove e (Fin cx) (Fin cy) (Fin vw) (Fin vh) in
     State.tx (Engine.state e') = Fin (cx / vw * 2 - 1)
     /\ State.ty (Engine.state e') = Fin (cy / vh * 2 - 1)
     /\ within (-1) 1 (State.tx (Engine.state e'))
     /\ within (-1) 1 (State.ty (Engine.state e'))
     /\ State.px (Engine.state e') = State.px (Engine.state e)
     /\ State.py (Engine.state e') = State.py (Engine.state e)
     /\ Engine.canvas e' = Engine.canvas e
     /\ Engine._blobs e' = Engine._blobs e)
  /\ (Engine._pointerEnabled e = false ->
      forall cx cy vw vh, _onPointerMove e cx cy vw vh = e)
  /\ (forall enabled,
        Engine._pointerEnabled (setPointerTracking e enabled) = enabled
        /\ Engine.state (setPointerTracking e enabled) = Engine.state e
        /\ Engine._blobs (setPointerTracking e enabled) = Engine._blobs e
        /\ Engine.canvas (setPointerTracking e enabled) = Engine.canvas e)
  /\ setPointerTracking e (Engine._pointerEnabled e) = e
  /\ (forall cx cy vw vh,
        _onPointerMove (setPointerTracking e false) cx cy vw vh
        = setPointerTracking e false).
Proof.
  split; [|split; [|split; [|split]]].
  - intros Hen cx cy vw vh Hvw Hvh Hx Hy e'. subst e'.
    destruct (@onPointerMove_target e cx cy vw vh Hen Hvw Hvh)
      as (Htx & Hty & Hpx & Hpy & Hc & Hb & _).
    pose proof (ratio_unit Hvw Hx). pose proof (ratio_unit Hvh Hy).
    split; [exact Htx|]. split; [exact Hty|].
    split; [eexists; split; [exact Htx | lra]|].
    split; [eexists; split; [exact Hty | lra]|].
    repeat split; assumption.
  - intros Hen cx cy vw vh. unfold _onPointerMove. now rewrite Hen.
  - intros enabled. unfold setPointerTracking.
    destruct (Bool.eqb_spec enabled (Engine._pointerEnabled e)) as [->|Hne];
      repeat split.
  - unfold setPointerTracking. now rewrite Bool.eqb_reflx.
  - intros cx cy vw vh. unfold _onPointerMove, setPointerTracking.
    destruct (Engine._pointerEnabled e) eqn:Hen; cbn [Bool.eqb].
    + reflexivity.
    + now rewrite Hen.
Qed.

Lemma pointer_events_witness :
  State.tx (Engine.state (_onPointerMove Sample.engine0 (Fin 750) (Fin 0) (Fin 1000) (Fin 500)))
  = Fin (750 / 1000 * 2 - 1)
  /\ within (-1) 1
       (State.ty (Engine.state
          (_onPointerMove Sample.engine0 (Fin 750) (Fin 0) (Fin 1000) (Fin 500)))).
Proof.
  destruct (proj1 (pointer_events Sample.engine0) eq_refl 750 0 1000 500)%R
    as (Hx & _ & _ & Hy & _); try lra.
  split; [exact Hx | exact Hy].
Defined.









End PointerMore.

(** ** Construction and resize *)

Section ConstructMore.

(** X27.  The initial state.  Whatever the host reports as pixel density
    (zero, [NaN] and infinities included), the density the engine works with
    lies between 1 and the cap [maxDpr] (2 by default), so it is positive and
    finite; the threshold of the full redraw lies in [[0.1, 1]]; the engine
    does not run, the surface has size 0 and the pointer is at rest.  Without
    options the defaults are: alpha 0.5 (0.44 on a narrow screen), blur 36
    (32), parallax 0.9 (0.6), composite [source-over], no frame-rate cap,
    padding 12, threshold 0.55, at most 16 dirty rectangles. *)
Theorem initialState_bounds (opts : FluidOptions) (isMobile prefersReduce : bool)
    (devicePixelRatio : number) :
  let s := initialState opts isMobile prefersReduce devicePixelRatio in
  (forall m, FluidOptions.maxDpr opts ?? Fin 2 = Fin m -> (1 <= m)%R ->
     within 1 m (State.dpr s))
  /\ (FluidOptions.fullRedrawThreshold opts <> Some NaN ->
      within 0.1 1 (State.fullRedrawThreshold s))
  /\ State.running s = false
  /\ State.prefersReduce s = prefersReduce
  /\ (State.w s, State.h s, State.vMax s) = (Fin 0, Fin 0, Fin 0)
  /\ (State.px s, State.py s, State.tx s, State.ty s) = (Fin 0, Fin 0, Fin 0, Fin 0)
  /\ (opts = FluidOptions.none ->
      State.alpha s = (if isMobile then Fin 0.44 else Fin 0.5)
      /\ State.blurPx s = (if isMobile then Fin 32 else Fin 36)
      /\ State.parallaxVmax s = (if isMobile then Fin 0.6 else Fin 0.9)
      /\ State.composite s = "source-over"%string
      /\ State.fpsCap s = Fin 0
      /\ State.damagePaddingPx s = Fin 12
      /\ State.fullRedrawThreshold s = Fin 0.55
      /\ State.maxDirtyRects s = Fin 16).
Proof.
  intros s. subst s. unfold initialState.
  cbn [State.dpr State.fullRedrawThreshold State.running State.prefersReduce
       State.w State.h State.vMax State.px State.py State.tx State.ty
       State.alpha State.blurPx State.parallaxVmax State.composite State.fpsCap
       State.damagePaddingPx State.maxDirtyRects].
  split; [|split].
  - intros m -> Hm. apply clamp_within; [exact Hm|].
    unfold orNum, truthy. destruct devicePixelRatio as [| | |r]; try discriminate.
    destruct (negb (Reqb r 0)); discriminate.
  - intros H.
    assert (Hv : FluidOptions.fullRedrawThreshold opts ?? Fin 0.55 <> NaN).
    { destruct (FluidOptions.fullRedrawThreshold opts) as [v|]; cbn [orElse];
        [intros ->; now apply H | discriminate]. }
    destruct (@clamp_within _ 0.1 1.0 ltac:(lra) Hv) as (r & Hr & Hin).
    exists r. split; [exact Hr | lra].
  - do 4 (split; [reflexivity|]).
    intros ->. cbn [orElse FluidOptions.none FluidOptions.alpha
      FluidOptions.blurPx FluidOptions.parallaxVmax FluidOptions.composite
      FluidOptions.fpsCap FluidOptions.damagePaddingPx
      FluidOptions.fullRedrawThreshold FluidOptions.maxDirtyRects].
    repeat split. apply clamp_fin_mid; lra.
Qed.

Lemma initialState_bounds_witness :
  within 1 2 (State.dpr (initialState FluidOptions.none false false NaN))
  /\ within 1 2 (State.dpr (initialState FluidOptions.none false false (Fin 3))).
Proof.
  split.
  - apply (proj1 (initialState_bounds FluidOptions.none false false NaN) 2%R eq_refl). lra.
  - apply (proj1 (initialState_bounds FluidOptions.none false false (Fin 3)) 2%R eq_refl). lra.
Defined.

Lemma buildStaticLayer_fresh (e : Engine) :
  Engine._staticCtx e = true ->
  Engine._needRebuildStatic (_buildStaticLayer e) = false
  /\ StaticLayer.width (Engine._staticLayer (_buildStaticLayer e))
     = StaticLayer.width (Engine._staticLayer e)
  /\ StaticLayer.height (Engine._staticLayer (_buildStaticLayer e))
     = StaticLayer.height (Engine._staticLayer e).
Proof.
  intros Hsc. unfold _buildStaticLayer. rewrite Hsc. cbn [negb].
  cbn [Engine._staticLayer Engine.set_needRebuildStatic Engine.set_staticLayer
       Engine._needRebuildStatic].
  destruct (buildStatic_fold (Engine.state e) (JSMap.values (Engine._blobs e))
              (StaticLayer.clearRect (Fin 0) (Fin 0)
                 (StaticLayer.width (Engine._staticLayer e))
                 (StaticLayer.height (Engine._staticLayer e)) (Engine._staticLayer e)))
    as (draws & _ & Hw & Hh & _).
  rewrite Hw, Hh. repeat split.
Qed.

(** X28.  [_resize] keeps the two surfaces in step.  After a resize to a
    viewport of [w] by [h] the state records [w], [h] and their maximum as
    [vMax]; the visible canvas measures [round(w * dpr)] by [round(h * dpr)]
    and the static layer has the same size; every sprite has been rebuilt for
    the new dimensions; the context is in its initial state with nothing
    saved.  When the static context is there the static layer is fresh (the
    flag is cleared), and when the context is there the canvas has received
    one full frame: a clear of the whole new surface, then the static layer
    as just rebuilt, then the dynamic sprites. *)
Theorem resize_keeps_surfaces_in_step (e : Engine) (w h now : number) :
  let e' := _resize e w h now in
  let s' := Engine.state e' in
  (State.w s', State.h s', State.vMax s') = (w, h, Math.max w h)
  /\ s' = State.set_size w h (Math.max w h) (Engine.state e)
  /\ Canvas.width (Engine.canvas e') = Math.round (w * State.dpr (Engine.state e))
  /\ Canvas.height (Engine.canvas e') = Math.round (h * State.dpr (Engine.state e))
  /\ StaticLayer.width (Engine._staticLayer e') = Canvas.width (Engine.canvas e')
  /\ StaticLayer.height (Engine._staticLayer e') = Canvas.height (Engine.canvas e')
  /\ Engine._blobs e' = mapValues (_rebuildSprite s') (Engine._blobs e)
  /\ Canvas.cur (Engine.canvas e') = CtxState.initial
  /\ Canvas.saved (Engine.canvas e') = []
  /\ (Engine._staticCtx e = true -> Engine._needRebuildStatic e' = false)
  /\ (Engine.ctx e = true ->
      exists layer sprites,
        Canvas.calls (Engine.canvas e')
        = Canvas.calls (Engine.canvas e)
          ++ ClearRect CtxState.initial (Fin 0) (Fin 0)
               (Canvas.width (Engine.canvas e')) (Canvas.height (Engine.canvas e'))
             :: DrawLayer CtxState.initial layer (Fin 0) (Fin 0) :: sprites
        /\ (Engine._staticCtx e = true ->
            layer = StaticLayer.calls (Engine._staticLayer e'))
        /\ spriteCalls s' (now / Fin 1000) (parallaxPxOf s') None
                       (JSMap.values (Engine._blobs e')) sprites)
  /\ (Engine.ctx e = false -> Canvas.calls (Engine.canvas e') = Canvas.calls (Engine.canvas e)).
Proof.
  intros e' s'. subst s' e'. unfold _resize.
  set (s1 := State.set_size w h (Math.max w h) (Engine.state e)).
  cbn [Engine.state Engine.set_state Engine.canvas Engine.set_canvas Engine._staticLayer
       Engine.set_staticLayer Engine._blobs Engine.set_blobs].
  fold s1.
  set (c1 := Canvas.setSize (Math.round (w * State.dpr s1)) (Math.round (h * State.dpr s1))
                            (Engine.canvas e)).
  set (l1 := StaticLayer.setSize (Canvas.width c1) (Canvas.height c1) (Engine._staticLayer e)).
  set (e1 := Engine.set_needRebuildStatic true _).
  destruct (fullRedraw_frame e1 now) as (Hb & Hs & Hx).
  pose proof (fullRedraw_surface e1 now) as Hsurf.
  unfold surfaceOf in Hsurf. inversion Hsurf as [[Hw Hh Hcur Hsaved]].
  rewrite Hs, Hb, Hw, Hh, Hcur, Hsaved.
  assert (Hl : Engine._staticCtx e = true ->
               Engine._needRebuildStatic (_fullRedraw e1 now) = false
               /\ StaticLayer.width (Engine._staticLayer (_fullRedraw e1 now)) = Canvas.width c1
               /\ StaticLayer.height (Engine._staticLayer (_fullRedraw e1 now)) = Canvas.height c1).
  { intros Hsc. unfold _fullRedraw.
    change (Engine._needRebuildStatic e1) with true. cbv iota.
    destruct (@buildStaticLayer_fresh e1 Hsc) as (Hn & Hlw & Hlh).
    destruct (Engine.ctx (_buildStaticLayer e1)); cbn [negb];
      cbn [Engine._needRebuildStatic Engine.set_canvas Engine._staticLayer];
      rewrite Hn, Hlw, Hlh; repeat split. }
  assert (Hl0 : StaticLayer.width (Engine._staticLayer (_fullRedraw e1 now)) = Canvas.width c1
               /\ StaticLayer.height (Engine._staticLayer (_fullRedraw e1 now)) = Canvas.height c1).
  { destruct (Engine._staticCtx e) eqn:Hsc; [now apply Hl|].
    unfold _fullRedraw. change (Engine._needRebuildStatic e1) with true. cbv iota.
    unfold _buildStaticLayer. change (Engine._staticCtx e1) with (Engine._staticCtx e).
    rewrite Hsc. cbn [negb]. destruct (Engine.ctx e1); cbn [negb]; split; reflexivity. }
  split; [reflexivity|]. split; [reflexivity|]. split; [reflexivity|].
  split; [reflexivity|]. split; [apply Hl0|]. split; [apply Hl0|].
  split; [reflexivity|]. split; [reflexivity|]. split; [reflexivity|].
  split; [intros Hsc; now apply Hl|]. split.
  - intros Hctx.
    destruct (@fullRedraw_calls e1 now Hctx) as (sprites & Hcalls & Hsp).
    cbv zeta in Hcalls, Hsp. eexists. exists sprites. split; [exact Hcalls|].
    split; [|exact Hsp].
    intros Hsc. unfold _fullRedraw. change (Engine._needRebuildStatic e1) with true.
    cbv iota. destruct (Engine.ctx (_buildStaticLayer e1)); reflexivity.
  - intros Hctx. unfold _fullRedraw. change (Engine._needRebuildStatic e1) with true.
    cbv iota.
    replace (Engine.ctx (_buildStaticLayer e1)) with false.
    2:{ symmetry. rewrite (proj2 (proj2 (proj2 (buildStaticLayer_frame e1)))). exact Hctx. }
    cbn [negb]. rewrite (proj1 (proj2 (proj2 (buildStaticLayer_frame e1)))). reflexivity.
Qed.

Lemma resize_keeps_surfaces_in_step_witness :
  Engine._needRebuildStatic (_resize Sample.engine1 (Fin 800) (Fin 600) (Fin 0)) = false
  /\ exists layer sprites,
       Canvas.calls (Engine.canvas (_resize Sample.engine1 (Fin 800) (Fin 600) (Fin 0)))
       = Canvas.calls (Engine.canvas Sample.engine1)
         ++ ClearRect CtxState.initial (Fin 0) (Fin 0)
              (Canvas.width (Engine.canvas (_resize Sample.engine1 (Fin 800) (Fin 600) (Fin 0))))
              (Canvas.height (Engine.canvas (_resize Sample.engine1 (Fin 800) (Fin 600) (Fin 0))))
            :: DrawLayer CtxState.initial layer (Fin 0) (Fin 0) :: sprites.
Proof.
  destruct (resize_keeps_surfaces_in_step Sample.engine1 (Fin 800) (Fin 600) (Fin 0))
    as (_ & _ & _ & _ & _ & _ & _ & _ & _ & Hn & Hc & _).
  split; [exact (Hn eq_refl)|].
  destruct (Hc eq_refl) as (layer & sprites & Hcalls & _).
  exists layer, sprites. exact Hcalls.
Defined.

(** X29.  The constructor.  Without a canvas it throws.  With one it returns
    an engine with an empty registry and the counter at 0, sized to the
    viewport, the static layer as large as the canvas, and pointer tracking
    on unless the option is [false].  The engine runs exactly when it has a
    context and [autoStart] is true or, [autoStart] being absent, the user
    does not prefer reduced motion; it then has its one callback pending and
    the frame clock set.  Otherwise the host's queue is untouched.  With a
    context the constructor has painted a first frame (the resize), and a
    second, still one when the engine is not started. *)
Theorem construct_engine (c : Canvas) (ctx staticCtx : bool) (opts : FluidOptions)
    (win : Window) (now1 now2 : number) :
  construct None ctx staticCtx opts win now1 now2
  = inl "FluidBackground: canvas is required"%string
  /\ exists e,
       construct (Some c) ctx staticCtx opts win now1 now2 = inr e
       /\ Engine._blobs e = [] /\ Engine._idSeq e = 0%nat
       /\ Engine.ctx e = ctx /\ Engine._staticCtx e = staticCtx
       /\ Engine._pointerEnabled e
          = match FluidOptions.pointerTracking opts with Some false => false | _ => true end
       /\ Engine.state e
          = State.set_running
              (ctx && (FluidOptions.autoStart opts ?? negb (Window.prefersReduce win)))
              (State.set_size (Window.innerWidth win) (Window.innerHeight win)
                 (Math.max (Window.innerWidth win) (Window.innerHeight win))
                 (initialState opts (Window.isMobile win) (Window.prefersReduce win)
                               (Window.devicePixelRatio win)))
       /\ (State.running (Engine.state e) = true ->
           Host.pending (Engine.host e) = Host.pending (Window.host win) ++ [Engine._raf e]
           /\ Engine._lastFrameTs e = now2)
       /\ (State.running (Engine.state e) = false ->
           Engine.host e = Window.host win /\ Engine._lastFrameTs e = Fin 0)
       /\ (staticCtx = true -> Engine._needRebuildStatic e = false)
       /\ StaticLayer.width (Engine._staticLayer e) = Canvas.width (Engine.canvas e)
       /\ StaticLayer.height (Engine._staticLayer e) = Canvas.height (Engine.canvas e)
       /\ length (Canvas.calls (Engine.canvas e))
          = (length (Canvas.calls c)
             + (if ctx
                then if FluidOptions.autoStart opts ?? negb (Window.prefersReduce win)
                     then 2 else 4
                else 0))%nat.
Proof.
  split; [reflexivity|]. unfold construct.
  eexists. split; [reflexivity|].
  destruct (FluidOptions.autoStart opts ?? negb (Window.prefersReduce win)) eqn:Hauto.
  - destruct ctx, staticCtx; cbn -[clamp orNum Math.max Math.round mul orElse];
      rewrite ?length_app; cbn [length];
      repeat split; try discriminate; try lia.
  - destruct ctx, staticCtx; cbn -[clamp orNum Math.max Math.round mul orElse];
      rewrite ?length_app; cbn [length];
      repeat split; try discriminate; try lia.
Qed.

Lemma construct_engine_witness :
  exists e,
    construct (Some Sample.canvas0) true true FluidOptions.none Sample.window0 (Fin 0) (Fin 1)
    = inr e
    /\ State.running (Engine.state e) = true
    /\ Host.pending (Engine.host e) = [Engine._raf e]
    /\ Engine._lastFrameTs e = Fin 1.
Proof.
  destruct (construct_engine Sample.canvas0 true true FluidOptions.none Sample.window0
              (Fin 0) (Fin 1))
    as (_ & e & He & _ & _ & _ & _ & _ & Hs & Hrun & _).
  exists e. split; [exact He|].
  assert (Hr : State.running (Engine.state e) = true) by (rewrite Hs; reflexivity).
  split; [exact Hr|]. exact (Hrun Hr).
Defined.

End ConstructMore.

(** ** The colour decoder of the view *)

Section HexMore.

Import HomeView.

Lemma hexVal_facts (c : ascii) (d : Z) :
  hexVal c = Some d ->
  (0 <= d < 16)%Z /\ Str.is_ws c = false
  /\ Ascii.eqb c "#" = false /\ Ascii.eqb c "-" = false /\ Ascii.eqb c "+" = false
  /\ Ascii.eqb c "x" = false /\ Ascii.eqb c "X" = false.
Proof.
  destruct c as [[] [] [] [] [] [] [] []]; vm_compute; intros H;
    try discriminate; inversion H; subst; repeat split; discriminate.
Qed.

Lemma parseInt16_pair (c1 c2 : ascii) (d1 d2 : Z) :
  hexVal c1 = Some d1 -> hexVal c2 = Some d2 ->
  parseInt16 (String c1 (String c2 EmptyString)) = Fin (IZR (16 * d1 + d2)).
Proof.
  intros H1 H2.
  destruct (hexVal_facts _ H1) as (_ & Hws & _ & Hm & Hp & _).
  destruct (hexVal_facts _ H2) as (_ & _ & _ & _ & _ & Hx & HX).
  unfold parseInt16. cbn [list_ascii_of_string Str.dropWs]. rewrite Hws.
  rewrite sign_none by assumption.
  assert (Hpre : match [c1; c2] with
                 | "0"%char :: c :: t =>
                     if Ascii.eqb c "x" || Ascii.eqb c "X" then t else [c1; c2]
                 | _ => [c1; c2]
                 end = [c1; c2]).
  { rewrite Hx, HX. cbn [orb].
    destruct c1 as [[] [] [] [] [] [] [] []]; reflexivity. }
  rewrite Hpre. cbn [hexRun]. rewrite H1, H2. cbn [Nat.eqb].
  do 2 f_equal; lia.
Qed.

Lemma parseInt16_single (c : ascii) (d : Z) :
  hexVal c = Some d -> parseInt16 (String c EmptyString) = Fin (IZR d).
Proof.
  intros H. destruct (hexVal_facts _ H) as (_ & Hws & _ & Hm & Hp & _).
  unfold parseInt16. cbn [list_ascii_of_string Str.dropWs]. rewrite Hws.
  rewrite sign_none by assumption.
  assert (Hpre : match [c] with
                 | "0"%char :: c' :: t =>
                     if Ascii.eqb c' "x" || Ascii.eqb c' "X" then t else [c]
                 | _ => [c]
                 end = [c]).
  { destruct c as [[] [] [] [] [] [] [] []]; reflexivity. }
  rewrite Hpre. cbn [hexRun]. rewrite H. cbn [Nat.eqb]. do 2 f_equal; lia.
Qed.

(** X30.  The colour decoder of the view.  For six hexadecimal digits, in
    either case and with or without the leading [#], [hex2rgb] returns the
    three channels, each the value of its pair of digits and hence a whole
    number from 0 to 255.  The three-digit shorthand is not expanded: its
    third channel is [NaN]. *)
Theorem hex2rgb_decodes (c1 c2 c3 c4 c5 c6 : ascii) (d1 d2 d3 d4 d5 d6 : Z) :
  hexVal c1 = Some d1 -> hexVal c2 = Some d2 -> hexVal c3 = Some d3 ->
  hexVal c4 = Some d4 -> hexVal c5 = Some d5 -> hexVal c6 = Some d6 ->
  let rgb := (Fin (IZR (16 * d1 + d2)), Fin (IZR (16 * d3 + d4)), Fin (IZR (16 * d5 + d6))) in
  hex2rgb (String "#" (hex6 c1 c2 c3 c4 c5 c6)) = rgb
  /\ hex2rgb (hex6 c1 c2 c3 c4 c5 c6) = rgb
  /\ (0 <= 16 * d1 + d2 <= 255)%Z /\ (0 <= 16 * d3 + d4 <= 255)%Z
  /\ (0 <= 16 * d5 + d6 <= 255)%Z
  /\ hex2rgb (String "#" (String c1 (String c2 (String c3 EmptyString))))
     = (Fin (IZR (16 * d1 + d2)), Fin (IZR d3), NaN).
Proof.
  intros H1 H2 H3 H4 H5 H6 rgb.
  destruct (hexVal_facts _ H1) as (B1 & _ & N1 & _).
  destruct (hexVal_facts _ H2) as (B2 & _ & N2 & _).
  destruct (hexVal_facts _ H3) as (B3 & _ & N3 & _).
  destruct (hexVal_facts _ H4) as (B4 & _ & N4 & _).
  destruct (hexVal_facts _ H5) as (B5 & _ & N5 & _).
  destruct (hexVal_facts _ H6) as (B6 & _ & N6 & _).
  assert (Hrm : removeHash (hex6 c1 c2 c3 c4 c5 c6) = hex6 c1 c2 c3 c4 c5 c6).
  { unfold hex6. cbn [removeHash]. now rewrite N1, N2, N3, N4, N5, N6. }
  assert (Hplain : hex2rgb (hex6 c1 c2 c3 c4 c5 c6) = rgb).
  { unfold hex2rgb. rewrite Hrm. unfold slice, hex6. cbn [Nat.sub substring].
    rewrite (@parseInt16_pair _ _ _ _ H1 H2), (@parseInt16_pair _ _ _ _ H3 H4),
      (@parseInt16_pair _ _ _ _ H5 H6).
    reflexivity. }
  split; [|split; [exact Hplain|]].
  - unfold hex2rgb in *. cbn [removeHash Ascii.eqb Bool.eqb].
    rewrite Hrm in Hplain. exact Hplain.
  - split; [lia|]. split; [lia|]. split; [lia|].
    unfold hex2rgb. cbn [removeHash Ascii.eqb Bool.eqb].
    unfold slice. cbn [Nat.sub substring].
    rewrite (@parseInt16_pair _ _ _ _ H1 H2), (@parseInt16_single _ _ H3).
    reflexivity.
Qed.

Lemma hex2rgb_decodes_witness :
  hex2rgb "#6d6afc" = (Fin 109, Fin 106, Fin 252).
Proof.
  exact (proj1 (@hex2rgb_decodes "6" "d" "6" "a" "f" "c" 6 13 6 10 15 12
                  eq_refl eq_refl eq_refl eq_refl eq_refl eq_refl)).
Defined.

End HexMore.
